(** * MHAG: Multi Host Availability Grapher (mhag.py)

    A shallow embedding of the probe-output parser, the target state
    store, the configuration persistence, the command assembly and the
    report of [src/mhag.py], the properties of its specification and
    further properties of the run.

    Conventions of the embedding.
    - A Python [bytes] value is a Rocq [string] (one [ascii] per byte).
    - A Python [str] held in a dictionary is the Rocq [string] of its
      UTF-8 encoding; the regular-expression engine works on the list of
      code points of the decoded text.
    - A Python [dict] is an association list in insertion order; the
      entries of the configuration are strings, as the program writes
      them.
    - A raised exception is the [Raise] branch of [result]; effects on
      the file system and on the round-robin database are threaded
      through an explicit [world].
    - A binary64 float is the integer that counts its multiples of
      2^-1074; every float operation is the exact operation followed by
      rounding to nearest, ties to even.
    - What the interpreter's libraries decide is a parameter: the
      Unicode tables above U+007F ([Unicode]), the calendar parser and
      the JSON codec ([Library]), the date representation of the locale
      and the clock in UTC ([Platform]).
    - The report that ends a run works on its own state, [site]: the
      graph commands started and the pages closed. *)

From Stdlib Require Import ZArith NArith List String Ascii Bool Lia.
From Stdlib Require Import DecimalString Permutation Sorted.
Import ListNotations.

Local Open Scope string_scope.
Local Open Scope Z_scope.

(* ------------------------------------------------------------------ *)
(** ** Exceptions *)

Inductive exn : Type :=
| KeyError (key : string)
| IndexError
| ValueError
| OverflowError
| UnicodeDecodeError
| UnboundLocalError (name : string)
| FileNotFoundError
| OSError
| SystemExit.

Inductive result (A : Type) : Type :=
| Ok (a : A)
| Raise (e : exn).
Arguments Ok {A} a.
Arguments Raise {A} e.

Definition bind {A B : Type} (r : result A) (f : A -> result B) : result B :=
  match r with
  | Ok a => f a
  | Raise e => Raise e
  end.

Declare Scope py_scope.
Delimit Scope py_scope with py.
Notation "x <- c1 ;; c2" := (bind c1 (fun x => c2))
  (at level 61, c1 at next level, right associativity) : py_scope.
Notation "' pat <- c1 ;; c2" := (bind c1 (fun x => match x with pat => c2 end))
  (at level 61, pat pattern, c1 at next level, right associativity) : py_scope.
Local Open Scope py_scope.

Definition is_ok {A : Type} (r : result A) : bool :=
  match r with Ok _ => true | Raise _ => false end.

(* ------------------------------------------------------------------ *)
(** ** Bytes, text and code points *)

Definition codepoint := N.

Definition nl : string := String (ascii_of_nat 10) EmptyString.

Definition byte_values (s : string) : list N :=
  map N_of_ascii (list_ascii_of_string s).

(** [u "PING"]: the code points of an ASCII literal of the source. *)
Definition u (s : string) : list codepoint := byte_values s.

Definition is_cont (b : N) : bool := ((128 <=? b) && (b <=? 191))%N.

Definition cont_bits (b : N) : N := (b - 128)%N.

(** [bytes.decode('utf-8')] in strict mode: [None] stands for
    UnicodeDecodeError.  Over-long forms, surrogates and code points
    above U+10FFFF are refused. *)
Fixpoint utf8_decode (s : string) : option (list codepoint) :=
  match s with
  | EmptyString => Some []
  | String c0 s1 =>
    let b0 := N_of_ascii c0 in
    if (b0 <? 128)%N then option_map (cons b0) (utf8_decode s1)
    else if (b0 <? 192)%N then None
    else if (b0 <? 224)%N then
      match s1 with
      | String c1 s2 =>
        let b1 := N_of_ascii c1 in
        let cp := ((b0 - 192) * 64 + cont_bits b1)%N in
        if is_cont b1 && (128 <=? cp)%N
        then option_map (cons cp) (utf8_decode s2) else None
      | _ => None
      end
    else if (b0 <? 240)%N then
      match s1 with
      | String c1 (String c2 s3) =>
        let b1 := N_of_ascii c1 in
        let b2 := N_of_ascii c2 in
        let cp := ((b0 - 224) * 4096 + cont_bits b1 * 64 + cont_bits b2)%N in
        if is_cont b1 && is_cont b2 && (2048 <=? cp)%N
           && negb ((55296 <=? cp) && (cp <=? 57343))%N
        then option_map (cons cp) (utf8_decode s3) else None
      | _ => None
      end
    else if (b0 <? 248)%N then
      match s1 with
      | String c1 (String c2 (String c3 s4)) =>
        let b1 := N_of_ascii c1 in
        let b2 := N_of_ascii c2 in
        let b3 := N_of_ascii c3 in
        let cp := ((b0 - 240) * 262144 + cont_bits b1 * 4096
                   + cont_bits b2 * 64 + cont_bits b3)%N in
        if is_cont b1 && is_cont b2 && is_cont b3
           && (65536 <=? cp)%N && (cp <=? 1114111)%N
        then option_map (cons cp) (utf8_decode s4) else None
      | _ => None
      end
    else None
  end.

Definition decode (s : string) : result (list codepoint) :=
  match utf8_decode s with
  | Some l => Ok l
  | None => Raise UnicodeDecodeError
  end.

Definition chr (n : N) : ascii := ascii_of_N n.

(** The UTF-8 encoding of one code point, and of a text. *)
Definition utf8_encode1 (cp : codepoint) : string :=
  if (cp <? 128)%N then String (chr cp) ""
  else if (cp <? 2048)%N then
    String (chr (192 + cp / 64)) (String (chr (128 + cp mod 64)) "")
  else if (cp <? 65536)%N then
    String (chr (224 + cp / 4096))
      (String (chr (128 + (cp / 64) mod 64)) (String (chr (128 + cp mod 64)) ""))
  else
    String (chr (240 + cp / 262144))
      (String (chr (128 + (cp / 4096) mod 64))
        (String (chr (128 + (cp / 64) mod 64)) (String (chr (128 + cp mod 64)) ""))).

Fixpoint encode (l : list codepoint) : string :=
  match l with
  | [] => ""
  | cp :: l' => utf8_encode1 cp ++ encode l'
  end.

(** [strip_prefix p s = Some r] when [s = p ++ r]. *)
Fixpoint strip_prefix (p s : list codepoint) : option (list codepoint) :=
  match p, s with
  | [], _ => Some s
  | x :: p', y :: s' => if (x =? y)%N then strip_prefix p' s' else None
  | _ :: _, [] => None
  end.

(** [needle in hay] on texts. *)
Fixpoint contains (needle hay : list codepoint) : bool :=
  match strip_prefix needle hay with
  | Some _ => true
  | None => match hay with
            | [] => false
            | _ :: hay' => contains needle hay'
            end
  end.

(* ------------------------------------------------------------------ *)
(** ** The Unicode tables of the interpreter

    The character classes of [re] in [re.UNICODE] mode and the digit
    values used by [int()] and [float()] are fixed on ASCII; above
    U+007F they are read from the interpreter's Unicode database, which
    is a parameter of the development. *)

Class Unicode : Type := {
  uni_isspace : codepoint -> bool;          (* str.isspace *)
  uni_isalnum : codepoint -> bool;          (* str.isalnum *)
  uni_decimal : codepoint -> option Z       (* digit value of category Nd *)
}.

Section Regex.
Context {U : Unicode}.

Definition digit_value (c : codepoint) : option Z :=
  if (c <? 128)%N then
    if ((48 <=? c) && (c <=? 57))%N then Some (Z.of_N c - 48) else None
  else uni_decimal c.

(** [\d] *)
Definition is_digit (c : codepoint) : bool :=
  match digit_value c with Some _ => true | None => false end.

(** [\s]: for ASCII, tab to carriage return, the four separators
    U+001C..U+001F and the space. *)
Definition is_space (c : codepoint) : bool :=
  if (c <? 128)%N then
    ((9 <=? c) && (c <=? 13) || (28 <=? c) && (c <=? 32))%N
  else uni_isspace c.

(** [\w] *)
Definition is_word (c : codepoint) : bool :=
  if (c <? 128)%N then
    ((48 <=? c) && (c <=? 57) || (65 <=? c) && (c <=? 90)
     || (97 <=? c) && (c <=? 122) || (c =? 95))%N
  else uni_isalnum c.

(** Character sets and the fragment of regular expressions that
    [parse_ping] uses: literals, sets, greedy [+] on a set, sequence,
    ordered alternation and numbered capture groups. *)
Inductive cset : Type :=
| CDigit
| CSpace
| CWord
| CChar (c : codepoint)
| CUnion (a b : cset).

Fixpoint in_cset (cs : cset) (c : codepoint) : bool :=
  match cs with
  | CDigit => is_digit c
  | CSpace => is_space c
  | CWord => is_word c
  | CChar x => (x =? c)%N
  | CUnion a b => in_cset a c || in_cset b c
  end.

Inductive regex : Type :=
| RStr (l : list codepoint)
| RSet (cs : cset)
| RPlus (cs : cset)
| RSeq (r1 r2 : regex)
| RAlt (r1 r2 : regex)
| RGroup (n : nat) (r : regex).

Definition captures := list (nat * list codepoint).

Fixpoint capture (g : nat) (cs : captures) : list codepoint :=
  match cs with
  | [] => []
  | (n, t) :: cs' => if Nat.eqb n g then t else capture g cs'
  end.

(** Greedy [p+] followed by the continuation [k]: the longest run is
    tried first, then one character is given back at a time. *)
Fixpoint plus_match {A : Type} (p : codepoint -> bool) (s : list codepoint)
    (k : list codepoint -> option A) : option A :=
  match s with
  | [] => None
  | c :: s' =>
    if p c then
      match plus_match p s' k with
      | Some a => Some a
      | None => k s'
      end
    else None
  end.

(** Backtracking match of [r] at the head of [s], then of the
    continuation [k] on what is left. *)
Fixpoint rmatch {A : Type} (r : regex) (s : list codepoint) (cs : captures)
    (k : list codepoint -> captures -> option A) : option A :=
  match r with
  | RStr l =>
    match strip_prefix l s with
    | Some s' => k s' cs
    | None => None
    end
  | RSet c =>
    match s with
    | x :: s' => if in_cset c x then k s' cs else None
    | [] => None
    end
  | RPlus c => plus_match (in_cset c) s (fun s' => k s' cs)
  | RSeq r1 r2 => rmatch r1 s cs (fun s' cs' => rmatch r2 s' cs' k)
  | RAlt r1 r2 =>
    match rmatch r1 s cs k with
    | Some a => Some a
    | None => rmatch r2 s cs k
    end
  | RGroup n r1 =>
    rmatch r1 s cs
      (fun s' cs' => k s' ((n, firstn (List.length s - List.length s') s) :: cs'))
  end.

(** One match at the head of [s]: the number of characters consumed and
    the tuple of the [n] groups (a group that took no part is ''). *)
Definition match_here (r : regex) (n : nat) (s : list codepoint)
  : option (nat * list (list codepoint)) :=
  rmatch r s []
    (fun s' cs => Some ((List.length s - List.length s')%nat,
                        map (fun g => capture g cs) (seq 1 n))).

(** [re.findall]: the non-overlapping matches, leftmost first.  [skip]
    counts the characters still covered by the previous match. *)
Fixpoint findall_from (r : regex) (n : nat) (s : list codepoint) (skip : nat)
  : list (list (list codepoint)) :=
  match s with
  | [] => []
  | _ :: s' =>
    match skip with
    | S k => findall_from r n s' k
    | O =>
      match match_here r n s with
      | Some (len, t) => t :: findall_from r n s' (len - 1)
      | None => findall_from r n s' 0
      end
    end
  end.

Definition findall (r : regex) (n : nat) (s : list codepoint) :=
  findall_from r n s 0.

(** The texts a regular expression accepts. *)
Fixpoint accepts (r : regex) (w : list codepoint) : Prop :=
  match r with
  | RStr l => w = l
  | RSet c => exists x, w = [x] /\ in_cset c x = true
  | RPlus c => w <> [] /\ Forall (fun x => in_cset c x = true) w
  | RSeq r1 r2 => exists w1 w2, w = (w1 ++ w2)%list /\ accepts r1 w1 /\ accepts r2 w2
  | RAlt r1 r2 => accepts r1 w \/ accepts r2 w
  | RGroup _ r1 => accepts r1 w
  end.

(** The bodies of the groups numbered [n] in [r]. *)
Fixpoint group_bodies (r : regex) (n : nat) : list regex :=
  match r with
  | RStr _ | RSet _ | RPlus _ => []
  | RSeq a b | RAlt a b => (group_bodies a n ++ group_bodies b n)%list
  | RGroup m a => ((if Nat.eqb m n then [a] else []) ++ group_bodies a n)%list
  end.

(** The captures [cs'] are those of [cs] and texts accepted by the
    bodies of their groups in [r]. *)
Definition captured_in (r : regex) (cs cs' : captures) : Prop :=
  forall n t, In (n, t) cs' ->
    In (n, t) cs \/ exists b, In b (group_bodies r n) /\ accepts b t.

(** A text in a tuple of [findall] is empty or accepted by the body of
    the group it stands for. *)
Definition group_text (r : regex) (g : nat) (t : list codepoint) : Prop :=
  t = [] \/ exists b, In b (group_bodies r g) /\ accepts b t.

End Regex.

Infix ">>" := RSeq (at level 61, right associativity) : py_scope.
Infix "<|>" := RAlt (at level 62, right associativity) : py_scope.

(** [token_specification] (lines 327-332) joined by ['|'] inside one
    outer group: ten groups in all, so every element of [findall] is a
    10-tuple whose index 0 is the whole match. *)
Definition dotted : regex := RPlus CDigit >> RStr (u ".") >> RPlus CDigit.

Definition tokens_re : regex :=
  RGroup 1
    (  (RStr (u "PING") >> RPlus CSpace
          >> RGroup 2 (RPlus (CUnion CWord (CUnion (CChar 45%N) (CChar 46%N))))
          >> RPlus CSpace >> RStr (u "("))
   <|> RGroup 3 (RPlus CDigit >> RStr (u ".") >> RPlus CDigit >> RStr (u ".")
                  >> RPlus CDigit >> RStr (u ".") >> RPlus CDigit)
   <|> (RGroup 4 (RPlus CDigit) >> RPlus CSpace >> RStr (u "packets")
          >> RPlus CSpace >> RStr (u "transmitted,"))
   <|> (RGroup 5 (RPlus CDigit) >> RPlus CSpace >> RStr (u "received,"))
   <|> (RGroup 6 (RPlus CDigit) >> RStr (u "%") >> RPlus CSpace
          >> RStr (u "packet") >> RPlus CSpace >> RStr (u "loss,"))
   <|> (RGroup 7 dotted >> RStr (u "/") >> RGroup 8 dotted >> RStr (u "/")
          >> RGroup 9 dotted >> RStr (u "/") >> RGroup 10 dotted)).

Definition tokens_groups : nat := 10.


(* ------------------------------------------------------------------ *)
(** ** Integers, floats and their conversions *)

Definition str_of_Z (z : Z) : string := NilZero.string_of_int (Z.to_int z).

Section Numbers.
Context {U : Unicode}.

(** [_PyUnicode_TransformDecimalAndSpaceToASCII]: above U+007E a space
    becomes ' ', a decimal digit its ASCII digit, anything else '?'. *)
Definition to_ascii_digit (c : codepoint) : codepoint :=
  if (c <? 127)%N then c
  else if is_space c then 32%N
  else match digit_value c with
       | Some d => Z.to_N (48 + d)
       | None => 63%N
       end.

Definition c_isspace (c : codepoint) : bool :=
  ((9 <=? c) && (c <=? 13) || (c =? 32))%N.

Fixpoint lstrip (s : list codepoint) : list codepoint :=
  match s with
  | c :: s' => if c_isspace c then lstrip s' else s
  | [] => []
  end.

(** The digits of a base-10 literal, single underscores allowed between
    digits; [prev] tells whether the previous character was a digit. *)
Fixpoint int_digits (s : list codepoint) (acc : Z) (prev : bool)
  : option (Z * list codepoint) :=
  match s with
  | [] => if prev then Some (acc, []) else None
  | c :: s' =>
    if ((48 <=? c) && (c <=? 57))%N
    then int_digits s' (10 * acc + (Z.of_N c - 48)) true
    else if (c =? 95)%N
    then (if prev then int_digits s' acc false else None)
    else if prev then Some (acc, s) else None
  end.

(** [int(s)] for a [str]. *)
Definition py_int (s : list codepoint) : result Z :=
  let s := lstrip (map to_ascii_digit s) in
  let '(sign, s) :=
    match s with
    | 43%N :: s' => (1, s')
    | 45%N :: s' => (-1, s')
    | _ => (1, s)
    end in
  match int_digits s 0 false with
  | Some (n, rest) =>
    match lstrip rest with
    | [] => Ok (sign * n)
    | _ :: _ => Raise ValueError
    end
  | None => Raise ValueError
  end.

End Numbers.

(** A finite binary64 value is the integer that counts its multiples of
    2^-1074 (the smallest subnormal); [Inf] is the overflow value. *)
Definition funit : Z := 2 ^ 1074.

Inductive pyfloat : Type :=
| Fin (m : Z)
| Inf.

(** The float that holds the integer [n] when it is representable. *)
Definition float_of_Z (n : Z) : Z := n * funit.

(** [num / den] rounded to the nearest integer, ties to the even one. *)
Definition round_half_even (num den : Z) : Z :=
  let q := num / den in
  let r := num mod den in
  if 2 * r <? den then q
  else if den <? 2 * r then q + 1
  else if Z.even q then q else q + 1.

(** The [l] with [2^l <= a / b < 2^(l+1)], for positive [a] and [b]. *)
Definition floor_log2 (a b : Z) : Z :=
  let l := Z.log2 a - Z.log2 b in
  let below := if 0 <=? l then a <? b * 2 ^ l else a * 2 ^ (- l) <? b in
  if below then l - 1 else l.

(** Round to nearest, ties to even, of the non-negative rational
    [a / b] to binary64: 53 significant bits, exponents down to -1074,
    overflow at 2^1024. *)
Definition round_float (a b : Z) : pyfloat :=
  if a =? 0 then Fin 0
  else
    let e := Z.max (floor_log2 a b - 52) (-1074) in
    let m := if 0 <=? e then round_half_even a (b * 2 ^ e)
             else round_half_even (a * 2 ^ (- e)) b in
    let v := m * 2 ^ (e + 1074) in
    if v <? 2 ^ 2098 then Fin v else Inf.

(** [round(x)] for a float [x], without [ndigits]: an [int]. *)
Definition py_round (x : pyfloat) : result Z :=
  match x with
  | Fin m => Ok (round_half_even m funit)
  | Inf => Raise OverflowError
  end.

Section Floats.
Context {U : Unicode}.

Fixpoint digits_value (s : list codepoint) (acc : Z) : option Z :=
  match s with
  | [] => Some acc
  | c :: s' =>
    match digit_value c with
    | Some d => digits_value s' (10 * acc + d)
    | None => None
    end
  end.

Fixpoint split_dot (s : list codepoint) : option (list codepoint * list codepoint) :=
  match s with
  | [] => None
  | c :: s' =>
    if (c =? 46)%N then Some ([], s')
    else match split_dot s' with
         | Some (a, b) => Some (c :: a, b)
         | None => None
         end
  end.

(** [float(s)] on the texts that groups 7 to 10 of [tokens_re] can hold
    (lemma [rtt_groups_read_as_floats]): the empty text of a group that
    took no part (ValueError), or digits, a dot and digits, converted
    with correct rounding. *)
Definition py_float (s : list codepoint) : result pyfloat :=
  match split_dot s with
  | Some (a :: ia, b :: fb) =>
    match digits_value (a :: ia ++ b :: fb) 0 with
    | Some n => Ok (round_float n (10 ^ Z.of_nat (List.length (b :: fb))))
    | None => Raise ValueError
    end
  | _ => Raise ValueError
  end.

End Floats.

(* ------------------------------------------------------------------ *)
(** ** Dictionaries *)

Definition dict (V : Type) := list (string * V).

Fixpoint dict_get {V : Type} (k : string) (d : dict V) : option V :=
  match d with
  | [] => None
  | (k', v) :: d' => if String.eqb k' k then Some v else dict_get k d'
  end.

(** [d[k] = v]: the value is replaced in place, a new key goes last. *)
Fixpoint dict_set {V : Type} (k : string) (v : V) (d : dict V) : dict V :=
  match d with
  | [] => [(k, v)]
  | (k', v') :: d' =>
    if String.eqb k' k then (k', v) :: d' else (k', v') :: dict_set k v d'
  end.

(** [d.update(upd)] *)
Definition dict_update {V : Type} (d upd : dict V) : dict V :=
  fold_left (fun acc kv => dict_set (fst kv) (snd kv) acc) upd d.

Fixpoint dict_del {V : Type} (k : string) (d : dict V) : dict V :=
  match d with
  | [] => []
  | (k', v) :: d' => if String.eqb k' k then d' else (k', v) :: dict_del k d'
  end.

(** [d[k]] *)
Definition subscript {V : Type} (k : string) (d : dict V) : result V :=
  match dict_get k d with
  | Some v => Ok v
  | None => Raise (KeyError k)
  end.

Fixpoint insert_sorted (k : string) (l : list string) : list string :=
  match l with
  | [] => [k]
  | x :: l' => if String.leb k x then k :: l else x :: insert_sorted k l'
  end.

(** [sorted(d.keys())]: strings compare by code point, which is the
    byte order of their UTF-8 encodings. *)
Definition sorted_keys {V : Type} (d : dict V) : list string :=
  fold_right insert_sorted [] (map fst d).

(** [seq[i]] *)
Definition item {A : Type} (l : list A) (i : nat) : result A :=
  match nth_error l i with
  | Some a => Ok a
  | None => Raise IndexError
  end.

(** One target's persistent and per-cycle fields, and the target store. *)
Definition sample := dict string.
Definition targets := dict sample.

(* ------------------------------------------------------------------ *)
(** ** Text helpers of the command assembly *)

Fixpoint string_rev_acc (s acc : string) : string :=
  match s with
  | EmptyString => acc
  | String c s' => string_rev_acc s' (String c acc)
  end.

Definition string_rev (s : string) : string := string_rev_acc s "".

(** [re.search(pat + '$', s)] for a literal [pat] with [any] leading
    dots: [$] is the end of [s] or the place before a final newline,
    and a dot is any character but a newline. *)
Fixpoint dots_then (any : nat) (r : string) : bool :=
  match any, r with
  | O, _ => true
  | S n, String c r' => negb (Ascii.eqb c (ascii_of_nat 10)) && dots_then n r'
  | S _, EmptyString => false
  end.

Fixpoint drop_prefix (p s : string) : option string :=
  match p, s with
  | EmptyString, _ => Some s
  | String a p', String b s' => if Ascii.eqb a b then drop_prefix p' s' else None
  | String _ _, EmptyString => None
  end.

Definition search_at_end (any : nat) (pat s : string) : bool :=
  let try r := match drop_prefix (string_rev pat) r with
               | Some r' => dots_then any r'
               | None => false
               end in
  let r := string_rev s in
  try r || match r with
           | String c r' => Ascii.eqb c (ascii_of_nat 10) && try r'
           | EmptyString => false
           end.

(** [re.sub(r":$", repl, s)] *)
Definition sub_colon_at_end (repl s : string) : string :=
  match string_rev s with
  | String c r =>
    if Ascii.eqb c ":" then string_rev r ++ repl
    else match r with
         | String c' r' =>
           if Ascii.eqb c (ascii_of_nat 10) && Ascii.eqb c' ":"
           then string_rev r' ++ repl ++ nl else s
         | EmptyString => s
         end
  | EmptyString => s
  end.

(** [s.replace(old, new)] for a non-empty [old]: the occurrences are
    taken from the left and do not overlap.  [skip] counts the
    characters still covered by the occurrence just replaced. *)
Fixpoint replace_from (old new s : string) (skip : nat) : string :=
  match s with
  | EmptyString => ""
  | String c s' =>
    match skip with
    | S k => replace_from old new s' k
    | O =>
      if prefix old s
      then new ++ replace_from old new s' (String.length old - 1)
      else String c (replace_from old new s' 0)
    end
  end.

Definition replace (old new s : string) : string := replace_from old new s 0.

(* ------------------------------------------------------------------ *)
(** ** Time *)

(** A naive [datetime] is its number of microseconds since
    0001-01-01 00:00:00; [datetime.max] is 9999-12-31 23:59:59.999999. *)
Definition max_us : Z := 3652059 * 86400 * 1000000.

Record datetime : Type := mk_datetime {
  dt_us : Z;
  dt_range : (0 <=? dt_us) && (dt_us <? max_us) = true
}.

Definition two_digits (n : Z) : string :=
  if n <? 10 then "0" ++ str_of_Z n else str_of_Z n.

(** [dt.strftime("%H:%M:%S")] *)
Definition strftime_HMS (dt : datetime) : string :=
  let s := (dt_us dt / 1000000) mod 86400 in
  two_digits (s / 3600) ++ ":" ++ two_digits ((s / 60) mod 60)
    ++ ":" ++ two_digits (s mod 60).

(** [abs(a - b)] as a count of microseconds. *)
Definition abs_delta (a b : datetime) : Z := Z.abs (dt_us a - dt_us b).

(** [timedelta.total_seconds()]: the true division of two ints. *)
Definition total_seconds (delta_us : Z) : pyfloat := round_float delta_us 1000000.

(** Float arithmetic on finite operands: the exact result, rounded. *)
Definition fround (num den : Z) : pyfloat :=
  if num <? 0 then
    match round_float (- num) den with
    | Fin m => Fin (- m)
    | Inf => Inf
    end
  else round_float num den.

Definition float_add (x y : Z) : pyfloat := fround (x + y) funit.
Definition float_sub (x y : Z) : pyfloat := fround (x - y) funit.
Definition float_div (x y : Z) : pyfloat :=
  if 0 <? y then fround x y else fround (- x) (- y).
Definition float_floor (x : Z) : Z := (x / funit) * funit.

(** [divmod(vx, wx)] on floats, [wx] not zero, as the interpreter
    computes it: the remainder is exact ([fmod]), takes the sign of
    [wx], and the quotient is snapped to the nearest integral value. *)
Definition float_divmod (vx wx : Z) : pyfloat * pyfloat :=
  let md := Z.rem vx wx in
  match float_sub vx md with
  | Inf => (Inf, Inf)
  | Fin d0 =>
    match float_div d0 wx with
    | Inf => (Inf, Inf)
    | Fin dv =>
      let adjust := negb (md =? 0) && negb (Bool.eqb (wx <? 0) (md <? 0)) in
      let md' := if adjust then float_add md wx else Fin md in
      let dv' := if adjust then float_sub dv funit else Fin dv in
      match dv' with
      | Inf => (Inf, md')
      | Fin dv =>
        if dv =? 0 then (Fin 0, md')
        else
          let fl := float_floor dv in
          match float_sub dv fl with
          | Inf => (Inf, md')
          | Fin frac =>
            if funit <? 2 * frac
            then (float_add fl funit, md') else (Fin fl, md')
          end
      end
    end
  end.

Definition py_divmod (x : pyfloat) (w : Z) : pyfloat * pyfloat :=
  match x with
  | Fin vx => float_divmod vx (float_of_Z w)
  | Inf => (Inf, Inf)
  end.

(** [x > 0] *)
Definition float_pos (x : pyfloat) : bool :=
  match x with
  | Fin m => 0 <? m
  | Inf => true
  end.

(* ------------------------------------------------------------------ *)
(** ** The program's globals, its environment and the outside world *)

(** [cfg_dict] and [gfx_dict], the two collections of the configuration
    file: entries of strings, as the program writes them. *)
Definition gfxdefs := dict (dict string).
Definition config : Type := targets * gfxdefs.

(** What the interpreter's libraries contribute beyond the Unicode
    tables: the calendar parser and the JSON codec, which writes and
    reads texts of some type [text]. *)
Class Library : Type := {
  strptime : string -> result datetime;   (* "%Y-%m-%d %H:%M:%S.%f" *)
  text : Type;
  json_dumps : config -> text;            (* json.dumps([cfg, gfx], indent=4) *)
  json_load : text -> result config       (* json.load, then [0] and [1] *)
}.

(** [json.load] reads back what [json.dumps] wrote, keys in order. *)
Definition json_codec `{Library} : Prop :=
  forall c : config, json_load (json_dumps c) = Ok c.

Definition VER : string := "0.2".
Definition PING : string := "/bin/ping".
Definition GREP : string := "/bin/grep".
Definition RRDTOOL : string := "/usr/bin/rrdtool".

(** The command line, the two timestamps taken when the module is
    loaded, and the behaviour of the clock and of the child processes
    during one run. *)
Record args : Type := {
  comments : bool;
  cfgfile : string;
  datadir : string;
  htmldir : string
}.

Record env : Type := {
  ARGS : args;
  STR_EPOCTIME : string;
  STR_DATETIME : string;
  now : nat -> datetime;                          (* n-th call of datetime.now() *)
  popen : list string -> result (string * string);(* Popen(cmd), then communicate() *)
  check_output : string -> option string         (* stdout of a shell command,
                                                     None on a non-zero exit *)
}.

Section Program.
Context {U : Unicode} {L : Library}.

Record world : Type := {
  files : dict text;       (* the configuration files, by path *)
  ticks : nat;             (* calls of datetime.now() so far *)
  issued : list string     (* shell commands run so far, latest first *)
}.

(** A computation changes the world and returns or raises; what it did
    to the world before raising stays done. *)
Definition M (A : Type) : Type := world -> world * result A.

Definition ret {A : Type} (a : A) : M A := fun w => (w, Ok a).
Definition raise {A : Type} (e : exn) : M A := fun w => (w, Raise e).
Definition lift {A : Type} (r : result A) : M A := fun w => (w, r).
Definition mbind {A B : Type} (m : M A) (f : A -> M B) : M B :=
  fun w => match m w with
           | (w', Ok a) => f a w'
           | (w', Raise e) => (w', Raise e)
           end.

Notation "x <~ c1 ;; c2" := (mbind c1 (fun x => c2))
  (at level 61, c1 at next level, right associativity).
Notation "' pat <~ c1 ;; c2" := (mbind c1 (fun x => match x with pat => c2 end))
  (at level 61, pat pattern, c1 at next level, right associativity).
Notation "c1 ;;; c2" := (mbind c1 (fun _ => c2))
  (at level 61, right associativity).

Definition read_clock (e : env) : M datetime :=
  fun w => ({| files := files w; ticks := S (ticks w); issued := issued w |},
            Ok (now e (ticks w))).

Definition write_file (path : string) (t : text) : M unit :=
  fun w => ({| files := dict_set path t (files w); ticks := ticks w;
               issued := issued w |}, Ok tt).

(** [subprocess.check_output([cmd], shell=True)]: [None] stands for
    CalledProcessError. *)
Definition run_shell (e : env) (cmd : string) : M (option string) :=
  fun w => ({| files := files w; ticks := ticks w; issued := cmd :: issued w |},
            Ok (check_output e cmd)).

(* ------------------------------------------------------------------ *)
(** ** parse_ping (lines 312-369) *)

Definition unknown_fields (e : env) : sample :=
  [("IP", "UNKNOWN"); ("TX", "UNKNOWN"); ("RX", "UNKNOWN"); ("AVAIL", "0");
   ("LASTFAIL", STR_DATETIME e); ("MINRTT", "UNKNOWN"); ("AVGRTT", "UNKNOWN");
   ("MAXRTT", "UNKNOWN"); ("MDEV", "UNKNOWN")].

(** [match[i][j]] *)
Definition item2 (m : list (list (list codepoint))) (i j : nat)
  : result (list codepoint) :=
  t <- item m i ;; item t j.

(** [str(round(float(s)))] *)
Definition rounded (s : list codepoint) : result string :=
  f <- py_float s ;; n <- py_round f ;; Ok (str_of_Z n).

Definition parse_ping (e : env) (poldic : targets) (key : string)
    (out err : string) : result targets :=
  outs <- decode out ;;                               (* line 316 *)
  _ <- decode err ;;                                  (* line 317 *)
  if negb (String.eqb err "") then
    tgt <- subscript key poldic ;;
    Ok (dict_set key (dict_update tgt (unknown_fields e)) poldic)
  else if contains (u "PING") outs then
    let m := findall tokens_re tokens_groups outs in
    match m with
    | _ :: _ =>
      tgt <- subscript key poldic ;;
      ip <- item2 m 1 2 ;;
      tx <- item2 m 2 3 ;;
      rx <- item2 m 3 4 ;;
      let tgt := dict_update tgt
                   [("IP", encode ip); ("TX", encode tx); ("RX", encode rx)] in
      loss <- item2 m 4 5 ;;
      n <- py_int loss ;;
      let tgt := dict_update tgt [("AVAIL", str_of_Z (100 - n))] in
      avail <- subscript "AVAIL" tgt ;;
      if String.eqb avail "0" then
        Ok (dict_set key
              (dict_update tgt
                 [("MINRTT", "UNKNOWN"); ("AVGRTT", "UNKNOWN");
                  ("MAXRTT", "UNKNOWN"); ("MDEV", "UNKNOWN");
                  ("LASTFAIL", STR_DATETIME e)]) poldic)
      else
        mn <- item2 m 5 6 ;; minrtt <- rounded mn ;;
        av <- item2 m 5 7 ;; avgrtt <- rounded av ;;
        mx <- item2 m 5 8 ;; maxrtt <- rounded mx ;;
        md <- item2 m 5 9 ;; mdev <- rounded md ;;
        Ok (dict_set key
              (dict_update tgt
                 [("MINRTT", minrtt); ("AVGRTT", avgrtt);
                  ("MAXRTT", maxrtt); ("MDEV", mdev)]) poldic)
    | [] =>
      tgt <- subscript key poldic ;;
      Ok (dict_set key (dict_update tgt (unknown_fields e)) poldic)
    end
  else Ok poldic.

(* ------------------------------------------------------------------ *)
(** ** update_database (lines 372-394) *)

Definition template_names (keys : list string) : string :=
  String.concat "" (map (fun t => t ++ "-AVRTT:" ++ t ++ "-AVAIL:") keys).

Fixpoint sample_values (poldic : targets) (keys : list string) : result string :=
  match keys with
  | [] => Ok ""
  | t :: keys' =>
    tgt <- subscript t poldic ;;
    avgrtt <- subscript "AVGRTT" tgt ;;
    avail <- subscript "AVAIL" tgt ;;
    rest <- sample_values poldic keys' ;;
    Ok (avgrtt ++ ":" ++ avail ++ ":" ++ rest)
  end.

(** The command line handed to the shell, or the exception raised
    while it is assembled.  [cfgpath] is [ARGS.cfgfile] as [main] left
    it, data directory included. *)
Definition update_command (e : env) (cfgpath : string) (poldic : targets)
  : result string :=
  let cmd := RRDTOOL ++ " update " ++ replace "json" "rrd" cfgpath
               ++ " --template " in
  let cmd := cmd ++ template_names (sorted_keys poldic) in
  let cmd := sub_colon_at_end " " cmd in
  let cmd := cmd ++ STR_EPOCTIME e ++ ":" in
  vals <- sample_values poldic (sorted_keys poldic) ;;
  Ok (sub_colon_at_end "" (cmd ++ vals)).

Definition update_database (e : env) (cfgpath : string) (poldic : targets)
  : M unit :=
  cmd <~ lift (update_command e cfgpath poldic) ;;
  output <~ run_shell e cmd ;;
  match output with
  | Some _ => ret tt
  | None => raise (UnboundLocalError "output")   (* line 394 *)
  end.

(* ------------------------------------------------------------------ *)
(** ** calc_uptime (lines 241-265) *)

Definition unit_text (x : pyfloat) (label : string) : result string :=
  if float_pos x then n <- py_round x ;; Ok (str_of_Z n ++ label) else Ok "".

(** The uptime text of one target: [t1] and [t2] are the two readings
    of the clock, [lastfail] the parsed LASTFAIL. *)
Definition uptime_text (t1 t2 lastfail : datetime) : result string :=
  let uptime := strftime_HMS t1 ++ " UP (since last ping fail) for " in
  let delta := abs_delta t2 lastfail in
  let '(mins, secs) := py_divmod (total_seconds delta) 60 in
  let '(hours, mins) := py_divmod mins 60 in
  let '(days, hours) := py_divmod hours 12 in
  d <- unit_text days " days, " ;;
  h <- unit_text hours " hours, " ;;
  m <- unit_text mins " minutes, " ;;
  s <- unit_text secs " seconds" ;;
  Ok (uptime ++ d ++ h ++ m ++ s ++ ".").

Fixpoint calc_uptime_loop (e : env) (keys : list string) (cfgdic : targets)
  : M targets :=
  match keys with
  | [] => ret cfgdic
  | t :: keys' =>
    tgt <~ lift (subscript t cfgdic) ;;
    lf <~ lift (subscript "LASTFAIL" tgt) ;;
    lastfail <~ lift (strptime lf) ;;
    t1 <~ read_clock e ;;
    t2 <~ read_clock e ;;
    uptime <~ lift (uptime_text t1 t2 lastfail) ;;
    calc_uptime_loop e keys' (dict_set t (dict_set "UPTIME" uptime tgt) cfgdic)
  end.

Definition calc_uptime (e : env) (cfgdic : targets) : M targets :=
  calc_uptime_loop e (sorted_keys cfgdic) cfgdic.

(* ------------------------------------------------------------------ *)
(** ** Configuration persistence (lines 132-136 and 151-201) *)

Definition default_targets (e : env) : targets :=
  [("Cloudflare", [("FQDN", "one.one.one.one"); ("COUNT", "5");
                   ("LASTFAIL", STR_DATETIME e)]);
   ("Google", [("FQDN", "google-public-dns-a.google.com"); ("COUNT", "5");
               ("LASTFAIL", STR_DATETIME e)]);
   ("OpenDNS", [("FQDN", "resolver1.opendns.com"); ("COUNT", "5");
                ("LASTFAIL", STR_DATETIME e)])].

Definition default_gfx : gfxdefs :=
  [("1mx12h", [("rra", "LAST"); ("interval", "1m"); ("duration", "12h");
               ("step", "60"); ("xgrid", "MINUTE:5:MINUTE:15:HOUR:2")]);
   ("5mx24h", [("rra", "AVERAGE"); ("interval", "5m"); ("duration", "24h");
               ("step", "300"); ("xgrid", "MINUTE:5:MINUTE:15:HOUR:4")]);
   ("30mx7d", [("rra", "AVERAGE"); ("interval", "30m"); ("duration", "7d");
               ("step", "1800"); ("xgrid", "MINUTE:30:HOUR:4:HOUR:24")]);
   ("2hx28d", [("rra", "AVERAGE"); ("interval", "2h"); ("duration", "28d");
               ("step", "7200"); ("xgrid", "HOUR:2:DAY:1:DAY:7")]);
   ("1dx365d", [("rra", "AVERAGE"); ("interval", "1d"); ("duration", "365d");
                ("step", "86400"); ("xgrid", "HOUR:24:DAY:7:DAY:30")])].

(** [int(x[1]['step'])], the sort key of one definition. *)
Definition step_of (d : dict string) : result Z :=
  st <- subscript "step" d ;;
  match utf8_decode st with
  | Some l => py_int l
  | None => Raise ValueError
  end.

Fixpoint step_keys (g : gfxdefs) : result (list (Z * (string * dict string))) :=
  match g with
  | [] => Ok []
  | (name, d) :: g' =>
    k <- step_of d ;;
    rest <- step_keys g' ;;
    Ok ((k, (name, d)) :: rest)
  end.

Fixpoint insert_by_key {A : Type} (x : Z * A) (l : list (Z * A)) : list (Z * A) :=
  match l with
  | [] => [x]
  | y :: l' => if fst x <=? fst y then x :: l else y :: insert_by_key x l'
  end.

(** [sorted(items, key=...)]: the stable sort by key. *)
Definition sorted_by_key {A : Type} (l : list (Z * A)) : list (Z * A) :=
  fold_right insert_by_key [] l.

(** [OrderedDict(sorted(gfxdic.items(), key=lambda x: int(x[1]['step'])))] *)
Definition gfxprm_sort (g : gfxdefs) : result gfxdefs :=
  keyed <- step_keys g ;;
  Ok (dict_update [] (map snd (sorted_by_key keyed))).

(** The write of lines 132-136 and of lines 196-199. *)
Definition write_config (path : string) (cfgdic : targets) (gfxdic : gfxdefs)
  : M unit :=
  sorted <~ lift (gfxprm_sort gfxdic) ;;
  write_file path (json_dumps (cfgdic, sorted)).

Definition read_config (e : env) (path : string) : M config :=
  fun w =>
    let loaded :=
      match dict_get path (files w) with
      | Some t =>
        '(c, g) <- json_load t ;;
        Ok (dict_update [] c, dict_update [] g, false)
      | None => Ok (dict_update [] (default_targets e), [], true)
      end in
    match loaded with
    | Raise ex => (w, Raise ex)
    | Ok (cfgdic, gfxdic, need2write) =>
      let '(gfxdic, need2write) :=
        match gfxdic with
        | [] => (dict_update [] default_gfx, true)
        | _ :: _ => (gfxdic, need2write)
        end in
      if need2write
      then mbind (write_config path cfgdic gfxdic) (fun _ => ret (cfgdic, gfxdic)) w
      else (w, Ok (cfgdic, gfxdic))
    end.

(* ------------------------------------------------------------------ *)
(** ** verify_rrd (lines 204-238) *)

Definition create_command (dbfile : string) (cfgdic : targets) : string :=
  RRDTOOL ++ " create " ++ dbfile ++ " --step 1m "
    ++ String.concat ""
         (map (fun t => "DS:" ++ t ++ "-AVRTT:GAUGE:65:1:2000 "
                          ++ "DS:" ++ t ++ "-AVAIL:GAUGE:65:0:100 ")
              (sorted_keys cfgdic))
    ++ "RRA:LAST:0:1:365d " ++ "RRA:AVERAGE:0.5:5m:24h "
    ++ "RRA:AVERAGE:0.5:30m:7d " ++ "RRA:AVERAGE:0.5:2h:28d "
    ++ "RRA:AVERAGE:0.5:1d:365d ".

Definition verify_rrd (e : env) (dbfile : string) (cfgdic : targets) : M unit :=
  info <~ run_shell e (RRDTOOL ++ " info " ++ dbfile ++ " |" ++ GREP ++ " index") ;;
  match info with
  | Some bytes => _ <~ lift (decode bytes) ;; ret tt          (* line 213 *)
  | None =>
    output <~ run_shell e (create_command dbfile cfgdic) ;;
    match output with
    | Some _ => ret tt
    | None => raise (UnboundLocalError "output")              (* line 238 *)
    end
  end.

(* ------------------------------------------------------------------ *)
(** ** ping_hosts (lines 268-309) *)

(** First loop: one child process per target.  The PID entry holds the
    process object, which is no text: the model keeps what the process
    will have written, by target, and puts a placeholder in the entry,
    which nothing reads before line 298 overwrites it. *)
Fixpoint spawn (e : env) (keys : list string) (poldic : targets)
  : result (targets * list (string * (string * string))) :=
  match keys with
  | [] => Ok (poldic, [])
  | t :: keys' =>
    tgt <- subscript t poldic ;;
    count <- subscript "COUNT" tgt ;;
    fqdn <- subscript "FQDN" tgt ;;
    pid <- popen e [PING; "-qc"; count; fqdn] ;;
    '(poldic', pids) <- spawn e keys' (dict_set t (dict_update tgt [("PID", "<Popen>")]) poldic) ;;
    Ok (poldic', (t, pid) :: pids)
  end.

(** Third loop: the outputs are parsed in the order of the sorted keys. *)
Fixpoint collect (e : env) (pids : list (string * (string * string)))
    (cfgdic poldic : targets) : result (targets * targets) :=
  match pids with
  | [] => Ok (cfgdic, poldic)
  | (t, (output, errors)) :: pids' =>
    poldic <- parse_ping e poldic t output errors ;;
    ctgt <- subscript t cfgdic ;;
    let cfgdic := dict_set t (dict_set "LASTPOLL" (STR_DATETIME e) ctgt) cfgdic in
    ptgt <- subscript t poldic ;;
    let ptgt := dict_set "PID" "" ptgt in
    let poldic := dict_set t (dict_del "UPTIME" ptgt) poldic in
    ctgt <- subscript t cfgdic ;;
    _ <- subscript "LASTFAIL" ctgt ;;                         (* line 306 *)
    collect e pids' cfgdic poldic
  end.

Definition ping_hosts (e : env) (cfgdic poldic : targets)
  : result (targets * targets) :=
  '(poldic, pids) <- spawn e (sorted_keys poldic) poldic ;;
  collect e pids cfgdic poldic.

(* ------------------------------------------------------------------ *)
(** ** main (lines 82-146) *)

Definition with_slash (dir : string) : string :=
  if search_at_end 0 "/" dir then dir else dir ++ "/".

(** Lines 100-102: the configuration file name given on the command
    line, corrected. *)
Definition config_name (a : args) : string :=
  if search_at_end 1 "json" (cfgfile a) then cfgfile a else cfgfile a ++ ".json".

(** Lines 104-110: the paths of the configuration file and of the
    database file. *)
Definition config_path (a : args) : string :=
  let dir := with_slash (datadir a) in
  if String.eqb dir "" then config_name a else dir ++ config_name a.

Definition database_path (a : args) : string :=
  let dir := with_slash (datadir a) in
  let dbfile := replace "json" "rrd" (config_name a) in
  if String.eqb dir "" then dbfile else dir ++ dbfile.

(** The path [update_database] writes to (line 375). *)
Definition update_path (a : args) : string := replace "json" "rrd" (config_path a).

(** One run, up to the database update; [main] returns the poll data it
    hands to the two calls that follow, [gen_graphs] and
    [gen_html_index], which [report] models below. *)
Definition main (e : env) : M targets :=
  if comments (ARGS e) then raise SystemExit
  else
    let cfgpath := config_path (ARGS e) in
    '(cfg_dict, gfx_dict) <~ read_config e cfgpath ;;
    let pol_dict := cfg_dict in                               (* deepcopy *)
    verify_rrd e (database_path (ARGS e)) cfg_dict ;;;
    '(cfg_dict, pol_dict) <~ lift (ping_hosts e cfg_dict pol_dict) ;;
    cfg_dict <~ calc_uptime e cfg_dict ;;
    write_config cfgpath cfg_dict gfx_dict ;;;
    update_database e cfgpath pol_dict ;;;
    ret pol_dict.

End Program.

(* ------------------------------------------------------------------ *)
(** ** The report: graphs and pages (lines 141-143 and 397-640) *)

Definition GRAPH_WIDTH : string := "398".
Definition GRAPH_HEIGHT : string := "246".

(** The two characters of the page texts that a literal here does not
    hold, and an attribute value between double quotes. *)
Definition tab : string := String (ascii_of_nat 9) "".
Definition dq : string := String (ascii_of_nat 34) "".
Definition quoted (s : string) : string := dq ++ s ++ dq.

(** What the platform contributes to the report: the date and time
    representation of the C locale, [strftime("%c")], and the clock
    read in UTC. *)
Class Platform : Type := {
  strftime_c : datetime -> string;
  utcnow : nat -> datetime            (* n-th call of datetime.now(), in UTC *)
}.

(** [dt + timedelta(minutes=1)] *)
Definition plus_minute (d : datetime) : result datetime :=
  let us := dt_us d + 60 * 1000000 in
  match bool_dec ((0 <=? us) && (us <? max_us)) true with
  | left pf => Ok (mk_datetime us pf)
  | right _ => Raise OverflowError
  end.

(** While the graphs are drawn, an entry of the poll data holds texts
    and the child processes stored under the names of the intervals
    (line 472); a process is what it will have written. *)
Inductive cell : Type :=
| Text (s : string)
| Process (out err : string).

Definition polling := dict (dict cell).

(** The poll data as [update_database] leaves it: texts only. *)
Definition texts (d : targets) : polling :=
  map (fun kv => (fst kv, map (fun ns => (fst ns, Text (snd ns))) (snd kv))) d.

(** The report raises two exceptions that the poll does not. *)
Inductive fault : Type :=
| Raised (e : exn)
| TypeError
| AttributeError.

Inductive outcome (A : Type) : Type :=
| Done (a : A)
| Fault (f : fault).
Arguments Done {A} a.
Arguments Fault {A} f.

(** [str + value] and [value.wait()], [value.communicate()] *)
Definition as_text (c : cell) : outcome string :=
  match c with
  | Text s => Done s
  | Process _ _ => Fault TypeError
  end.

Definition as_process (c : cell) : outcome (string * string) :=
  match c with
  | Process out err => Done (out, err)
  | Text _ => Fault AttributeError
  end.

Definition is_done {A : Type} (o : outcome A) : bool :=
  match o with
  | Done _ => true
  | Fault _ => false
  end.

Section Report.
Context {U : Unicode} {P : Platform}.

(** What the report does to the outside: it reads the clock, starts
    graph commands and closes the files it has written. *)
Record site : Type := {
  clock : nat;                        (* calls of datetime.now() so far *)
  spawned : list (list string);       (* graph commands started, latest first *)
  written : list (string * string)    (* files closed, path and text, latest first *)
}.

Definition G (A : Type) : Type := site -> site * outcome A.

Definition pure {A : Type} (a : A) : G A := fun s => (s, Done a).
Definition of_outcome {A : Type} (o : outcome A) : G A := fun s => (s, o).
Definition of_result {A : Type} (r : result A) : G A :=
  fun s => (s, match r with
               | Ok a => Done a
               | Raise x => Fault (Raised x)
               end).
Definition gbind {A B : Type} (m : G A) (f : A -> G B) : G B :=
  fun s => match m s with
           | (s', Done a) => f a s'
           | (s', Fault x) => (s', Fault x)
           end.

Notation "x <~ c1 ;; c2" := (gbind c1 (fun x => c2))
  (at level 61, c1 at next level, right associativity).
Notation "' pat <~ c1 ;; c2" := (gbind c1 (fun x => match x with pat => c2 end))
  (at level 61, pat pattern, c1 at next level, right associativity).
Notation "c1 ;;; c2" := (gbind c1 (fun _ => c2))
  (at level 61, right associativity).

(** [datetime.now()] and [datetime.now(timezone('UTC'))] *)
Definition local_time (e : env) : G datetime :=
  fun s => ({| clock := S (clock s); spawned := spawned s; written := written s |},
            Done (now e (clock s))).

Definition utc_time : G datetime :=
  fun s => ({| clock := S (clock s); spawned := spawned s; written := written s |},
            Done (utcnow (clock s))).

(** [subprocess.Popen(cmd, stdout=PIPE, stderr=PIPE)] *)
Definition start (e : env) (cmd : list string) : G (string * string) :=
  fun s => match popen e cmd with
           | Ok p => ({| clock := clock s; spawned := cmd :: spawned s;
                         written := written s |}, Done p)
           | Raise x => (s, Fault (Raised x))
           end.

(** [f = open(path, 'w')], the writes that make up [text], [f.close()] *)
Definition close (path text : string) : G unit :=
  fun s => ({| clock := clock s; spawned := spawned s;
               written := (path, text) :: written s |}, Done tt).

(** [for k in keys: body], the loop threading what the body changes. *)
Fixpoint for_each {S : Type} (keys : list string) (body : string -> S -> G S)
    (s : S) : G S :=
  match keys with
  | [] => pure s
  | k :: keys' => s' <~ body k s ;; for_each keys' body s'
  end.

(* ------------------------------------------------------------------ *)
(** ** build_graph_command (lines 397-456) *)

(** [ARGS.htmldir] and [ARGS.dbfile] as [main] left them (lines 95-110). *)
Definition html_dir (e : env) : string := with_slash (htmldir (ARGS e)).
Definition db_file (e : env) : string := database_path (ARGS e).

Definition graph_file (e : env) (target intdur : string) : string :=
  html_dir e ++ target ++ intdur ++ ".png".

Definition build_graph_command (e : env) (poldic : polling) (gfxdic : gfxdefs)
    (target intdur : string) : G (polling * list string) :=
  t <~ local_time e ;;
  let str_date := strftime_c t in
  tgt <~ of_result (subscript target poldic) ;;
  let poldic :=
    dict_set target
      (dict_set ("graph-" ++ intdur) (Text (graph_file e target intdur)) tgt)
      poldic in
  g <~ of_result (subscript intdur gfxdic) ;;
  duration <~ of_result (subscript "duration" g) ;;
  tgt <~ of_result (subscript target poldic) ;;
  fqdn <~ of_result (subscript "FQDN" tgt) ;;
  fqdn <~ of_outcome (as_text fqdn) ;;
  ip <~ of_result (subscript "IP" tgt) ;;
  ip <~ of_outcome (as_text ip) ;;
  xgrid <~ of_result (subscript "xgrid" g) ;;
  rra <~ of_result (subscript "rra" g) ;;
  step <~ of_result (subscript "step" g) ;;
  pure (poldic,
        [RRDTOOL;
         "graph";
         graph_file e target intdur;
         "-w" ++ GRAPH_WIDTH ++ " -h" ++ GRAPH_HEIGHT;
         "-a" ++ "PNG";
         "--start";
         "-" ++ duration;
         "--end";
         "now";
         "--font";
         "DEFAULT:7:";
         "--title";
         "Multi Host Availability Grapher - " ++ target ++ " (" ++ intdur ++ ")";
         "--watermark";
         str_date ++ " - " ++ fqdn ++ " [" ++ ip ++ "]";
         "--vertical-label";
         "Round Trip Time latency(ms)";
         "--right-axis-label";
         "Availability (%)";
         "--lower-limit";
         "0";
         "--right-axis";
         "1:0";
         "--x-grid";
         xgrid ++ ":0:%R";
         "--alt-y-grid";
         "--rigid";
         "DEF:" ++ target ++ "AVRTT=" ++ db_file e ++ ":" ++ target ++ "-AVRTT:"
           ++ rra ++ ":step=" ++ step;
         "DEF:" ++ target ++ "AVAIL=" ++ db_file e ++ ":" ++ target ++ "-AVAIL:"
           ++ rra ++ ":step=" ++ step;
         "CDEF:AVAIL1=" ++ target ++ "AVAIL,0,20,LIMIT,UN,UNKN,INF,IF";
         "CDEF:AVAIL2=" ++ target ++ "AVAIL,21,40,LIMIT,UN,UNKN,INF,IF";
         "CDEF:AVAIL3=" ++ target ++ "AVAIL,39,79,LIMIT,UN,UNKN,INF,IF";
         "CDEF:AVAIL4=" ++ target ++ "AVAIL,80,99,LIMIT,UN,UNKN,INF,IF";
         "CDEF:AVAIL5=" ++ target ++ "AVAIL,100,100,LIMIT,UN,UNKN,INF,IF";
         "COMMENT:Availability\:";
         "AREA:AVAIL1#FF0000:0-20%";
         "AREA:AVAIL2#FFFF00:21-40%";
         "AREA:AVAIL3#FF8000:39-79%";
         "AREA:AVAIL4#00FFFF:80-99%";
         "AREA:AVAIL5#00FF00:100%";
         "LINE1:" ++ target ++ "AVRTT#0000ff:RTT latency ms";
         "GPRINT:" ++ target ++ "AVRTT:LAST:Current RTT\: %5.2lf ms";
         "GPRINT:" ++ target ++ "AVRTT:AVERAGE:Avg RTT\: %5.2lf ms";
         "GPRINT:" ++ target ++ "AVRTT:MAX:Max RTT\: %5.2lf ms";
         "GPRINT:" ++ target ++ "AVRTT:MIN:Min RTT\: %5.2lf ms"]).

(* ------------------------------------------------------------------ *)
(** ** gen_graphs (lines 459-495) *)

(** The two nested loops that each of the four passes runs: the targets
    in the order of their names, the intervals in the order of their
    steps. *)
Definition every_graph (names : list string)
    (body : string -> string -> polling -> G polling) (poldic : polling)
  : G polling :=
  for_each (sorted_keys poldic) (fun target => for_each names (body target)) poldic.

Definition spawn_graph (e : env) (gfxdic : gfxdefs) (target intvldur : string)
    (poldic : polling) : G polling :=
  ' (poldic, cmd) <~ build_graph_command e poldic gfxdic target intvldur ;;
  ' (out, err) <~ start e cmd ;;
  tgt <~ of_result (subscript target poldic) ;;
  pure (dict_set target (dict_set intvldur (Process out err) tgt) poldic).

Definition wait_graph (target intvldur : string) (poldic : polling) : G polling :=
  tgt <~ of_result (subscript target poldic) ;;
  pid <~ of_result (subscript intvldur tgt) ;;
  _ <~ of_outcome (as_process pid) ;;
  pure poldic.

Definition read_graph (target intvldur : string) (poldic : polling) : G polling :=
  tgt <~ of_result (subscript target poldic) ;;
  pid <~ of_result (subscript intvldur tgt) ;;
  ' (out, err) <~ of_outcome (as_process pid) ;;
  _ <~ of_result (decode out) ;;                              (* line 486 *)
  _ <~ of_result (decode err) ;;                              (* line 488 *)
  pure poldic.

Definition clear_graph (target intvldur : string) (poldic : polling) : G polling :=
  tgt <~ of_result (subscript target poldic) ;;
  _ <~ of_result (subscript intvldur tgt) ;;
  pure (dict_set target (dict_del intvldur tgt) poldic).

Definition gen_graphs (e : env) (poldic : polling) (gfxdic : gfxdefs) : G polling :=
  sorted <~ of_result (gfxprm_sort gfxdic) ;;
  let names := map fst sorted in
  poldic <~ every_graph names (spawn_graph e gfxdic) poldic ;;
  poldic <~ every_graph names wait_graph poldic ;;
  poldic <~ every_graph names read_graph poldic ;;
  every_graph names clear_graph poldic.

(* ------------------------------------------------------------------ *)
(** ** inline_style (lines 583-640) *)

Definition inline_style : string :=
  nl ++ tab ++ tab ++ "                <style type=" ++ quoted "text/css" ++ ">" ++ nl
  ++ "                        body {
                                background-color: #ffffff;
                        }
                        div {
                                border-bottom: 2px solid #aaa;
                                padding-bottom: 10px;
                                margin-bottom: 5px;
                        }
                        div h2 {
                                font-size: 1.2em;
                        }
                        div.graph img {
                                margin: 5px 0;
                        }
                        div.graph table, div#legend table {
                                font-size: .8em;
                        }
                        div.graph table td {
                                padding: 0 10px;
                                text-align: right;
                        }
                        div table .in th, div table td span.in {
                                color: #00cc00;
                        }
                        div table .out th, div table td span.out {
                                color: #0000ff;
                        }
                        div#legend th {
                                text-align: right;
                        }
                        div#footer {
                                border: none;
                                font-size: .8em;
                                font-family: Arial, Helvetica, sans-serif;
                                width: 476px;
                        }
                        div#footer img {
                                border: none;
                                height: 25px;
                        }
                        div#footer address {
                                text-align: right;
                        }
                        div#footer #version {
                                margin: 0;
                                padding: 0;
                                float: left;
                                width: 88px;
                                text-align: right;
                        }
                </style>
".

(* ------------------------------------------------------------------ *)
(** ** gen_html_index (lines 498-580) *)

(** [one_min_from_now.strftime("%c %Z")] *)
Definition expires (one_min_from_now : datetime) : string :=
  strftime_c one_min_from_now ++ " UTC".

Definition meta (name content : string) : string :=
  tab ++ tab ++ "<meta http-equiv=" ++ quoted name ++ " content=" ++ quoted content
    ++ ">".

Definition license_link : string :=
  tab ++ "<div align=" ++ quoted "right" ++ ">"
  ++ "<a href=" ++ quoted "https://github.com/jullrey/MHAG/blob/master/LICENSE"
  ++ " target=" ++ quoted "MHAG License" ++ ">"
  ++ "<i>MHAG License</i></a>"
  ++ "</div>" ++ nl.

(** Lines 502-524: the index page down to the opening of its table. *)
Definition index_top (stamp : string) : string :=
  "<!DOCTYPE html>" ++ nl
  ++ "<html>" ++ nl
  ++ tab ++ "<head>" ++ nl
  ++ tab ++ tab ++ "<title>Multi Host Availability Grapher</title>" ++ nl
  ++ meta "refresh" "60" ++ nl
  ++ meta "cache-Control" "no-cache" ++ nl
  ++ meta "pragma" "no-cache" ++ nl
  ++ meta "expires" stamp ++ nl
  ++ meta "generator" ("MHAG " ++ VER) ++ nl
  ++ meta "date" stamp ++ nl
  ++ meta "content-type" "text/html; charset=iso-8859-15"
  ++ tab ++ tab ++ "<style type=" ++ quoted "text/css" ++ ">" ++ nl
  ++ tab ++ tab ++ "</style>" ++ nl
  ++ tab ++ "</head>" ++ nl
  ++ "<body>" ++ nl
  ++ "<h1>Multi Host Availability Grapher</h1>" ++ nl
  ++ "<table border=0 cellpadding=0 cellspacing=10>" ++ nl.

(** Lines 530-533: the row of one target, with its first graph. *)
Definition index_row (target : string) : string :=
  "<tr><td><div><b>" ++ target ++ "</b></div>"
  ++ "<div><a href=" ++ quoted (target ++ ".html") ++ "><img border=1 "
  ++ tab ++ tab ++ tab ++ "src=" ++ quoted (target ++ "1mx12h.png")
  ++ " title=" ++ quoted "1mx12h" ++ " " ++ tab ++ tab ++ tab
  ++ "alt=" ++ quoted "1mx12h" ++ "></a><br></div></td></tr>" ++ nl.

(** Lines 573-579. *)
Definition index_bottom : string :=
  "</table>" ++ nl
  ++ license_link
  ++ "</body>" ++ nl
  ++ "</html>" ++ nl.

(** Lines 559-563: one graph of the page of a target. *)
Definition graph_div (target intvldur : string) : string :=
  tab ++ tab ++ "<div class=" ++ quoted "graph" ++ ">"
  ++ tab ++ tab ++ tab ++ "<h2>" ++ target ++ " (" ++ intvldur ++ ")</h2>" ++ nl
  ++ "<img src=" ++ quoted (target ++ intvldur ++ ".png") ++ " "
  ++ tab ++ tab ++ tab ++ tab ++ "title=" ++ quoted intvldur
  ++ " alt=" ++ quoted intvldur ++ ">" ++ nl
  ++ tab ++ tab ++ "</div>" ++ nl.

(** Lines 536-570: the page of a target, a graph for each interval. *)
Definition target_page (stamp target : string) (names : list string) : string :=
  "<!DOCTYPE html>" ++ nl
  ++ "<html>" ++ nl
  ++ tab ++ "<head>" ++ nl
  ++ tab ++ tab ++ "<title>Multi Host Availability Grapher - " ++ target
  ++ "</title>" ++ nl
  ++ meta "refresh" "60" ++ nl
  ++ meta "cache-control" "no-cache" ++ nl
  ++ meta "pragma" "no-cache" ++ nl
  ++ meta "expires" stamp ++ nl
  ++ meta "generator" ("MHAG " ++ VER) ++ nl
  ++ meta "date" stamp ++ nl
  ++ meta "content-type" "text/html; charset=iso-8859-15"
  ++ inline_style
  ++ tab ++ "</head>" ++ nl
  ++ tab ++ "<body>" ++ nl
  ++ tab ++ tab ++ "<h1>Multi Host Availability Grapher - " ++ target ++ "</h1>" ++ nl
  ++ String.concat "" (map (graph_div target) names)
  ++ license_link
  ++ tab ++ "</body>" ++ nl
  ++ "</html>" ++ nl.

Definition page_path (e : env) (name : string) : string :=
  html_dir e ++ "/" ++ name ++ ".html".

Definition gen_html_index (e : env) (poldic : polling) (gfxdic : gfxdefs) : G unit :=
  t <~ utc_time ;;
  one_min_from_now <~ of_result (plus_minute t) ;;
  let stamp := expires one_min_from_now in
  let idx := index_top stamp in
  sorted <~ of_result (gfxprm_sort gfxdic) ;;
  idx <~ for_each (sorted_keys poldic)
           (fun target idx =>
              let idx := idx ++ index_row target in
              close (page_path e target) (target_page stamp target (map fst sorted)) ;;;
              pure idx)
           idx ;;
  close (html_dir e ++ "/" ++ "mhag.html") (idx ++ index_bottom).

(* ------------------------------------------------------------------ *)
(** ** The end of main (lines 141-143) *)

Definition report (e : env) (pol_dict : targets) (gfx_dict : gfxdefs) : G polling :=
  poldic <~ gen_graphs e (texts pol_dict) gfx_dict ;;
  gen_html_index e poldic gfx_dict ;;;
  pure poldic.

End Report.

(* ------------------------------------------------------------------ *)
(** ** What the claims speak about *)

(** A field of one target's entry. *)
Definition field (d : targets) (key name : string) : option string :=
  match dict_get key d with
  | Some tgt => dict_get name tgt
  | None => None
  end.

Definition field_of (r : result targets) (key name : string) : option string :=
  match r with
  | Ok d => field d key name
  | Raise _ => None
  end.

Section Readings.
Context {U : Unicode}.

(** The probe's text shows the header the parser looks for (line 326). *)
Definition has_header (out : string) : bool :=
  match utf8_decode out with
  | Some outs => contains (u "PING") outs
  | None => false
  end.

(** The matches [findall] returns on the probe's text, and [match[i][j]]. *)
Definition matches (out : string) : list (list (list codepoint)) :=
  match utf8_decode out with
  | Some outs => findall tokens_re tokens_groups outs
  | None => []
  end.

Definition matched (out : string) (i j : nat) : result (list codepoint) :=
  item2 (matches out) i j.

(** The loss percentage the parser reads (line 351). *)
Definition loss_percent (out : string) : result Z :=
  loss <- matched out 4 5 ;; py_int loss.

(** The entry of a target once the counts of lines 349-351 are stored. *)
Definition with_counts (tgt : sample) (ip tx rx : list codepoint) (n : Z) : sample :=
  dict_update
    (dict_update tgt [("IP", encode ip); ("TX", encode tx); ("RX", encode rx)])
    [("AVAIL", str_of_Z (100 - n))].



End Readings.

(** The targets a configuration file holds, as [json.load] reads them. *)
Definition persisted `{Library} (fs : dict text) (path : string) : option targets :=
  match dict_get path fs with
  | Some t => match json_load t with
              | Ok (c, _) => Some c
              | Raise _ => None
              end
  | None => None
  end.

(** The uptime text in the words of the specification, for a float [T]
    of elapsed seconds: 12-hour blocks, hours within the block, minutes
    and seconds, a unit left out when its value is zero, and a final
    period. *)
Definition unit_spec (n : Z) (label : string) : string :=
  if n =? 0 then "" else str_of_Z n ++ label.

Definition uptime_spec (hms : string) (T : Z) : string :=
  let whole := T / funit in
  let secs := T mod (60 * funit) in
  hms ++ " UP (since last ping fail) for "
    ++ unit_spec (whole / 43200) " days, "
    ++ unit_spec ((whole / 3600) mod 12) " hours, "
    ++ unit_spec ((whole / 60) mod 60) " minutes, "
    ++ (if secs =? 0 then ""
        else str_of_Z (round_half_even secs funit) ++ " seconds")
    ++ ".".

(* ------------------------------------------------------------------ *)
(** ** What the properties of the run and of the report speak about *)

(** [old in s] *)
Fixpoint occurs (old s : string) : bool :=
  prefix old s
  || match s with
     | EmptyString => false
     | String _ s' => occurs old s'
     end.

(** The text [part] stands somewhere in [page]. *)
Definition within (page part : string) : Prop :=
  exists before after, page = before ++ part ++ after.

(** The fields that [parse_ping] stores. *)
Definition parsed_fields : list string :=
  ["IP"; "TX"; "RX"; "AVAIL"; "LASTFAIL"; "MINRTT"; "AVGRTT"; "MAXRTT"; "MDEV"].

(** The data sources named by the template of the update command, and
    the readings that go with them, target by target. *)
Definition update_names (poldic : targets) : list string :=
  flat_map (fun t => [t ++ "-AVRTT"; t ++ "-AVAIL"]) (sorted_keys poldic).

Definition update_values (poldic : targets) : list (option string) :=
  flat_map (fun t => [field poldic t "AVGRTT"; field poldic t "AVAIL"])
    (sorted_keys poldic).

(** The file that a graph command draws: its third word. *)
Definition drawn (cmd : list string) : string := nth 2 cmd "".

(** The turns of a pass of [gen_graphs]: every interval for a target,
    target after target. *)
Definition pairs (targets names : list string) : list (string * string) :=
  flat_map (fun t => map (pair t) names) targets.

Definition is_text (c : cell) : Prop :=
  match c with
  | Text _ => True
  | Process _ _ => False
  end.

(** The poll data with the texts taken out of their cells. *)
Definition cell_text (c : cell) : string :=
  match c with
  | Text s => s
  | Process out _ => out
  end.

Definition untext (d : polling) : targets :=
  map (fun kv => (fst kv, map (fun nc => (fst nc, cell_text (snd nc))) (snd kv))) d.

(** An entry that has one cell for each of its keys, and in which a
    process stands under the name of an interval only; the poll data in
    which every entry is so. *)
Definition tidy (names : list string) (tgt : dict cell) : Prop :=
  NoDup (map fst tgt)
  /\ Forall (fun nc => is_text (snd nc) \/ In (fst nc) names) tgt.

Definition all_tidy (names : list string) (pol : polling) : Prop :=
  Forall (fun kv => tidy names (snd kv)) pol.

(** A cell of the entry of a target. *)
Definition cell_of (d : polling) (key name : string) : option cell :=
  match dict_get key d with
  | Some tgt => dict_get name tgt
  | None => None
  end.

(** The name of a cell that gen_graphs writes or deletes: that of an
    interval, or the key of the path of its graph. *)
Definition graph_key (names : list string) (name : string) : Prop :=
  In name names \/ exists i, In i names /\ name = "graph-" ++ i.

(* ------------------------------------------------------------------ *)
(** ** A concrete interpreter for the examples

    ASCII-only Unicode tables, a calendar parser for the canonical
    26-character timestamps that [str(datetime.now())] prints, and a
    codec whose texts are the values themselves. *)

Definition ascii_tables : Unicode :=
  {| uni_isspace := fun _ => false;
     uni_isalnum := fun _ => false;
     uni_decimal := fun _ => None |}.

Definition datetime_of_us (us : Z) : result datetime :=
  match bool_dec ((0 <=? us) && (us <? max_us)) true with
  | left pf => Ok (mk_datetime us pf)
  | right _ => Raise ValueError
  end.

Definition is_leap (y : Z) : bool :=
  (y mod 4 =? 0) && (negb (y mod 100 =? 0) || (y mod 400 =? 0)).

Definition days_before_year (y : Z) : Z :=
  let p := y - 1 in p * 365 + p / 4 - p / 100 + p / 400.

Definition days_in_month (y m : Z) : Z :=
  if m =? 2 then (if is_leap y then 29 else 28)
  else if (m =? 4) || (m =? 6) || (m =? 9) || (m =? 11) then 30 else 31.

Fixpoint days_before_month (y : Z) (m : nat) : Z :=
  match m with
  | O => 0
  | S k => match k with
           | O => 0
           | S _ => days_before_month y k + days_in_month y (Z.of_nat k)
           end
  end.

(** The number written by the [len] ASCII digits of [s] from [pos] on. *)
Definition digits_at (s : string) (pos len : nat) : option Z :=
  let t := byte_values (substring pos len s) in
  if Nat.eqb (List.length t) len && forallb (fun c => (48 <=? c) && (c <=? 57))%N t
  then Some (fold_left (fun acc c => 10 * acc + (Z.of_N c - 48)) t 0)
  else None.

Definition canonical_strptime (s : string) : result datetime :=
  match digits_at s 0 4, digits_at s 5 2, digits_at s 8 2,
        digits_at s 11 2, digits_at s 14 2, digits_at s 17 2, digits_at s 20 6 with
  | Some y, Some m, Some d, Some hh, Some mm, Some ss, Some us =>
    if Nat.eqb (String.length s) 26
       && String.eqb (substring 4 1 s) "-" && String.eqb (substring 7 1 s) "-"
       && String.eqb (substring 10 1 s) " " && String.eqb (substring 13 1 s) ":"
       && String.eqb (substring 16 1 s) ":" && String.eqb (substring 19 1 s) "."
       && (1 <=? y) && (1 <=? m) && (m <=? 12) && (1 <=? d)
       && (d <=? days_in_month y m) && (hh <? 24) && (mm <? 60) && (ss <? 60)
    then datetime_of_us
           ((((days_before_year y + days_before_month y (Z.to_nat m) + (d - 1)) * 24
               + hh) * 60 + mm) * 60 * 1000000 + ss * 1000000 + us)
    else Raise ValueError
  | _, _, _, _, _, _, _ => Raise ValueError
  end.

Definition value_codec : Library :=
  {| strptime := canonical_strptime;
     text := config;
     json_dumps := fun c => c;
     json_load := fun t => Ok t |}.

(** Probe outputs: a reply with no loss (the scenario of the
    specification), a reply with every packet lost, and the reply for a
    target configured by address. *)
Definition ping_success : string :=
  "PING one.one.one.one (1.1.1.1) 56(84) bytes of data." ++ nl ++ nl
  ++ "--- one.one.one.one ping statistics ---" ++ nl
  ++ "3 packets transmitted, 3 received, 0% packet loss, time 2003ms" ++ nl
  ++ "rtt min/avg/max/mdev = 10.1/12.3/15.0/1.2 ms" ++ nl.

Definition ping_all_lost : string :=
  "PING one.one.one.one (1.1.1.1) 56(84) bytes of data." ++ nl ++ nl
  ++ "--- one.one.one.one ping statistics ---" ++ nl
  ++ "5 packets transmitted, 0 received, 100% packet loss, time 4093ms"
  ++ nl ++ nl.

Definition ping_by_address : string :=
  "PING 8.8.8.8 (8.8.8.8) 56(84) bytes of data." ++ nl ++ nl
  ++ "--- 8.8.8.8 ping statistics ---" ++ nl
  ++ "3 packets transmitted, 3 received, 0% packet loss, time 2003ms" ++ nl
  ++ "rtt min/avg/max/mdev = 10.1/12.3/15.0/1.2 ms" ++ nl.

(** A run with the default command line, loaded at the time [epoch],
    printed [stamp], whose clock reads [t] and whose probes all print
    [out] and [err]. *)
Definition run_env_at (epoch stamp : string) (t : datetime) (out err : string)
  : env :=
  {| ARGS := {| comments := false; cfgfile := "mhag.json";
                datadir := "/var/mhag"; htmldir := "/var/www" |};
     STR_EPOCTIME := epoch;
     STR_DATETIME := stamp;
     now := fun _ => t;
     popen := fun _ => Ok (out, err);
     check_output := fun _ => Some "" |}.

(** The run loaded at 10:00:00.000001 on 2019-01-21. *)
Definition run_env : datetime -> string -> string -> env :=
  run_env_at "1548064800" "2019-01-21 10:00:00.000001".

(** The run loaded a minute later. *)
Definition next_run_env : datetime -> string -> string -> env :=
  run_env_at "1548064860" "2019-01-21 10:01:00.000001".

Definition started : datetime := mk_datetime 63683661600000001 eq_refl.
Definition five_seconds_later : datetime := mk_datetime 63683661605000001 eq_refl.
Definition a_minute_later : datetime := mk_datetime 63683661665000001 eq_refl.

(** A store read from the configuration of an earlier run, the message
    of a resolver failure, and the same kind of message from a system
    whose locale is Latin-1 (the bytes 0xC9 and 0xE9 are no UTF-8). *)
Definition known_targets : targets :=
  [("Cloudflare", [("FQDN", "one.one.one.one"); ("COUNT", "5");
                   ("LASTFAIL", "2019-01-20 08:00:00.000001")])].

Definition resolver_error : string :=
  "ping: unknown host one.one.one.one" ++ nl.

Definition latin1_error : string :=
  "ping: one.one.one.one: " ++ String (chr 201) "chec temporaire dans la r"
  ++ String (chr 233) "solution du nom" ++ nl.

Definition probe_env : env := run_env started "" "".

Definition empty_world `{Library} : world :=
  {| files := []; ticks := 0; issued := [] |}.

Definition args_named_myjson : args :=
  {| comments := false; cfgfile := "myjson.json";
     datadir := "/var/mhag"; htmldir := "/var/www" |}.

Definition args_in_json_directory : args :=
  {| comments := false; cfgfile := "mhag.json";
     datadir := "/srv/json"; htmldir := "/var/www" |}.

(** Two runs in a row on a fresh data directory, five seconds and a
    little more than a minute after the start, every probe printing the
    same reply. *)
Definition first_run : world * result targets :=
  @main ascii_tables value_codec (run_env five_seconds_later ping_success "")
    empty_world.

Definition second_run : world * result targets :=
  @main ascii_tables value_codec (next_run_env a_minute_later ping_success "")
    (fst first_run).

(* ------------------------------------------------------------------ *)
(** ** More of the same, for the rest of the run and for the report *)

(** The date and time representation of the C locale, as the C library
    prints it: the day of the week, the month, the day, the time and
    the year. *)
Definition weekday_names : list string :=
  ["Mon"; "Tue"; "Wed"; "Thu"; "Fri"; "Sat"; "Sun"].

Definition month_names : list string :=
  ["Jan"; "Feb"; "Mar"; "Apr"; "May"; "Jun";
   "Jul"; "Aug"; "Sep"; "Oct"; "Nov"; "Dec"].

(** The year, the month and the day of the day numbered [days] from
    0001-01-01. *)
Definition civil (days : Z) : Z * Z * Z :=
  let z := days + 306 in
  let era := z / 146097 in
  let doe := z mod 146097 in
  let yoe := (doe - doe / 1460 + doe / 36524 - doe / 146096) / 365 in
  let doy := doe - (365 * yoe + yoe / 4 - yoe / 100) in
  let mp := (5 * doy + 2) / 153 in
  let d := doy - (153 * mp + 2) / 5 + 1 in
  let m := if mp <? 10 then mp + 3 else mp - 9 in
  let y := yoe + era * 400 + (if m <=? 2 then 1 else 0) in
  (y, m, d).

Definition c_date (d : datetime) : string :=
  let days := dt_us d / 86400000000 in
  let '(y, m, dd) := civil days in
  nth (Z.to_nat (days mod 7)) weekday_names "" ++ " "
  ++ nth (Z.to_nat (m - 1)) month_names "" ++ " "
  ++ (if dd <? 10 then " " else "") ++ str_of_Z dd ++ " "
  ++ strftime_HMS d ++ " " ++ str_of_Z y.

(** A platform an hour east of Greenwich: when the run starts it is
    09:00:00.000001 in UTC. *)
Definition started_utc : datetime := mk_datetime 63683658000000001 eq_refl.

Definition c_locale : Platform :=
  {| strftime_c := c_date; utcnow := fun _ => started_utc |}.

(** A reply with two packets of five lost, and a reply cut after its
    first line. *)
Definition ping_partial : string :=
  "PING one.one.one.one (1.1.1.1) 56(84) bytes of data." ++ nl ++ nl
  ++ "--- one.one.one.one ping statistics ---" ++ nl
  ++ "5 packets transmitted, 3 received, 40% packet loss, time 4006ms" ++ nl
  ++ "rtt min/avg/max/mdev = 10.1/12.3/15.0/1.2 ms" ++ nl.

Definition ping_first_line : string :=
  "PING one.one.one.one (1.1.1.1) 56(84) bytes of data." ++ nl.

(** Two targets read from a configuration, one added by hand without
    its LASTFAIL, and the poll data of two targets once their replies
    are parsed. *)
Definition two_targets : targets :=
  [("Cloudflare", [("FQDN", "one.one.one.one"); ("COUNT", "5");
                   ("LASTFAIL", "2019-01-20 08:00:00.000001")]);
   ("Google", [("FQDN", "google-public-dns-a.google.com"); ("COUNT", "5");
               ("LASTFAIL", "2019-01-20 08:00:00.000001")])].

Definition targets_with_a_new_one : targets :=
  [("Cloudflare", [("FQDN", "one.one.one.one"); ("COUNT", "5");
                   ("LASTFAIL", "2019-01-20 08:00:00.000001")]);
   ("Quad9", [("FQDN", "dns.quad9.net"); ("COUNT", "5")])].

Definition polled : targets :=
  [("Cloudflare", [("FQDN", "one.one.one.one"); ("COUNT", "5");
                   ("LASTFAIL", "2019-01-20 08:00:00.000001"); ("PID", "");
                   ("IP", "1.1.1.1"); ("TX", "5"); ("RX", "5"); ("AVAIL", "100");
                   ("MINRTT", "10"); ("AVGRTT", "12"); ("MAXRTT", "15");
                   ("MDEV", "1")]);
   ("Google", [("FQDN", "google-public-dns-a.google.com"); ("COUNT", "5");
               ("LASTFAIL", "2019-01-21 10:00:00.000001"); ("PID", "");
               ("IP", "UNKNOWN"); ("TX", "UNKNOWN"); ("RX", "UNKNOWN");
               ("AVAIL", "0"); ("MINRTT", "UNKNOWN"); ("AVGRTT", "UNKNOWN");
               ("MAXRTT", "UNKNOWN"); ("MDEV", "UNKNOWN")])].

Definition args_named_myjson_only : args :=
  {| comments := false; cfgfile := "myjson";
     datadir := "/var/mhag"; htmldir := "/var/www" |}.

(** Half a day, and a little less than a minute, after the start. *)
Definition half_a_day_later : datetime := mk_datetime 63683704800000001 eq_refl.
Definition almost_a_minute_later : datetime := mk_datetime 63683661659700001 eq_refl.

(** A data directory that holds the configuration of an earlier run, and
    a site on which nothing has been done. *)
Definition stored_world : @world value_codec :=
  {| files := [("/var/mhag/mhag.json",
                (two_targets, default_gfx) : @text value_codec)];
     ticks := 0; issued := [] |}.

Definition fresh_site : site := {| clock := 0; spawned := []; written := [] |}.

(** A data directory whose configuration holds the target added by
    hand. *)
Definition world_with_a_new_target : @world value_codec :=
  {| files := [("/var/mhag/mhag.json",
                (targets_with_a_new_one, default_gfx) : @text value_codec)];
     ticks := 0; issued := [] |}.

(** Graph definitions with an interval named after a field of the poll
    data, and with one named after the key of the graph of another. *)
Definition interval_of_step (step : string) : dict string :=
  [("rra", "LAST"); ("interval", "1m"); ("duration", "12h"); ("step", step);
   ("xgrid", "MINUTE:5:MINUTE:15:HOUR:2")].

Definition gfx_named_after_a_field : gfxdefs :=
  [("FQDN", interval_of_step "60"); ("5mx24h", interval_of_step "300")].

Definition gfx_named_after_a_graph_key : gfxdefs :=
  [("graph-5mx24h", interval_of_step "60"); ("5mx24h", interval_of_step "300")].

(** The order of two keyed items. *)
Definition key_le {A : Type} (a b : Z * A) : Prop := fst a <= fst b.


(* ================================================================== *)
(** * Properties *)

Lemma bind_ok {A B : Type} (r : result A) (f : A -> result B) (b : B) :
  bind r f = Ok b -> exists a, r = Ok a /\ f a = Ok b.
Proof. destruct r as [a|ex]; simpl; intros H; [eauto | discriminate]. Qed.

Ltac bind_inv H :=
  let a := fresh "v" in
  let Ha := fresh "Hv" in
  apply bind_ok in H; destruct H as (a & Ha & H).

(** ** Dictionaries *)

Lemma dict_get_set {V : Type} (k k' : string) (v : V) (d : dict V) :
  dict_get k' (dict_set k v d) = if String.eqb k k' then Some v else dict_get k' d.
Proof.
  induction d as [|[k0 v0] d IH]; simpl.
  - destruct (String.eqb k k'); reflexivity.
  - destruct (String.eqb k0 k) eqn:E0; simpl.
    + apply String.eqb_eq in E0; subst k0.
      destruct (String.eqb k k'); reflexivity.
    + rewrite IH. destruct (String.eqb k0 k') eqn:E1; [|reflexivity].
      apply String.eqb_eq in E1; subst k0. rewrite String.eqb_sym, E0. reflexivity.
Qed.

Lemma field_set (d : targets) (key name : string) (tgt : sample) :
  field (dict_set key tgt d) key name = dict_get name tgt.
Proof. unfold field. rewrite dict_get_set, String.eqb_refl. reflexivity. Qed.

Lemma field_get (d : targets) (key name : string) (tgt : sample) :
  dict_get key d = Some tgt -> field d key name = dict_get name tgt.
Proof. unfold field. intros ->. reflexivity. Qed.

Lemma subscript_ok {V : Type} (k : string) (d : dict V) (v : V) :
  subscript k d = Ok v -> dict_get k d = Some v.
Proof. unfold subscript. destruct (dict_get k d); intros H; inversion H; reflexivity. Qed.

(** Lookups through a chain of updates with literal keys. *)
Ltac dict_simpl :=
  unfold with_counts, unknown_fields;
  cbn [dict_update fold_left fst snd];
  repeat rewrite dict_get_set;
  repeat match goal with
         | |- context [String.eqb ?a ?b] =>
           let v := eval vm_compute in (String.eqb a b) in
           change (String.eqb a b) with v
         end;
  cbv iota.

(** Case analysis on which literal key an arbitrary [name] is. *)
Ltac by_name name :=
  repeat match goal with
         | |- context [String.eqb ?k name] =>
           destruct (String.eqb_spec k name) as [<-|?];
           [ try congruence; try reflexivity | ]
         end.

(** ** Rounding *)


Lemma funit_pos : 0 < funit.
Proof. unfold funit. apply Z.pow_pos_nonneg; lia. Qed.

(** ** The matcher *)

Section MatcherFacts.
Context {U : Unicode}.

Lemma strip_prefix_app (p s s' : list codepoint) :
  strip_prefix p s = Some s' -> s = (p ++ s')%list.
Proof.
  revert s. induction p as [|x p IH]; intros s H; simpl in H.
  - inversion H. reflexivity.
  - destruct s as [|y s]; [discriminate|].
    destruct (N.eqb_spec x y) as [->|]; [|discriminate].
    simpl. f_equal. apply IH. exact H.
Qed.

Lemma plus_match_sound {A : Type} (p : codepoint -> bool) (s : list codepoint)
    (k : list codepoint -> option A) (a : A) :
  plus_match p s k = Some a ->
  exists w s', s = (w ++ s')%list /\ w <> []
               /\ Forall (fun x => p x = true) w /\ k s' = Some a.
Proof.
  revert a. induction s as [|c s IH]; intros a H; simpl in H; [discriminate|].
  destruct (p c) eqn:Ep; [|discriminate].
  destruct (plus_match p s k) as [a'|] eqn:E.
  - inversion H; subst a'.
    destruct (IH a eq_refl) as (w & s' & -> & _ & Hall & Hk).
    exists (c :: w), s'. repeat split; [discriminate | constructor; assumption | exact Hk].
  - exists [c], s. repeat split; [discriminate | constructor; [exact Ep | constructor] | exact H].
Qed.

Lemma firstn_consumed (w s' : list codepoint) :
  firstn (List.length (w ++ s') - List.length s') (w ++ s')%list = w.
Proof.
  rewrite length_app. replace (List.length w + List.length s' - List.length s')%nat
    with (List.length w + 0)%nat by lia.
  rewrite firstn_app_2. simpl. apply app_nil_r.
Qed.

Lemma rmatch_sound {A : Type} (r : regex) :
  forall (s : list codepoint) (cs : captures)
         (k : list codepoint -> captures -> option A) (a : A),
  rmatch r s cs k = Some a ->
  exists w s' cs',
    s = (w ++ s')%list /\ accepts r w /\ captured_in r cs cs' /\ k s' cs' = Some a.
Proof.
  induction r as [l|c|c|r1 IH1 r2 IH2|r1 IH1 r2 IH2|n r1 IH1];
    intros s cs k a H; simpl in H.
  - destruct (strip_prefix l s) as [s'|] eqn:E; [|discriminate].
    apply strip_prefix_app in E. exists l, s', cs.
    repeat split; [exact E | intros n t Hin; left; exact Hin | exact H].
  - destruct s as [|x s']; [discriminate|].
    destruct (in_cset c x) eqn:E; [|discriminate].
    exists [x], s', cs. repeat split; [exists x; split; [reflexivity | exact E]
                                      | intros n t Hin; left; exact Hin | exact H].
  - apply plus_match_sound in H. destruct H as (w & s' & -> & Hne & Hall & Hk).
    exists w, s', cs. repeat split; [exact Hne | exact Hall
                                     | intros n t Hin; left; exact Hin | exact Hk].
  - apply IH1 in H. destruct H as (w1 & s1 & cs1 & -> & Ha1 & Hc1 & H).
    apply IH2 in H. destruct H as (w2 & s2 & cs2 & -> & Ha2 & Hc2 & H).
    exists (w1 ++ w2)%list, s2, cs2. rewrite app_assoc.
    repeat split; [exists w1, w2; repeat split; assumption | | exact H].
    intros n t Hin. simpl. destruct (Hc2 n t Hin) as [Hin1|(b & Hb & Hab)].
    + destruct (Hc1 n t Hin1) as [Hin0|(b & Hb & Hab)]; [left; exact Hin0|].
      right. exists b. split; [apply in_or_app; left; exact Hb | exact Hab].
    + right. exists b. split; [apply in_or_app; right; exact Hb | exact Hab].
  - destruct (rmatch r1 s cs k) as [a'|] eqn:E.
    + inversion H; subst a'. apply IH1 in E.
      destruct E as (w & s' & cs' & -> & Ha & Hc & Hk).
      exists w, s', cs'. repeat split; [left; exact Ha | | exact Hk].
      intros n t Hin. simpl. destruct (Hc n t Hin) as [Hin0|(b & Hb & Hab)];
        [left; exact Hin0|].
      right. exists b. split; [apply in_or_app; left; exact Hb | exact Hab].
    + apply IH2 in H. destruct H as (w & s' & cs' & -> & Ha & Hc & Hk).
      exists w, s', cs'. repeat split; [right; exact Ha | | exact Hk].
      intros m t Hin. simpl. destruct (Hc m t Hin) as [Hin0|(b & Hb & Hab)];
        [left; exact Hin0|].
      right. exists b. split; [apply in_or_app; right; exact Hb | exact Hab].
  - apply IH1 in H. destruct H as (w & s' & cs' & -> & Ha & Hc & Hk).
    rewrite firstn_consumed in Hk.
    exists w, s', ((n, w) :: cs'). repeat split; [exact Ha | | exact Hk].
    intros m t [Hin|Hin]; simpl.
    + inversion Hin; subst. right. exists r1. rewrite Nat.eqb_refl.
      split; [left; reflexivity | exact Ha].
    + destruct (Hc m t Hin) as [Hin0|(b & Hb & Hab)]; [left; exact Hin0|].
      right. exists b. split; [|exact Hab].
      apply in_or_app. right. exact Hb.
Qed.

Lemma capture_In (g : nat) (cs : captures) :
  capture g cs = [] \/ In (g, capture g cs) cs.
Proof.
  induction cs as [|[n t] cs IH]; simpl; [left; reflexivity|].
  destruct (Nat.eqb_spec n g) as [->|]; [right; left; reflexivity|].
  destruct IH as [IH|IH]; [left; exact IH | right; right; exact IH].
Qed.

Lemma match_here_groups (r : regex) (n : nat) (s : list codepoint)
    (len : nat) (tuple : list (list codepoint)) :
  match_here r n s = Some (len, tuple) ->
  forall j t, nth_error tuple j = Some t -> group_text r (S j) t.
Proof.
  unfold match_here. intros H.
  apply rmatch_sound in H. destruct H as (w & s' & cs' & _ & _ & Hc & H).
  inversion H; subst. clear H. intros j t Hj.
  rewrite nth_error_map in Hj.
  destruct (nth_error (seq 1 n) j) as [g|] eqn:Eg; [|discriminate].
  simpl in Hj. inversion Hj; subst t.
  assert (g = S j).
  { pose proof (nth_error_Some (seq 1 n) j) as Hlen.
    assert (Hlt : (j < List.length (seq 1 n))%nat) by (apply Hlen; congruence).
    rewrite length_seq in Hlt.
    pose proof (@seq_nth n 1%nat j 0%nat Hlt) as Hn.
    apply (nth_error_nth _ _ 0%nat) in Eg. rewrite Hn in Eg. lia. }
  subst g. unfold group_text.
  destruct (capture_In (S j) cs') as [He|Hin]; [left; exact He|].
  right. destruct (Hc _ _ Hin) as [[]|Hb]. exact Hb.
Qed.

Lemma findall_groups (r : regex) (n : nat) (s : list codepoint) (skip : nat)
    (tuple : list (list codepoint)) :
  In tuple (findall_from r n s skip) ->
  forall j t, nth_error tuple j = Some t -> group_text r (S j) t.
Proof.
  revert skip. induction s as [|c s IH]; intros skip Hin; simpl in Hin;
    [contradiction|].
  destruct skip as [|k]; [|eapply IH; exact Hin].
  destruct (match_here r n (c :: s)) as [[len tu]|] eqn:E.
  - destruct Hin as [->|Hin]; [eapply match_here_groups; exact E | eapply IH; exact Hin].
  - eapply IH; exact Hin.
Qed.


Lemma is_digit_not_dot (c : codepoint) : is_digit c = true -> (c =? 46)%N = false.
Proof.
  intros H. destruct (N.eqb_spec c 46) as [->|]; [|reflexivity].
  discriminate H.
Qed.

Lemma split_dot_digits (a b : list codepoint) :
  Forall (fun x => is_digit x = true) a ->
  split_dot (a ++ 46%N :: b) = Some (a, b).
Proof.
  induction 1 as [|x a Hx Ha IH]; simpl; [reflexivity|].
  rewrite (is_digit_not_dot x Hx), IH. reflexivity.
Qed.

Lemma digits_value_digits (l : list codepoint) :
  Forall (fun x => is_digit x = true) l ->
  forall acc, exists n, digits_value l acc = Some n.
Proof.
  induction 1 as [|x l Hx Hl IH]; intros acc; simpl; [eauto|].
  unfold is_digit in Hx. destruct (digit_value x); [apply IH | discriminate].
Qed.

Lemma py_float_dotted (t : list codepoint) :
  accepts dotted t -> exists f, py_float t = Ok f.
Proof.
  simpl. intros (a & w & -> & [Ha Hda] & d & b & -> & -> & Hb & Hdb).
  unfold py_float. change (u ".") with [46%N]. simpl app.
  rewrite split_dot_digits by exact Hda.
  destruct a as [|a0 a]; [contradiction Ha; reflexivity|].
  destruct b as [|b0 b]; [contradiction Hb; reflexivity|].
  destruct (digits_value_digits ((a0 :: a) ++ b0 :: b)
              ltac:(apply Forall_app; split; assumption) 0) as [n Hn].
  simpl app in Hn. rewrite Hn. eauto.
Qed.

(** X4.  Lines 327-345 and 358-362.
    The texts that [parse_ping] hands to [float()] are those of groups
    7 to 10 of a match: each is empty, when the group took no part, or
    digits, a dot and digits, which [py_float] converts. *)
Lemma rtt_groups_read_as_floats (s : list codepoint)
    (tuple : list (list codepoint)) (j : nat) (t : list codepoint) :
  In tuple (findall tokens_re tokens_groups s) ->
  (6 <= j <= 9)%nat ->
  nth_error tuple j = Some t ->
  t = [] \/ exists f, py_float t = Ok f.
Proof.
  intros Hin Hj Ht.
  destruct (findall_groups _ _ _ _ _ Hin j t Ht) as [He|(b & Hb & Hab)];
    [left; exact He|].
  right. apply py_float_dotted.
  assert (Hd : b = dotted).
  { assert (Hc : (j = 6 \/ j = 7 \/ j = 8 \/ j = 9)%nat) by lia.
    destruct Hc as [-> | [-> | [-> | ->]]]; simpl in Hb; intuition. }
  subst b. exact Hab.
Qed.

End MatcherFacts.

(** ** The parser *)

Section ParserFacts.
Context {U : Unicode}.

Lemma has_header_decode (out : string) :
  has_header out = true ->
  exists outs, decode out = Ok outs /\ contains (u "PING") outs = true.
Proof.
  unfold has_header, decode. destruct (utf8_decode out) as [outs|]; [|discriminate].
  intros H. exists outs. split; [reflexivity | exact H].
Qed.

Lemma parse_ping_matched (e : env) (poldic poldic' : targets) (key out : string) :
  has_header out = true ->
  matches out <> [] ->
  parse_ping e poldic key out "" = Ok poldic' ->
  exists tgt ip tx rx loss n,
    dict_get key poldic = Some tgt
    /\ matched out 1 2 = Ok ip /\ matched out 2 3 = Ok tx /\ matched out 3 4 = Ok rx
    /\ matched out 4 5 = Ok loss /\ py_int loss = Ok n
    /\ ((str_of_Z (100 - n) = "0"
         /\ poldic' = dict_set key
              (dict_update (with_counts tgt ip tx rx n)
                 [("MINRTT", "UNKNOWN"); ("AVGRTT", "UNKNOWN");
                  ("MAXRTT", "UNKNOWN"); ("MDEV", "UNKNOWN");
                  ("LASTFAIL", STR_DATETIME e)]) poldic)
        \/ (str_of_Z (100 - n) <> "0"
            /\ exists mn av mx md minrtt avgrtt maxrtt mdev,
                 matched out 5 6 = Ok mn /\ rounded mn = Ok minrtt
                 /\ matched out 5 7 = Ok av /\ rounded av = Ok avgrtt
                 /\ matched out 5 8 = Ok mx /\ rounded mx = Ok maxrtt
                 /\ matched out 5 9 = Ok md /\ rounded md = Ok mdev
                 /\ poldic' = dict_set key
                      (dict_update (with_counts tgt ip tx rx n)
                         [("MINRTT", minrtt); ("AVGRTT", avgrtt);
                          ("MAXRTT", maxrtt); ("MDEV", mdev)]) poldic)).
Proof.
  intros Hh Hm H.
  destruct (has_header_decode _ Hh) as (outs & Hd & Hc).
  unfold parse_ping in H. rewrite Hd in H. cbn [bind] in H.
  change (decode "") with (Ok (@nil codepoint)) in H. cbn [bind] in H.
  change (negb ("" =? "")%string) with false in H. cbv iota in H.
  rewrite Hc in H.
  assert (Hms : matches out = findall tokens_re tokens_groups outs).
  { unfold matches. unfold decode in Hd.
    destruct (utf8_decode out); inversion Hd; reflexivity. }
  unfold matched. rewrite Hms in *. cbv zeta in H.
  set (m := findall tokens_re tokens_groups outs) in *.
  destruct m as [|t0 m'] eqn:Em.
  { contradiction Hm; reflexivity. }
  rewrite <- Em in *. clear Hm.
  bind_inv H. rename v into tgt. apply subscript_ok in Hv.
  bind_inv H. rename v into ip.
  bind_inv H. rename v into tx.
  bind_inv H. rename v into rx.
  bind_inv H. rename v into loss.
  bind_inv H. rename v into n.
  bind_inv H. rename v into avail.
  exists tgt, ip, tx, rx, loss, n.
  repeat (split; [assumption|]).
  fold (with_counts tgt ip tx rx n) in *.
  assert (Ea : avail = str_of_Z (100 - n)).
  { unfold with_counts in Hv5. cbn [dict_update fold_left fst snd] in Hv5.
    unfold subscript in Hv5. rewrite dict_get_set, String.eqb_refl in Hv5.
    inversion Hv5. reflexivity. }
  subst avail.
  destruct (String.eqb (str_of_Z (100 - n)) "0") eqn:E0.
  - left. apply String.eqb_eq in E0. split; [exact E0|]. inversion H. reflexivity.
  - right. apply String.eqb_neq in E0. split; [exact E0|].
    bind_inv H. rename v into mn. bind_inv H. rename v into minrtt.
    bind_inv H. rename v into av. bind_inv H. rename v into avgrtt.
    bind_inv H. rename v into mx. bind_inv H. rename v into maxrtt.
    bind_inv H. rename v into md. bind_inv H. rename v into mdev.
    exists mn, av, mx, md, minrtt, avgrtt, maxrtt, mdev.
    repeat (split; [assumption|]). inversion H. reflexivity.
Qed.


Lemma parse_ping_unmatched (e : env) (poldic poldic' : targets) (key out : string) :
  has_header out = true ->
  matches out = [] ->
  parse_ping e poldic key out "" = Ok poldic' ->
  exists tgt,
    dict_get key poldic = Some tgt
    /\ poldic' = dict_set key (dict_update tgt (unknown_fields e)) poldic.
Proof.
  intros Hh Hm H.
  destruct (has_header_decode _ Hh) as (outs & Hd & Hc).
  unfold parse_ping in H. rewrite Hd in H. cbn [bind] in H.
  change (decode "") with (Ok (@nil codepoint)) in H. cbn [bind] in H.
  change (negb ("" =? "")%string) with false in H. cbv iota in H.
  rewrite Hc in H.
  assert (Hms : matches out = findall tokens_re tokens_groups outs).
  { unfold matches. unfold decode in Hd.
    destruct (utf8_decode out); inversion Hd; reflexivity. }
  rewrite <- Hms, Hm in H. cbv zeta iota in H.
  bind_inv H. exists v. split; [apply subscript_ok; assumption|].
  inversion H. reflexivity.
Qed.

Lemma parse_ping_error (e : env) (poldic poldic' : targets) (key out err : string) :
  err <> "" ->
  parse_ping e poldic key out err = Ok poldic' ->
  exists tgt,
    dict_get key poldic = Some tgt
    /\ poldic' = dict_set key (dict_update tgt (unknown_fields e)) poldic.
Proof.
  intros Hne H. unfold parse_ping in H.
  bind_inv H. bind_inv H.
  apply String.eqb_neq in Hne. rewrite Hne in H. cbn [negb] in H.
  bind_inv H. exists v1. split; [apply subscript_ok; assumption|].
  inversion H. reflexivity.
Qed.

Lemma parse_ping_no_header (e : env) (poldic : targets) (key out : string) :
  is_ok (decode out) = true ->
  has_header out = false ->
  parse_ping e poldic key out "" = Ok poldic.
Proof.
  intros Hd Hh. unfold parse_ping.
  unfold has_header in Hh. unfold decode in *.
  destruct (utf8_decode out) as [outs|]; [|discriminate Hd].
  cbn [bind]. change (utf8_decode "") with (Some (@nil codepoint)). cbn [bind].
  change (negb ("" =? "")%string) with false. cbv iota.
  rewrite Hh. reflexivity.
Qed.


Lemma matched_nonempty (out : string) (i j : nat) (t : list codepoint) :
  matched out i j = Ok t -> matches out <> [].
Proof.
  unfold matched, item2, item. intros H E. rewrite E in H.
  destruct i; discriminate H.
Qed.

(** C3.  When a probe's output shows the header, is parsed without an
    exception and reports 0% packet loss, the availability stored in
    the sample is '100', that is 100 minus the loss, and the sample's
    LASTFAIL is what it was before the parse. *)
Theorem zero_loss_is_full_availability
    (e : env) (poldic poldic' : targets) (key out : string) :
  has_header out = true ->
  loss_percent out = Ok 0 ->
  parse_ping e poldic key out "" = Ok poldic' ->
  field poldic' key "AVAIL" = Some "100"
  /\ field poldic' key "LASTFAIL" = field poldic key "LASTFAIL".
Proof.
  intros Hh Hl H.
  unfold loss_percent in Hl. bind_inv Hl.
  pose proof (matched_nonempty _ _ _ _ Hv) as Hne.
  destruct (parse_ping_matched e poldic poldic' key out Hh Hne H)
    as (tgt & ip & tx & rx & loss & n & Hk & _ & _ & _ & Hloss & Hn & Hcase).
  rewrite Hv in Hloss. inversion Hloss; subst loss. rewrite Hl in Hn.
  inversion Hn; subst n.
  rewrite (field_get poldic key "LASTFAIL" tgt Hk).
  destruct Hcase as [[E0 _] | (_ & mn & av & mx & md & a & b & c & d & _ & _ & _ & _ & _ & _ & _ & _ & ->)].
  - vm_compute in E0. discriminate E0.
  - rewrite !field_set. split; dict_simpl; reflexivity.
Qed.



(** C4, as amended.  A probe that wrote to its error output and a probe
    parsed with 100% packet loss leave samples that agree on every
    field but IP, TX and RX: availability, the four round-trip times
    and LASTFAIL are the same, while the error path stores 'UNKNOWN' in
    IP, TX and RX and the loss path stores the texts it matched. *)
Theorem launch_error_matches_total_loss_but_for_counts
    (e : env) (poldic p1 p2 : targets) (key out out' err : string) :
  err <> "" ->
  parse_ping e poldic key out' err = Ok p1 ->
  has_header out = true ->
  loss_percent out = Ok 100 ->
  parse_ping e poldic key out "" = Ok p2 ->
  (forall name, name <> "IP" -> name <> "TX" -> name <> "RX" ->
                field p1 key name = field p2 key name)
  /\ field p1 key "IP" = Some "UNKNOWN"
  /\ field p1 key "TX" = Some "UNKNOWN"
  /\ field p1 key "RX" = Some "UNKNOWN"
  /\ exists ip tx rx,
       matched out 1 2 = Ok ip /\ matched out 2 3 = Ok tx /\ matched out 3 4 = Ok rx
       /\ field p2 key "IP" = Some (encode ip)
       /\ field p2 key "TX" = Some (encode tx)
       /\ field p2 key "RX" = Some (encode rx).
Proof.
  intros Herr H1 Hh Hl H2.
  destruct (parse_ping_error e poldic p1 key out' err Herr H1) as (tgt & Hk & ->).
  unfold loss_percent in Hl. bind_inv Hl.
  pose proof (matched_nonempty _ _ _ _ Hv) as Hne.
  destruct (parse_ping_matched e poldic p2 key out Hh Hne H2)
    as (tgt' & ip & tx & rx & loss & n & Hk' & Hip & Htx & Hrx & Hloss & Hn & Hcase).
  rewrite Hk in Hk'. inversion Hk'; subst tgt'.
  rewrite Hv in Hloss. inversion Hloss; subst loss. rewrite Hl in Hn.
  inversion Hn; subst n.
  destruct Hcase as [[_ ->] | [E0 _]]; [|contradiction E0; reflexivity].
  rewrite !field_set. repeat split.
  - intros name N1 N2 N3. unfold with_counts, unknown_fields.
    cbn [dict_update fold_left fst snd]. rewrite !field_set, !dict_get_set.
    change (str_of_Z (100 - 100)) with "0".
    by_name name. reflexivity.
  - dict_simpl. reflexivity.
  - dict_simpl. reflexivity.
  - dict_simpl. reflexivity.
  - exists ip, tx, rx. repeat split; try assumption; dict_simpl; reflexivity.
Qed.

(** C10, as amended.  When both outputs of a probe decode as UTF-8 and
    the error output is not empty, the parser marks the probe failed:
    availability '0', IP, TX, RX and the four round-trip times
    'UNKNOWN', LASTFAIL the timestamp of the run; the result is the
    same whatever the standard output holds. *)
Theorem stderr_marks_the_probe_failed
    (e : env) (poldic : targets) (key out err : string) (tgt : sample) :
  err <> "" ->
  is_ok (decode out) = true ->
  is_ok (decode err) = true ->
  dict_get key poldic = Some tgt ->
  exists p,
    parse_ping e poldic key out err = Ok p
    /\ field p key "AVAIL" = Some "0"
    /\ field p key "IP" = Some "UNKNOWN"
    /\ field p key "TX" = Some "UNKNOWN"
    /\ field p key "RX" = Some "UNKNOWN"
    /\ field p key "MINRTT" = Some "UNKNOWN"
    /\ field p key "AVGRTT" = Some "UNKNOWN"
    /\ field p key "MAXRTT" = Some "UNKNOWN"
    /\ field p key "MDEV" = Some "UNKNOWN"
    /\ field p key "LASTFAIL" = Some (STR_DATETIME e)
    /\ forall out2, is_ok (decode out2) = true ->
                    parse_ping e poldic key out2 err = Ok p.
Proof.
  intros Herr Ho He Hk.
  assert (Hgen : forall o, is_ok (decode o) = true ->
            parse_ping e poldic key o err
            = Ok (dict_set key (dict_update tgt (unknown_fields e)) poldic)).
  { intros o Hd. unfold parse_ping.
    destruct (decode o); [|discriminate Hd]. cbn [bind].
    destruct (decode err); [|discriminate He]. cbn [bind].
    apply String.eqb_neq in Herr. rewrite Herr. cbn [negb].
    unfold subscript. rewrite Hk. reflexivity. }
  eexists. split; [apply Hgen; assumption|].
  rewrite !field_set.
  repeat split; try (dict_simpl; reflexivity).
  intros out2 Hd. apply Hgen; assumption.
Qed.

(** X1.  Lines 349-351.  The availability stored is 100 minus the loss that was read. *)
Lemma availability_is_hundred_minus_loss
    (e : env) (poldic poldic' : targets) (key out : string) (n : Z) :
  has_header out = true ->
  loss_percent out = Ok n ->
  parse_ping e poldic key out "" = Ok poldic' ->
  field poldic' key "AVAIL" = Some (str_of_Z (100 - n)).
Proof.
  intros Hh Hl H.
  unfold loss_percent in Hl. bind_inv Hl.
  pose proof (matched_nonempty _ _ _ _ Hv) as Hne.
  destruct (parse_ping_matched e poldic poldic' key out Hh Hne H)
    as (tgt & ip & tx & rx & loss & m & Hk & _ & _ & _ & Hloss & Hn & Hcase).
  rewrite Hv in Hloss. inversion Hloss; subst loss. rewrite Hl in Hn.
  inversion Hn; subst m.
  destruct Hcase as [[_ ->] | (_ & mn & av & mx & md & a & b & c & d
                                & _ & _ & _ & _ & _ & _ & _ & _ & ->)];
    rewrite field_set; dict_simpl; reflexivity.
Qed.

(** X2.  Lines 351-356.  A reply with every packet lost marks the
    sample failed and stamps it with the time of the run. *)
Lemma total_loss_marks_failure
    (e : env) (poldic poldic' : targets) (key out : string) :
  has_header out = true ->
  loss_percent out = Ok 100 ->
  parse_ping e poldic key out "" = Ok poldic' ->
  field poldic' key "AVAIL" = Some "0"
  /\ field poldic' key "MINRTT" = Some "UNKNOWN"
  /\ field poldic' key "AVGRTT" = Some "UNKNOWN"
  /\ field poldic' key "MAXRTT" = Some "UNKNOWN"
  /\ field poldic' key "MDEV" = Some "UNKNOWN"
  /\ field poldic' key "LASTFAIL" = Some (STR_DATETIME e).
Proof.
  intros Hh Hl H.
  unfold loss_percent in Hl. bind_inv Hl.
  pose proof (matched_nonempty _ _ _ _ Hv) as Hne.
  destruct (parse_ping_matched e poldic poldic' key out Hh Hne H)
    as (tgt & ip & tx & rx & loss & m & Hk & _ & _ & _ & Hloss & Hn & Hcase).
  rewrite Hv in Hloss. inversion Hloss; subst loss. rewrite Hl in Hn.
  inversion Hn; subst m.
  destruct Hcase as [[_ ->] | [E0 _]]; [|contradiction E0; reflexivity].
  rewrite !field_set. repeat split; dict_simpl; reflexivity.
Qed.

(** X3.  Lines 346 and 364-369.  A text with the header in which the
    pattern finds nothing marks the sample failed as well. *)
Lemma header_without_match_marks_failure
    (e : env) (poldic poldic' : targets) (key out : string) :
  has_header out = true ->
  matches out = [] ->
  parse_ping e poldic key out "" = Ok poldic' ->
  field poldic' key "AVAIL" = Some "0"
  /\ field poldic' key "AVGRTT" = Some "UNKNOWN"
  /\ field poldic' key "LASTFAIL" = Some (STR_DATETIME e).
Proof.
  intros Hh Hm H.
  destruct (parse_ping_unmatched e poldic poldic' key out Hh Hm H) as (tgt & _ & ->).
  rewrite !field_set. repeat split; dict_simpl; reflexivity.
Qed.

End ParserFacts.


Section MoreParser.
Context {U : Unicode}.

(** C2.  The code at a parse failure: a probe that printed nothing, on
    either output, is parsed without an exception and leaves the sample
    as it was, with no availability, no round-trip time, and the
    LASTFAIL of an earlier run instead of this run's timestamp. *)
Theorem silent_probe_leaves_the_sample_unmarked :
  parse_ping probe_env known_targets "Cloudflare" "" "" = Ok known_targets
  /\ field known_targets "Cloudflare" "AVAIL" = None
  /\ field known_targets "Cloudflare" "AVGRTT" = None
  /\ field known_targets "Cloudflare" "LASTFAIL" = Some "2019-01-20 08:00:00.000001"
  /\ STR_DATETIME probe_env = "2019-01-21 10:00:00.000001".
Proof.
  split.
  - apply parse_ping_no_header; reflexivity.
  - repeat split.
Qed.

Lemma In_insert_sorted (k x : string) (l : list string) :
  In x (insert_sorted k l) <-> x = k \/ In x l.
Proof.
  induction l as [|y l IH]; simpl.
  - intuition.
  - destruct (String.leb k y); simpl; [intuition|].
    rewrite IH. intuition.
Qed.

Lemma In_sorted_keys {V : Type} (d : dict V) (k : string) :
  In k (sorted_keys d) <-> In k (map fst d).
Proof.
  unfold sorted_keys. induction (map fst d) as [|x l IH]; simpl; [tauto|].
  rewrite In_insert_sorted, IH. intuition.
Qed.

Lemma sample_values_needs_all (poldic : targets) (keys : list string) (key : string) :
  In key keys ->
  field poldic key "AVGRTT" = None ->
  is_ok (sample_values poldic keys) = false.
Proof.
  intros Hin Hf. induction keys as [|t keys IH]; [contradiction|].
  simpl. unfold subscript at 1.
  destruct (dict_get t poldic) as [tgt|] eqn:Et; [|reflexivity].
  cbn [bind]. unfold subscript at 1.
  destruct (dict_get "AVGRTT" tgt) as [a|] eqn:Ea; [|reflexivity].
  cbn [bind]. destruct (subscript "AVAIL" tgt); [|reflexivity].
  cbn [bind].
  destruct Hin as [->|Hin].
  - unfold field in Hf. rewrite Et in Hf. congruence.
  - specialize (IH Hin). destruct (sample_values poldic keys); [discriminate IH | reflexivity].
Qed.

(** X7.  Lines 382-384.  A sample without an average round-trip time
    stops the database update before any command is issued. *)
Lemma update_command_needs_every_sample
    (e : env) (path : string) (poldic : targets) (key : string) :
  In key (map fst poldic) ->
  field poldic key "AVGRTT" = None ->
  is_ok (update_command e path poldic) = false.
Proof.
  intros Hin Hf. unfold update_command.
  pose proof (sample_values_needs_all poldic (sorted_keys poldic) key
                (proj2 (In_sorted_keys poldic key) Hin) Hf) as H.
  destruct (sample_values poldic (sorted_keys poldic)); [discriminate H | reflexivity].
Qed.

End MoreParser.


(** ** Floats and the uptime text *)

Lemma round_half_even_exact (q d : Z) : 0 < d -> round_half_even (q * d) d = q.
Proof.
  intros Hd. unfold round_half_even.
  rewrite Z.div_mul by lia. rewrite Z.mod_mul by lia.
  replace (2 * 0 <? d) with true by (symmetry; apply Z.ltb_lt; lia).
  reflexivity.
Qed.

Lemma round_half_even_bounds (num den : Z) :
  0 < den -> num / den <= round_half_even num den <= num / den + 1.
Proof.
  intros Hd. unfold round_half_even.
  destruct (2 * (num mod den) <? den); [lia|].
  destruct (den <? 2 * (num mod den)); [lia|].
  destruct (Z.even (num / den)); lia.
Qed.

Lemma floor_log2_mul (n d : Z) :
  0 < n -> 0 < d -> floor_log2 (n * d) d = Z.log2 n.
Proof.
  intros Hn Hd. unfold floor_log2.
  pose proof (Z.log2_mul_below n d Hn Hd) as Hlo.
  pose proof (Z.log2_mul_above n d ltac:(lia) ltac:(lia)) as Hhi.
  pose proof (Z.log2_nonneg n) as Hnn.
  pose proof (Z.log2_spec n Hn) as [Hs1 Hs2].
  set (l := Z.log2 (n * d) - Z.log2 d) in *.
  replace (0 <=? l) with true by (symmetry; apply Z.leb_le; lia).
  assert (Hl : l = Z.log2 n \/ l = Z.log2 n + 1) by lia.
  destruct Hl as [Hl|Hl]; rewrite Hl.
  - replace (n * d <? d * 2 ^ Z.log2 n) with false; [reflexivity|].
    symmetry. apply Z.ltb_ge. nia.
  - replace (Z.log2 n + 1) with (Z.succ (Z.log2 n)) by lia.
    replace (n * d <? d * 2 ^ Z.succ (Z.log2 n)) with true; [lia|].
    symmetry. apply Z.ltb_lt. nia.
Qed.

Lemma round_float_int (n d : Z) :
  0 <= n < 2 ^ 53 -> 0 < d -> round_float (n * d) d = Fin (n * funit).
Proof.
  intros [Hn0 Hn] Hd. unfold round_float.
  destruct (Z.eq_dec n 0) as [->|Hnz].
  { reflexivity. }
  assert (Hpos : 0 < n) by lia.
  replace (n * d =? 0) with false by (symmetry; apply Z.eqb_neq; nia).
  rewrite floor_log2_mul by lia.
  pose proof (Z.log2_nonneg n) as Hl0.
  assert (Hl : Z.log2 n < 53) by (apply Z.log2_lt_pow2; lia).
  set (l := Z.log2 n) in *.
  replace (Z.max (l - 52) (-1074)) with (l - 52) by lia.
  assert (Hv : forall m, m = n * 2 ^ (52 - l) ->
             m * 2 ^ (l - 52 + 1074) = n * funit).
  { intros m ->. rewrite <- Z.mul_assoc, <- Z.pow_add_r by lia.
    unfold funit. f_equal. f_equal. lia. }
  assert (Hlt : (n * funit <? 2 ^ 2098) = true).
  { apply Z.ltb_lt. unfold funit.
    apply Z.lt_le_trans with (2 ^ 53 * 2 ^ 1074).
    - apply Z.mul_lt_mono_pos_r; [apply Z.pow_pos_nonneg; lia | lia].
    - rewrite <- Z.pow_add_r by lia. apply Z.pow_le_mono_r; lia. }
  destruct (0 <=? l - 52) eqn:E.
  - apply Z.leb_le in E. assert (l = 52) by lia.
    replace (l - 52) with 0 in * by lia.
    replace (d * 2 ^ 0) with d by (rewrite Z.pow_0_r; lia).
    rewrite round_half_even_exact by lia.
    rewrite (Hv n) by (replace (52 - l) with 0 by lia; rewrite Z.pow_0_r; lia).
    rewrite Hlt. reflexivity.
  - apply Z.leb_gt in E.
    replace (- (l - 52)) with (52 - l) by lia.
    replace (n * d * 2 ^ (52 - l)) with (n * 2 ^ (52 - l) * d) by ring.
    rewrite round_half_even_exact by lia.
    rewrite (Hv _ eq_refl). rewrite Hlt. reflexivity.
Qed.

Lemma float_divmod_exact (vx w : Z) :
  0 <= vx -> 0 < w -> w * (vx / (w * funit)) < 2 ^ 53 ->
  float_divmod vx (w * funit)
  = (Fin (vx / (w * funit) * funit), Fin (vx mod (w * funit))).
Proof.
  intros Hvx Hw Hq.
  pose proof funit_pos as Hf.
  assert (Hwf : 0 < w * funit) by nia.
  set (q := vx / (w * funit)) in *.
  assert (Hq0 : 0 <= q) by (apply Z.div_pos; lia).
  pose proof (Z.div_mod vx (w * funit) ltac:(lia)) as Hdm. fold q in Hdm.
  pose proof (Z.mod_pos_bound vx (w * funit) Hwf) as Hmd.
  unfold float_divmod.
  rewrite Z.rem_mod_nonneg by lia.
  set (md := vx mod (w * funit)) in *.
  unfold float_sub at 1, fround.
  replace (vx - md) with (w * q * funit) by lia.
  replace (w * q * funit <? 0) with false by (symmetry; apply Z.ltb_ge; nia).
  rewrite round_float_int by nia.
  unfold float_div, fround.
  replace (0 <? w * funit) with true by (symmetry; apply Z.ltb_lt; lia).
  replace (w * q * funit <? 0) with false by (symmetry; apply Z.ltb_ge; nia).
  replace (w * q * funit) with (q * (w * funit)) by ring.
  rewrite round_float_int by nia.
  replace (w * funit <? 0) with false by (symmetry; apply Z.ltb_ge; lia).
  replace (md <? 0) with false by (symmetry; apply Z.ltb_ge; lia).
  cbn [Bool.eqb negb andb]. rewrite andb_false_r.
  destruct (q * funit =? 0) eqn:E0.
  - apply Z.eqb_eq in E0. rewrite E0. reflexivity.
  - unfold float_floor. rewrite Z.div_mul by lia.
    unfold float_sub, fround. rewrite Z.sub_diag.
    cbn [Z.ltb Z.compare]. unfold round_float. cbn [Z.eqb].
    replace (funit <? 2 * 0) with false by (symmetry; apply Z.ltb_ge; lia).
    reflexivity.
Qed.

Lemma pow10_6_log2 : Z.log2 1000000 = 19.
Proof. reflexivity. Qed.

Lemma total_seconds_finite (us : Z) :
  0 <= us < max_us ->
  exists T, total_seconds us = Fin T /\ 0 <= T /\ T / funit < 2 ^ 40.
Proof.
  intros [H0 Hmax]. unfold total_seconds, round_float.
  pose proof funit_pos as Hf.
  destruct (us =? 0) eqn:Ez.
  { exists 0. split; [reflexivity|]. split; [lia|].
    rewrite Z.div_0_l by lia. apply Z.pow_pos_nonneg; lia. }
  apply Z.eqb_neq in Ez. assert (Hpos : 0 < us) by lia.
  assert (Hlog : Z.log2 us < 59).
  { apply Z.log2_lt_pow2; [lia|]. unfold max_us in Hmax.
    eapply Z.lt_trans; [exact Hmax|]. reflexivity. }
  set (e := Z.max (floor_log2 us 1000000 - 52) (-1074)).
  assert (He : -1074 <= e < 0).
  { subst e. unfold floor_log2. rewrite pow10_6_log2.
    destruct (if 0 <=? Z.log2 us - 19
              then us <? 1000000 * 2 ^ (Z.log2 us - 19)
              else us * 2 ^ (- (Z.log2 us - 19)) <? 1000000); lia. }
  replace (0 <=? e) with false by (symmetry; apply Z.leb_gt; lia).
  set (m := round_half_even (us * 2 ^ (- e)) 1000000).
  pose proof (round_half_even_bounds (us * 2 ^ (- e)) 1000000 ltac:(lia)) as Hm.
  fold m in Hm.
  assert (Hp1 : 0 < 2 ^ (- e)) by (apply Z.pow_pos_nonneg; lia).
  assert (Hp2 : 0 < 2 ^ (e + 1074)) by (apply Z.pow_pos_nonneg; lia).
  assert (Hp3 : 2 ^ (- e) * 2 ^ (e + 1074) = funit).
  { rewrite <- Z.pow_add_r by lia. unfold funit. f_equal. lia. }
  assert (Hp4 : 2 ^ (e + 1074) <= funit).
  { unfold funit. apply Z.pow_le_mono_r; lia. }
  assert (Hq0 : 0 <= us * 2 ^ (- e) / 1000000) by (apply Z.div_pos; nia).
  assert (Hm0 : 0 <= m) by lia.
  (* m * 2^(e+1074) <= (us / 10^6 + 2) * funit *)
  assert (Hdiv : us * 2 ^ (- e) / 1000000 * 2 ^ (e + 1074)
                 <= (us / 1000000 + 1) * funit).
  { pose proof (Z.div_mod us 1000000 ltac:(lia)) as Hus.
    pose proof (Z.mod_pos_bound us 1000000 ltac:(lia)) as Hr.
    assert (us * 2 ^ (- e) / 1000000 <= (us / 1000000 + 1) * 2 ^ (- e)).
    { apply Z.div_le_upper_bound; [lia|]. nia. }
    rewrite <- Hp3. nia. }
  assert (Hbound : m * 2 ^ (e + 1074) <= (us / 1000000 + 2) * funit) by nia.
  assert (Hsec : us / 1000000 < 315537897600).
  { apply Z.div_lt_upper_bound; [lia|]. unfold max_us in Hmax. lia. }
  assert (Hlt : m * 2 ^ (e + 1074) < 2 ^ 40 * funit).
  { eapply Z.le_lt_trans; [exact Hbound|].
    apply Z.mul_lt_mono_pos_r; [lia|]. change (2 ^ 40) with 1099511627776. lia. }
  replace (m * 2 ^ (e + 1074) <? 2 ^ 2098) with true.
  2:{ symmetry. apply Z.ltb_lt. eapply Z.lt_le_trans; [exact Hlt|].
      unfold funit. rewrite <- Z.pow_add_r by lia. apply Z.pow_le_mono_r; lia. }
  exists (m * 2 ^ (e + 1074)). split; [reflexivity|]. split; [nia|].
  apply Z.div_lt_upper_bound; [lia|]. lia.
Qed.

Lemma append_assoc (a b c : string) : ((a ++ b) ++ c = a ++ (b ++ c))%string.
Proof. induction a as [|x a IH]; simpl; [reflexivity | rewrite IH; reflexivity]. Qed.

Lemma unit_text_whole (n : Z) (label : string) :
  0 <= n -> unit_text (Fin (n * funit)) label = Ok (unit_spec n label).
Proof.
  intros Hn. pose proof funit_pos as Hf.
  unfold unit_text, unit_spec, float_pos.
  destruct (n =? 0) eqn:E.
  - apply Z.eqb_eq in E. subst n. reflexivity.
  - apply Z.eqb_neq in E.
    replace (0 <? n * funit) with true by (symmetry; apply Z.ltb_lt; nia).
    cbn [py_round bind]. rewrite round_half_even_exact by lia. reflexivity.
Qed.

Lemma unit_text_fraction (r : Z) (label : string) :
  0 <= r ->
  unit_text (Fin r) label
  = Ok (if r =? 0 then "" else str_of_Z (round_half_even r funit) ++ label).
Proof.
  intros Hr. unfold unit_text, float_pos.
  destruct (r =? 0) eqn:E.
  - apply Z.eqb_eq in E. subst r. reflexivity.
  - apply Z.eqb_neq in E.
    replace (0 <? r) with true by (symmetry; apply Z.ltb_lt; lia).
    reflexivity.
Qed.

Lemma abs_delta_range (a b : datetime) : 0 <= abs_delta a b < max_us.
Proof.
  unfold abs_delta.
  pose proof (dt_range a) as Ha. pose proof (dt_range b) as Hb.
  apply andb_prop in Ha. apply andb_prop in Hb.
  destruct Ha as [Ha1 Ha2]. destruct Hb as [Hb1 Hb2].
  apply Z.leb_le in Ha1. apply Z.leb_le in Hb1.
  apply Z.ltb_lt in Ha2. apply Z.ltb_lt in Hb2. lia.
Qed.

Lemma unit_spec_zero (label : string) : unit_spec 0 label = "".
Proof. reflexivity. Qed.

Lemma uptime_spec_ends_with_period (hms : string) (T : Z) :
  exists body, uptime_spec hms T = body ++ ".".
Proof.
  unfold uptime_spec.
  set (d := unit_spec (T / funit / 43200) " days, ").
  set (h := unit_spec ((T / funit / 3600) mod 12) " hours, ").
  set (m := unit_spec ((T / funit / 60) mod 60) " minutes, ").
  set (s := if T mod (60 * funit) =? 0 then ""
            else str_of_Z (round_half_even (T mod (60 * funit)) funit) ++ " seconds").
  exists (hms ++ " UP (since last ping fail) for " ++ d ++ h ++ m ++ s).
  rewrite !append_assoc. reflexivity.
Qed.

(** The float computation of [calc_uptime] is the decomposition of the
    elapsed seconds into 12-hour blocks, hours, minutes and seconds. *)
Lemma uptime_text_by_units (t1 t2 lastfail : datetime) :
  exists T,
    total_seconds (abs_delta t2 lastfail) = Fin T /\ 0 <= T
    /\ uptime_text t1 t2 lastfail = Ok (uptime_spec (strftime_HMS t1) T).
Proof.
  destruct (total_seconds_finite _ (abs_delta_range t2 lastfail)) as (T & HT & HT0 & HTb).
  exists T. split; [exact HT|]. split; [exact HT0|].
  pose proof funit_pos as Hf.
  unfold uptime_text. rewrite HT. unfold py_divmod, float_of_Z.
  set (whole := T / funit) in *.
  assert (Hw0 : 0 <= whole) by (apply Z.div_pos; lia).
  assert (Hq1 : T / (60 * funit) = whole / 60).
  { rewrite (Z.mul_comm 60 funit). rewrite <- Z.div_div by lia. reflexivity. }
  assert (Hb53 : 2 ^ 40 < 2 ^ 53) by (apply Z.pow_lt_mono_r; lia).
  assert (H60 : 60 * (whole / 60) <= whole).
  { apply Z.mul_div_le. lia. }
  rewrite float_divmod_exact by (rewrite ?Hq1; lia).
  rewrite Hq1.
  assert (Hq2 : whole / 60 * funit / (60 * funit) = whole / 60 / 60).
  { rewrite Z.div_mul_cancel_r by lia. reflexivity. }
  assert (H60' : 60 * (whole / 60 / 60) <= whole / 60).
  { apply Z.mul_div_le. lia. }
  assert (Hd0 : 0 <= whole / 60) by (apply Z.div_pos; lia).
  rewrite float_divmod_exact by (rewrite ?Hq2; nia).
  rewrite Hq2.
  assert (Hq3 : whole / 60 / 60 * funit / (12 * funit) = whole / 60 / 60 / 12).
  { rewrite Z.div_mul_cancel_r by lia. reflexivity. }
  assert (Hd1 : 0 <= whole / 60 / 60) by (apply Z.div_pos; lia).
  assert (H12 : 12 * (whole / 60 / 60 / 12) <= whole / 60 / 60).
  { apply Z.mul_div_le. lia. }
  rewrite float_divmod_exact by (rewrite ?Hq3; nia).
  rewrite Hq3.
  rewrite (Z.mul_mod_distr_r (whole / 60) 60 funit) by lia.
  rewrite (Z.mul_mod_distr_r (whole / 60 / 60) 12 funit) by lia.
  rewrite unit_text_whole by (apply Z.div_pos; lia). cbn [bind].
  rewrite unit_text_whole by (apply Z.mod_pos_bound; lia). cbn [bind].
  rewrite unit_text_whole by (apply Z.mod_pos_bound; lia). cbn [bind].
  rewrite unit_text_fraction by (apply Z.mod_pos_bound; nia). cbn [bind].
  unfold uptime_spec. fold whole.
  rewrite !Z.div_div by lia.
  change (60 * 60) with 3600. change (3600 * 12) with 43200.
  rewrite append_assoc. reflexivity.
Qed.

(** ** More on dictionaries *)

Lemma dict_get_None {V : Type} (k : string) (d : dict V) :
  dict_get k d = None <-> ~ In k (map fst d).
Proof.
  induction d as [|[k0 v0] d IH]; simpl; [tauto|].
  destruct (String.eqb_spec k0 k) as [->|Hne].
  - split; [discriminate | intros H; contradiction H; left; reflexivity].
  - rewrite IH. tauto.
Qed.

Lemma dict_set_keys_present {V : Type} (k : string) (v v0 : V) (d : dict V) :
  dict_get k d = Some v0 -> map fst (dict_set k v d) = map fst d.
Proof.
  induction d as [|[k1 v1] d IH]; simpl; [discriminate|].
  destruct (String.eqb k1 k) eqn:E; simpl; [reflexivity|].
  intros H. rewrite (IH H). reflexivity.
Qed.

Lemma dict_set_absent {V : Type} (k : string) (v : V) (d : dict V) :
  ~ In k (map fst d) -> dict_set k v d = (d ++ [(k, v)])%list.
Proof.
  induction d as [|[k1 v1] d IH]; simpl; [reflexivity|].
  intros H. destruct (String.eqb_spec k1 k) as [->|Hne]; [tauto|].
  rewrite IH by tauto. reflexivity.
Qed.

Lemma dict_update_append {V : Type} (l acc : dict V) :
  NoDup (map fst (acc ++ l)%list) -> dict_update acc l = (acc ++ l)%list.
Proof.
  unfold dict_update. revert acc.
  induction l as [|[k v] l IH]; intros acc H; simpl.
  - rewrite app_nil_r. reflexivity.
  - assert (Hk : ~ In k (map fst acc)).
    { rewrite map_app in H. simpl in H.
      apply NoDup_remove_2 in H. intros Hin. apply H. apply in_or_app. tauto. }
    rewrite dict_set_absent by exact Hk.
    rewrite IH; rewrite <- app_assoc; [reflexivity | exact H].
Qed.

(** Loading a dictionary into an empty one gives it back. *)
Lemma dict_update_nil {V : Type} (d : dict V) :
  NoDup (map fst d) -> dict_update [] d = d.
Proof. intros H. apply (dict_update_append d []). exact H. Qed.

Lemma dict_set_nodup {V : Type} (k : string) (v : V) (d : dict V) :
  NoDup (map fst d) -> NoDup (map fst (dict_set k v d)).
Proof.
  intros H. destruct (dict_get k d) as [v0|] eqn:E.
  - rewrite (dict_set_keys_present k v v0 d E). exact H.
  - apply dict_get_None in E. rewrite dict_set_absent by exact E.
    rewrite map_app. simpl.
    apply NoDup_app_remove_l with (l := []).
    simpl. apply Permutation_NoDup with (l := k :: map fst d).
    + apply Permutation_cons_append.
    + constructor; assumption.
Qed.

Lemma dict_update_nodup {V : Type} (l acc : dict V) :
  NoDup (map fst acc) -> NoDup (map fst (dict_update acc l)).
Proof.
  unfold dict_update. revert acc.
  induction l as [|[k v] l IH]; intros acc H; simpl; [exact H|].
  apply IH. apply dict_set_nodup. exact H.
Qed.

Lemma field_touch (d : targets) (t x v key name : string) (tgt : sample) :
  dict_get t d = Some tgt -> name <> x ->
  field (dict_set t (dict_set x v tgt) d) key name = field d key name.
Proof.
  intros Ht Hne. unfold field. rewrite dict_get_set.
  destruct (String.eqb_spec t key) as [->|Hk]; [|reflexivity].
  rewrite Ht, dict_get_set.
  destruct (String.eqb_spec x name) as [->|_]; [congruence | reflexivity].
Qed.

Lemma keys_touch (d : targets) (t : string) (tgt tgt' : sample) :
  dict_get t d = Some tgt -> map fst (dict_set t tgt' d) = map fst d.
Proof. intros H. eapply dict_set_keys_present. exact H. Qed.

(** ** The world monad *)

Section CycleFacts.
Context {U : Unicode} {L : Library}.

Lemma mbind_ok {A B : Type} (m : M A) (f : A -> M B) (w w' : world) (b : B) :
  mbind m f w = (w', Ok b) ->
  exists w1 a, m w = (w1, Ok a) /\ f a w1 = (w', Ok b).
Proof.
  unfold mbind. destruct (m w) as [w1 [a|ex]]; intros H; [eauto | discriminate].
Qed.

Lemma lift_ok {A : Type} (r : result A) (w w' : world) (a : A) :
  lift r w = (w', Ok a) -> w' = w /\ r = Ok a.
Proof. unfold lift. intros H. inversion H. split; reflexivity. Qed.

Lemma ret_ok {A : Type} (a b : A) (w w' : world) :
  ret a w = (w', Ok b) -> w' = w /\ b = a.
Proof. unfold ret. intros H. inversion H. split; reflexivity. Qed.

Ltac mbind_inv H :=
  let w := fresh "w" in
  let a := fresh "v" in
  let Ha := fresh "Hv" in
  apply mbind_ok in H; destruct H as (w & a & Ha & H).

Ltac lift_inv H :=
  let E := fresh "E" in
  apply lift_ok in H; destruct H as [E H]; subst.

(** ** calc_uptime *)

Lemma calc_uptime_loop_keeps (e : env) (keys : list string)
    (cfgdic cfgdic' : targets) (w w' : world) :
  calc_uptime_loop e keys cfgdic w = (w', Ok cfgdic') ->
  files w' = files w
  /\ map fst cfgdic' = map fst cfgdic
  /\ forall key name, name <> "UPTIME" ->
       field cfgdic' key name = field cfgdic key name.
Proof.
  revert cfgdic w. induction keys as [|t keys IH]; intros cfgdic w H; simpl in H.
  - apply ret_ok in H. destruct H as [-> ->]. repeat split.
  - mbind_inv H. lift_inv Hv. apply subscript_ok in Hv.
    mbind_inv H. lift_inv Hv0.
    mbind_inv H. lift_inv Hv1.
    mbind_inv H. mbind_inv H. mbind_inv H. lift_inv Hv4.
    unfold read_clock in Hv2, Hv3. inversion Hv2; subst. inversion Hv3; subst.
    destruct (IH _ _ H) as (Hf & Hk & Hfield).
    split; [rewrite Hf; reflexivity|].
    split; [rewrite Hk; eapply keys_touch; eassumption|].
    intros key name Hne. rewrite Hfield by exact Hne.
    apply field_touch; assumption.
Qed.



(** ** ping_hosts and the persistent store *)

Lemma collect_keeps (e : env) (pids : list (string * (string * string)))
    (cfgdic poldic cfgdic' poldic' : targets) :
  collect e pids cfgdic poldic = Ok (cfgdic', poldic') ->
  map fst cfgdic' = map fst cfgdic
  /\ forall key name, name <> "LASTPOLL" ->
       field cfgdic' key name = field cfgdic key name.
Proof.
  revert cfgdic poldic.
  induction pids as [|[t [output errors]] pids IH]; intros cfgdic poldic H;
    simpl in H.
  - inversion H; subst. split; [reflexivity | intros; reflexivity].
  - bind_inv H. bind_inv H. apply subscript_ok in Hv0. bind_inv H.
    bind_inv H. bind_inv H.
    destruct (IH _ _ H) as (Hk & Hfield).
    split; [rewrite Hk; eapply keys_touch; eassumption|].
    intros key name Hne. rewrite Hfield by exact Hne.
    apply field_touch; assumption.
Qed.

Lemma ping_hosts_keeps (e : env) (cfgdic poldic cfgdic' poldic' : targets) :
  ping_hosts e cfgdic poldic = Ok (cfgdic', poldic') ->
  map fst cfgdic' = map fst cfgdic
  /\ forall key name, name <> "LASTPOLL" ->
       field cfgdic' key name = field cfgdic key name.
Proof.
  unfold ping_hosts. intros H. bind_inv H. destruct v as [pol pids].
  eapply collect_keeps. exact H.
Qed.

(** ** Configuration persistence *)

Lemma write_config_ok (path : string) (cfgdic : targets) (gfxdic : gfxdefs)
    (w w' : world) (x : unit) :
  write_config path cfgdic gfxdic w = (w', Ok x) ->
  exists sorted,
    gfxprm_sort gfxdic = Ok sorted
    /\ files w' = dict_set path (json_dumps (cfgdic, sorted)) (files w).
Proof.
  unfold write_config. intros H. mbind_inv H. lift_inv Hv.
  unfold write_file in H. inversion H; subst. exists v. split; [assumption | reflexivity].
Qed.

Lemma read_config_nodup (e : env) (path : string) (w w' : world)
    (cfgdic : targets) (gfxdic : gfxdefs) :
  read_config e path w = (w', Ok (cfgdic, gfxdic)) ->
  NoDup (map fst cfgdic) /\ NoDup (map fst gfxdic) /\ gfxdic <> [].
Proof.
  unfold read_config. intros H.
  assert (Hd : NoDup (map fst (dict_update [] default_gfx))
               /\ dict_update [] default_gfx <> []).
  { split; [apply dict_update_nodup; constructor | discriminate]. }
  destruct Hd as [Hd1 Hd2].
  remember (dict_update [] default_gfx) as gdef eqn:Egdef. clear Egdef.
  assert (Hfin : forall (c : targets) (g : gfxdefs) (b : bool),
            NoDup (map fst c) -> NoDup (map fst g) ->
            (let '(gfxdic, need2write) :=
               match g with
               | [] => (gdef, true)
               | _ :: _ => (g, b)
               end in
             if need2write
             then mbind (write_config path c gfxdic) (fun _ => ret (c, gfxdic)) w
             else (w, Ok (c, gfxdic))) = (w', Ok (cfgdic, gfxdic)) ->
            NoDup (map fst cfgdic) /\ NoDup (map fst gfxdic) /\ gfxdic <> []).
  { intros c g b Hc Hg H0. destruct g as [|x g0].
    - mbind_inv H0. apply ret_ok in H0. destruct H0 as [_ H0].
      inversion H0; subst. repeat split; assumption.
    - destruct b.
      + mbind_inv H0. apply ret_ok in H0. destruct H0 as [_ H0].
        inversion H0; subst. repeat split; [assumption | assumption | discriminate].
      + inversion H0; subst. repeat split; [assumption | assumption | discriminate]. }
  destruct (dict_get path (files w)) as [t|].
  - destruct (json_load t) as [[c g]|ex]; cbn [bind] in H; [|discriminate].
    apply (Hfin (dict_update [] c) (dict_update [] g) false);
      [apply dict_update_nodup; constructor
      | apply dict_update_nodup; constructor | exact H].
  - apply (Hfin (dict_update [] (default_targets e)) [] true);
      [apply dict_update_nodup; constructor | constructor | exact H].
Qed.

Lemma read_config_loaded (e : env) (path : string) (w w' : world)
    (c cfgdic : targets) (g gfxdic : gfxdefs) :
  json_codec ->
  dict_get path (files w) = Some (json_dumps (c, g)) ->
  read_config e path w = (w', Ok (cfgdic, gfxdic)) ->
  cfgdic = dict_update [] c.
Proof.
  intros Hj Hfile H. unfold read_config in H. rewrite Hfile, Hj in H.
  cbn [bind] in H.
  destruct (dict_update [] g) as [|x g0].
  - mbind_inv H. apply ret_ok in H. destruct H as [_ H]. inversion H; reflexivity.
  - inversion H; reflexivity.
Qed.

(** ** One run *)

Lemma verify_rrd_files (e : env) (dbfile : string) (cfgdic : targets)
    (w w' : world) (r : result unit) :
  verify_rrd e dbfile cfgdic w = (w', r) -> files w' = files w.
Proof.
  unfold verify_rrd, mbind, run_shell, lift, ret, raise. cbn [files].
  destruct (check_output e _) as [bytes|].
  - destruct (decode bytes); intros H; inversion H; reflexivity.
  - destruct (check_output e _); intros H; inversion H; reflexivity.
Qed.

Lemma update_database_files (e : env) (path : string) (poldic : targets)
    (w w' : world) (r : result unit) :
  update_database e path poldic w = (w', r) -> files w' = files w.
Proof.
  unfold update_database, mbind, run_shell, lift, ret, raise.
  destruct (update_command e path poldic); [|intros H; inversion H; reflexivity].
  cbn [files]. destruct (check_output e _); intros H; inversion H; reflexivity.
Qed.

(** What a run that completes leaves in the configuration file. *)
Lemma main_persists (e : env) (w w' : world) (pol : targets) :
  main e w = (w', Ok pol) ->
  exists w0 cfgdic gfxdic cfgdic' sorted,
    read_config e (config_path (ARGS e)) w = (w0, Ok (cfgdic, gfxdic))
    /\ map fst cfgdic' = map fst cfgdic
    /\ (forall key name, name <> "LASTPOLL" -> name <> "UPTIME" ->
          field cfgdic' key name = field cfgdic key name)
    /\ dict_get (config_path (ARGS e)) (files w')
       = Some (json_dumps (cfgdic', sorted)).
Proof.
  unfold main. destruct (comments (ARGS e)); [discriminate|].
  intros H. mbind_inv H. destruct v as [cfgdic gfxdic].
  mbind_inv H. apply verify_rrd_files in Hv0.
  mbind_inv H. lift_inv Hv1. destruct v0 as [cfg1 pol1].
  mbind_inv H. mbind_inv H. mbind_inv H.
  apply ret_ok in H. destruct H as [-> ->].
  destruct (ping_hosts_keeps _ _ _ _ _ Hv1) as (Hk1 & Hf1).
  destruct (calc_uptime_loop_keeps _ _ _ _ _ _ Hv2) as (_ & Hk2 & Hf2).
  destruct (write_config_ok _ _ _ _ _ _ Hv3) as (sorted & _ & Hfiles).
  apply update_database_files in Hv4.
  exists w0, cfgdic, gfxdic, v0, sorted.
  split; [exact Hv|]. split; [congruence|].
  split.
  - intros key name N1 N2. rewrite Hf2 by exact N2. apply Hf1. exact N1.
  - rewrite Hv4, Hfiles, dict_get_set, String.eqb_refl. reflexivity.
Qed.

Lemma persisted_written (fs : dict text) (path : string) (c : targets) (g : gfxdefs) :
  json_codec ->
  dict_get path fs = Some (json_dumps (c, g)) -> persisted fs path = Some c.
Proof. intros Hj H. unfold persisted. rewrite H, Hj. reflexivity. Qed.

(** C6, as amended.  Of two runs in a row with the same command line,
    both completed, the second leaves in the configuration file the
    targets of the first with every field unchanged but LASTPOLL and
    UPTIME; in particular LASTFAIL is the same, whatever the probes
    printed. *)
Theorem rerun_changes_poll_time_and_uptime_only
    (e1 e2 : env) (w0 w1 w2 : world) (pol1 pol2 : targets) :
  json_codec ->
  ARGS e2 = ARGS e1 ->
  main e1 w0 = (w1, Ok pol1) ->
  main e2 w1 = (w2, Ok pol2) ->
  exists c1 c2,
    persisted (files w1) (config_path (ARGS e1)) = Some c1
    /\ persisted (files w2) (config_path (ARGS e1)) = Some c2
    /\ map fst c2 = map fst c1
    /\ (forall key name, name <> "LASTPOLL" -> name <> "UPTIME" ->
          field c2 key name = field c1 key name)
    /\ forall key, field c2 key "LASTFAIL" = field c1 key "LASTFAIL".
Proof.
  intros Hj Hargs H1 H2.
  destruct (main_persists _ _ _ _ H1) as (wa & cfga & gfxa & c1 & s1 & Hr1 & Hk1 & _ & Hp1).
  destruct (main_persists _ _ _ _ H2) as (wb & cfgb & gfxb & c2 & s2 & Hr2 & Hk2 & Hf2 & Hp2).
  rewrite Hargs in *.
  destruct (read_config_nodup _ _ _ _ _ _ Hr1) as (Hnd & _ & _).
  rewrite <- Hk1 in Hnd.
  pose proof (read_config_loaded _ _ _ _ _ _ _ _ Hj Hp1 Hr2) as Hb.
  rewrite dict_update_nil in Hb by exact Hnd. subst cfgb.
  exists c1, c2.
  split; [eapply persisted_written; eassumption|].
  split; [eapply persisted_written; eassumption|].
  split; [exact Hk2|]. split; [exact Hf2|].
  intros key. apply Hf2; discriminate.
Qed.

End CycleFacts.

(** ** Sorting by step size *)

Lemma insert_by_key_perm {A : Type} (x : Z * A) (l : list (Z * A)) :
  Permutation (x :: l) (insert_by_key x l).
Proof.
  induction l as [|y l IH]; simpl; [apply Permutation_refl|].
  destruct (fst x <=? fst y); [apply Permutation_refl|].
  eapply perm_trans; [apply perm_swap|]. apply perm_skip. exact IH.
Qed.

Lemma sorted_by_key_perm {A : Type} (l : list (Z * A)) :
  Permutation l (sorted_by_key l).
Proof.
  unfold sorted_by_key. induction l as [|x l IH]; simpl; [constructor|].
  eapply perm_trans; [apply perm_skip; exact IH|]. apply insert_by_key_perm.
Qed.

Lemma insert_by_key_sorted {A : Type} (x : Z * A) (l : list (Z * A)) :
  Sorted key_le l -> Sorted key_le (insert_by_key x l).
Proof.
  induction l as [|y l IH]; intros H; simpl.
  - constructor; constructor.
  - destruct (fst x <=? fst y) eqn:E.
    + apply Z.leb_le in E. constructor; [exact H|]. constructor. exact E.
    + apply Z.leb_gt in E. inversion H as [|? ? Hs Hh]; subst.
      constructor; [apply IH; exact Hs|].
      destruct l as [|z l]; simpl.
      * constructor. unfold key_le. lia.
      * destruct (fst x <=? fst z); constructor.
        -- unfold key_le. lia.
        -- inversion Hh; subst. assumption.
Qed.

Lemma sorted_by_key_sorted {A : Type} (l : list (Z * A)) :
  Sorted key_le (sorted_by_key l).
Proof.
  unfold sorted_by_key. induction l as [|x l IH]; simpl; [constructor|].
  apply insert_by_key_sorted. exact IH.
Qed.

Lemma key_le_trans {A : Type} : Relations_1.Transitive (@key_le A).
Proof. intros a b c. unfold key_le. lia. Qed.

Lemma sorted_keys_ascending {A : Type} (l : list (Z * A)) :
  Sorted key_le l -> StronglySorted Z.le (map fst l).
Proof.
  intros H. apply Sorted_StronglySorted in H; [|apply key_le_trans].
  induction H as [|a l Hs IH Hall]; simpl; constructor; [exact IH|].
  rewrite Forall_map. exact Hall.
Qed.

Section Persistence.
Context {U : Unicode} {L : Library}.

Lemma step_keys_spec (g : gfxdefs) (keyed : list (Z * (string * dict string))) :
  step_keys g = Ok keyed ->
  map snd keyed = g
  /\ Forall (fun kx => step_of (snd (snd kx)) = Ok (fst kx)) keyed.
Proof.
  revert keyed. induction g as [|[name d] g IH]; intros keyed H; simpl in H.
  - inversion H; subst. split; [reflexivity | constructor].
  - bind_inv H. bind_inv H. inversion H; subst.
    destruct (IH _ Hv0) as [Hm Hf]. simpl. split; [rewrite Hm; reflexivity|].
    constructor; [exact Hv | exact Hf].
Qed.

Lemma step_keys_rebuild (l : list (Z * (string * dict string))) :
  Forall (fun kx => step_of (snd (snd kx)) = Ok (fst kx)) l ->
  step_keys (map snd l) = Ok l.
Proof.
  induction 1 as [|[k [name d]] l Hx Hl IH]; simpl; [reflexivity|].
  simpl in Hx. rewrite Hx. cbn [bind]. rewrite IH. reflexivity.
Qed.

Lemma dict_get_In {V : Type} (k : string) (v : V) (d : dict V) :
  NoDup (map fst d) -> (dict_get k d = Some v <-> In (k, v) d).
Proof.
  induction d as [|[k0 v0] d IH]; intros Hnd; simpl.
  - split; [discriminate | contradiction].
  - inversion Hnd as [|? ? Hnot Hnd']; subst.
    destruct (String.eqb_spec k0 k) as [->|Hne].
    + split.
      * intros H; inversion H; left; reflexivity.
      * intros [H|H]; [inversion H; reflexivity|].
        contradiction Hnot. apply (in_map fst) in H. exact H.
    + rewrite (IH Hnd'). split; [tauto|].
      intros [H|H]; [inversion H; contradiction | exact H].
Qed.

Lemma dict_get_perm {V : Type} (k : string) (d d' : dict V) :
  NoDup (map fst d) -> Permutation d d' -> dict_get k d' = dict_get k d.
Proof.
  intros Hnd Hp.
  assert (Hnd' : NoDup (map fst d')).
  { eapply Permutation_NoDup; [apply Permutation_map; exact Hp | exact Hnd]. }
  destruct (dict_get k d) as [v|] eqn:E.
  - apply dict_get_In; [exact Hnd'|]. eapply Permutation_in; [exact Hp|].
    apply dict_get_In; assumption.
  - destruct (dict_get k d') as [v'|] eqn:E'; [|reflexivity].
    apply dict_get_In in E'; [|exact Hnd'].
    apply Permutation_sym in Hp. apply (Permutation_in _ Hp) in E'.
    apply dict_get_In in E'; [congruence | exact Hnd].
Qed.

(** C8.  With a JSON codec that reads back what it wrote, reading the
    configuration just written gives the same targets and the same
    graph interval definitions (a permutation of them, with the same
    entry under every name), now in ascending order of step size.  The
    dictionaries have one entry per key, and the definitions are not
    empty, as [read_config] leaves them ([read_config_nodup]). *)
Theorem configuration_round_trip
    (e : env) (path : string) (cfgdic : targets) (gfxdic : gfxdefs)
    (w w' : world) :
  json_codec ->
  NoDup (map fst cfgdic) ->
  NoDup (map fst gfxdic) ->
  gfxdic <> [] ->
  write_config path cfgdic gfxdic w = (w', Ok tt) ->
  exists gfxdic' keyed,
    read_config e path w' = (w', Ok (cfgdic, gfxdic'))
    /\ Permutation gfxdic gfxdic'
    /\ (forall k, dict_get k gfxdic' = dict_get k gfxdic)
    /\ step_keys gfxdic' = Ok keyed
    /\ StronglySorted Z.le (map fst keyed).
Proof.
  intros Hj Hc Hg Hne H.
  destruct (write_config_ok _ _ _ _ _ _ H) as (sorted & Hs & Hfiles).
  unfold gfxprm_sort in Hs. bind_inv Hs. rename v into keyed.
  destruct (step_keys_spec _ _ Hv) as [Hm Hf].
  set (sl := sorted_by_key keyed) in *.
  pose proof (sorted_by_key_perm keyed) as Hp. fold sl in Hp.
  assert (Hperm : Permutation gfxdic (map snd sl)).
  { rewrite <- Hm. apply Permutation_map. exact Hp. }
  assert (Hnd : NoDup (map fst (map snd sl))).
  { eapply Permutation_NoDup; [apply Permutation_map; exact Hperm | exact Hg]. }
  rewrite dict_update_nil in Hs by exact Hnd. inversion Hs; subst sorted.
  exists (map snd sl), sl.
  split.
  - unfold read_config. rewrite Hfiles, dict_get_set, String.eqb_refl, Hj.
    cbn [bind]. rewrite (dict_update_nil cfgdic Hc), (dict_update_nil (map snd sl) Hnd).
    destruct (map snd sl) as [|x rest] eqn:E; [|reflexivity].
    apply Permutation_sym, Permutation_nil in Hperm. contradiction.
  - split; [exact Hperm|]. split.
    + intros k. apply dict_get_perm; assumption.
    + split.
      * apply step_keys_rebuild.
        eapply Permutation_Forall; [exact Hp | exact Hf].
      * apply sorted_keys_ascending. apply sorted_by_key_sorted.
Qed.

End Persistence.

(** ** The claims on concrete runs *)

Section ParserExamples.
#[local] Existing Instance ascii_tables.

Lemma zero_loss_witness :
  exists p,
    parse_ping probe_env known_targets "Cloudflare" ping_success "" = Ok p
    /\ has_header ping_success = true
    /\ loss_percent ping_success = Ok 0
    /\ field p "Cloudflare" "AVAIL" = Some "100"
    /\ field p "Cloudflare" "LASTFAIL" = Some "2019-01-20 08:00:00.000001".
Proof.
  eexists. split; [vm_compute; reflexivity|].
  split; [vm_compute; reflexivity|].
  split; [vm_compute; reflexivity|].
  apply (zero_loss_is_full_availability probe_env known_targets _
           "Cloudflare" ping_success);
    vm_compute; reflexivity.
Defined.


Lemma launch_error_differs_from_total_loss :
  field_of (parse_ping probe_env known_targets "Cloudflare" "" resolver_error)
           "Cloudflare" "AVAIL" = Some "0"
  /\ field_of (parse_ping probe_env known_targets "Cloudflare" ping_all_lost "")
              "Cloudflare" "AVAIL" = Some "0"
  /\ field_of (parse_ping probe_env known_targets "Cloudflare" "" resolver_error)
              "Cloudflare" "IP" = Some "UNKNOWN"
  /\ field_of (parse_ping probe_env known_targets "Cloudflare" ping_all_lost "")
              "Cloudflare" "IP" = Some "1.1.1.1"
  /\ field_of (parse_ping probe_env known_targets "Cloudflare" "" resolver_error)
              "Cloudflare" "TX" = Some "UNKNOWN"
  /\ field_of (parse_ping probe_env known_targets "Cloudflare" ping_all_lost "")
              "Cloudflare" "TX" = Some "5"
  /\ field_of (parse_ping probe_env known_targets "Cloudflare" "" resolver_error)
              "Cloudflare" "RX" = Some "UNKNOWN"
  /\ field_of (parse_ping probe_env known_targets "Cloudflare" ping_all_lost "")
              "Cloudflare" "RX" = Some "0".
Proof. vm_compute. repeat split. Qed.

Lemma launch_error_witness :
  exists p1 p2,
    resolver_error <> ""
    /\ parse_ping probe_env known_targets "Cloudflare" "" resolver_error = Ok p1
    /\ has_header ping_all_lost = true
    /\ loss_percent ping_all_lost = Ok 100
    /\ parse_ping probe_env known_targets "Cloudflare" ping_all_lost "" = Ok p2
    /\ field p1 "Cloudflare" "AVAIL" = field p2 "Cloudflare" "AVAIL"
    /\ field p1 "Cloudflare" "AVGRTT" = field p2 "Cloudflare" "AVGRTT"
    /\ field p1 "Cloudflare" "LASTFAIL" = field p2 "Cloudflare" "LASTFAIL".
Proof.
  assert (Hne : resolver_error <> "") by discriminate.
  eexists. eexists.
  split; [exact Hne|].
  split; [vm_compute; reflexivity|].
  split; [vm_compute; reflexivity|].
  split; [vm_compute; reflexivity|].
  split; [vm_compute; reflexivity|].
  destruct (launch_error_matches_total_loss_but_for_counts probe_env
              known_targets _ _ "Cloudflare" ping_all_lost "" resolver_error Hne
              ltac:(vm_compute; reflexivity) ltac:(vm_compute; reflexivity)
              ltac:(vm_compute; reflexivity) ltac:(vm_compute; reflexivity))
    as (Hsame & _).
  repeat split; apply Hsame; discriminate.
Defined.

Lemma undecodable_stderr_aborts :
  parse_ping probe_env known_targets "Cloudflare" ping_success latin1_error
  = Raise UnicodeDecodeError.
Proof. vm_compute. reflexivity. Qed.

Lemma stderr_witness :
  exists p,
    resolver_error <> ""
    /\ has_header ping_success = true
    /\ loss_percent ping_success = Ok 0
    /\ parse_ping probe_env known_targets "Cloudflare" ping_success resolver_error = Ok p
    /\ field p "Cloudflare" "AVAIL" = Some "0"
    /\ field p "Cloudflare" "AVGRTT" = Some "UNKNOWN"
    /\ field p "Cloudflare" "LASTFAIL" = Some "2019-01-21 10:00:00.000001".
Proof.
  assert (Hne : resolver_error <> "") by discriminate.
  destruct (stderr_marks_the_probe_failed probe_env known_targets
              "Cloudflare" ping_success resolver_error _ Hne
              ltac:(vm_compute; reflexivity) ltac:(vm_compute; reflexivity)
              ltac:(vm_compute; reflexivity))
    as (p & Hp & Ha & _ & _ & _ & _ & Hg & _ & _ & Hl & _).
  exists p.
  split; [exact Hne|].
  split; [vm_compute; reflexivity|].
  split; [vm_compute; reflexivity|].
  split; [exact Hp|].
  split; [exact Ha|]. split; [exact Hg | exact Hl].
Defined.

End ParserExamples.

Section RunExamples.
#[local] Existing Instance ascii_tables.
#[local] Existing Instance value_codec.

(** C1.  The code at a parse failure: on a fresh data directory, when
    every probe prints nothing, the run raises KeyError('AVGRTT') while
    the database update is assembled; the only shell command issued is
    the check of the database file. *)
Theorem silent_probes_abort_the_run :
  snd (main (run_env five_seconds_later "" "") empty_world)
  = Raise (KeyError "AVGRTT")
  /\ issued (fst (main (run_env five_seconds_later "" "") empty_world))
     = ["/usr/bin/rrdtool info /var/mhag/mhag.rrd |/bin/grep index"].
Proof. vm_compute. split; reflexivity. Qed.

Example short_reply_aborts_the_parse :
  parse_ping probe_env known_targets "Cloudflare" "PING 1.1.1.1" "" = Raise IndexError.
Proof. vm_compute. reflexivity. Qed.

Example reply_for_an_address_aborts_the_parse :
  has_header ping_by_address = true
  /\ parse_ping probe_env known_targets "Cloudflare" ping_by_address "" = Raise ValueError.
Proof. vm_compute. split; reflexivity. Qed.

Example header_without_match_is_marked :
  field_of (parse_ping probe_env known_targets "Cloudflare" "PING" "") "Cloudflare" "AVAIL"
  = Some "0".
Proof. vm_compute. reflexivity. Qed.



(** C7.  The code on names that hold 'json' elsewhere than in the
    extension: the configuration 'myjson.json' gets the database
    'myrrd.rrd', and with the data directory '/srv/json' the database
    that [main] verifies is '/srv/json/mhag.rrd' while [update_database]
    writes to '/srv/rrd/mhag.rrd'. *)
Theorem database_path_replaces_every_json :
  config_path args_named_myjson = "/var/mhag/myjson.json"
  /\ database_path args_named_myjson = "/var/mhag/myrrd.rrd"
  /\ config_path args_in_json_directory = "/srv/json/mhag.json"
  /\ database_path args_in_json_directory = "/srv/json/mhag.rrd"
  /\ update_path args_in_json_directory = "/srv/rrd/mhag.rrd".
Proof. vm_compute. repeat split. Qed.

Example default_paths :
  config_path (ARGS probe_env) = "/var/mhag/mhag.json"
  /\ database_path (ARGS probe_env) = "/var/mhag/mhag.rrd"
  /\ update_path (ARGS probe_env) = "/var/mhag/mhag.rrd".
Proof. vm_compute. repeat split. Qed.

Lemma value_codec_round_trip : json_codec.
Proof. intros c. reflexivity. Qed.

Lemma uptime_differs_between_runs :
  is_ok (snd first_run) = true
  /\ is_ok (snd second_run) = true
  /\ option_map (fun c => field c "Cloudflare" "UPTIME")
       (persisted (files (fst first_run)) "/var/mhag/mhag.json")
     = Some (Some "10:00:05 UP (since last ping fail) for 5 seconds.")
  /\ option_map (fun c => field c "Cloudflare" "UPTIME")
       (persisted (files (fst second_run)) "/var/mhag/mhag.json")
     = Some (Some "10:01:05 UP (since last ping fail) for 1 minutes, 5 seconds.").
Proof. vm_compute. repeat split. Qed.

Local Abbreviation run1 :=
  (main (run_env five_seconds_later ping_success "") empty_world).
Local Abbreviation run2 :=
  (main (next_run_env a_minute_later ping_success "") (fst run1)).

Lemma rerun_witness :
  exists c1 c2,
    is_ok (snd run1) = true
    /\ is_ok (snd run2) = true
    /\ persisted (files (fst run1)) "/var/mhag/mhag.json" = Some c1
    /\ persisted (files (fst run2)) "/var/mhag/mhag.json" = Some c2
    /\ map fst c2 = map fst c1
    /\ field c2 "Cloudflare" "LASTFAIL" = field c1 "Cloudflare" "LASTFAIL"
    /\ field c2 "Cloudflare" "FQDN" = field c1 "Cloudflare" "FQDN".
Proof.
  assert (Hok1 : is_ok (snd run1) = true) by (vm_compute; reflexivity).
  assert (Hok2 : is_ok (snd run2) = true) by (vm_compute; reflexivity).
  assert (E1 : run1 = (fst run1, snd run1)) by apply surjective_pairing.
  assert (E2 : run2 = (fst run2, snd run2)) by apply surjective_pairing.
  destruct (snd run1) as [pol1|] eqn:R1; [|discriminate Hok1].
  destruct (snd run2) as [pol2|] eqn:R2; [|discriminate Hok2].
  assert (Ha : ARGS (next_run_env a_minute_later ping_success "")
               = ARGS (run_env five_seconds_later ping_success ""))
    by reflexivity.
  destruct (rerun_changes_poll_time_and_uptime_only _ _ _ _ _ _ _
              value_codec_round_trip Ha E1 E2)
    as (c1 & c2 & H1 & H2 & Hk & Hf & Hl).
  exists c1, c2.
  split; [reflexivity|]. split; [reflexivity|].
  split; [exact H1|]. split; [exact H2|]. split; [exact Hk|].
  split; [apply Hl | apply Hf; discriminate].
Defined.

Lemma round_trip_witness :
  snd (write_config "/var/mhag/mhag.json" known_targets (rev default_gfx) empty_world)
  = Ok tt
  /\ map fst (rev default_gfx) = ["1dx365d"; "2hx28d"; "30mx7d"; "5mx24h"; "1mx12h"]
  /\ map fst default_gfx = ["1mx12h"; "5mx24h"; "30mx7d"; "2hx28d"; "1dx365d"]
  /\ snd (read_config probe_env "/var/mhag/mhag.json"
            (fst (write_config "/var/mhag/mhag.json" known_targets
                    (rev default_gfx) empty_world)))
     = Ok (known_targets, default_gfx)
  /\ Permutation (rev default_gfx) default_gfx.
Proof.
  assert (Hw : snd (write_config "/var/mhag/mhag.json" known_targets
                      (rev default_gfx) empty_world) = Ok tt)
    by (vm_compute; reflexivity).
  assert (Hr : snd (read_config probe_env "/var/mhag/mhag.json"
                      (fst (write_config "/var/mhag/mhag.json" known_targets
                              (rev default_gfx) empty_world)))
               = Ok (known_targets, default_gfx))
    by (vm_compute; reflexivity).
  assert (N1 : NoDup (map fst known_targets)).
  { repeat constructor; simpl; intuition discriminate. }
  assert (N2 : NoDup (map fst (rev default_gfx))).
  { repeat constructor; simpl; intuition discriminate. }
  assert (N3 : rev default_gfx <> []) by discriminate.
  assert (Ew : write_config "/var/mhag/mhag.json" known_targets (rev default_gfx)
                 empty_world
               = (fst (write_config "/var/mhag/mhag.json" known_targets
                         (rev default_gfx) empty_world), Ok tt)).
  { rewrite <- Hw. apply surjective_pairing. }
  destruct (configuration_round_trip probe_env _ _ _ _ _
              value_codec_round_trip N1 N2 N3 Ew)
    as (g' & keyed & Hr' & Hp & _).
  rewrite Hr' in Hr. cbn [snd] in Hr. inversion Hr; subst g'.
  split; [exact Hw|]. split; [reflexivity|]. split; [reflexivity|].
  split; [rewrite Hr'; reflexivity | exact Hp].
Defined.


End RunExamples.


(* ================================================================== *)
(** * More of the run *)

(** ** The parser, field by field *)

Lemma dict_get_update_other {V : Type} (upd d : dict V) (k : string) :
  ~ In k (map fst upd) -> dict_get k (dict_update d upd) = dict_get k d.
Proof.
  unfold dict_update. revert d.
  induction upd as [|[k0 v0] upd IH]; intros d Hk; simpl; [reflexivity|].
  rewrite IH by (intros Hin; apply Hk; right; exact Hin).
  rewrite dict_get_set.
  destruct (String.eqb_spec k0 k) as [->|_]; [|reflexivity].
  contradiction Hk. left. reflexivity.
Qed.

(** A lookup of [name] through updates of literal keys, none of which
    [name] is. *)
Ltac other_field name Hn :=
  cbn [dict_update fold_left fst snd];
  rewrite ?dict_get_set;
  repeat match goal with
         | |- context [String.eqb ?k name] =>
           destruct (String.eqb_spec k name) as [<-|?];
           [exfalso; apply Hn; simpl; tauto|]
         end;
  reflexivity.

Section ParserMore.
Context {U : Unicode}.

Lemma parse_ping_writes (e : env) (poldic poldic' : targets) (key out err : string) :
  parse_ping e poldic key out err = Ok poldic' ->
  poldic' = poldic
  \/ exists tgt tgt',
       dict_get key poldic = Some tgt
       /\ poldic' = dict_set key tgt' poldic
       /\ forall name, ~ In name parsed_fields -> dict_get name tgt' = dict_get name tgt.
Proof.
  unfold parse_ping. intros H. cbv zeta in H. bind_inv H. bind_inv H.
  assert (Hunknown : forall tgt name, ~ In name parsed_fields ->
            dict_get name (dict_update tgt (unknown_fields e)) = dict_get name tgt).
  { intros tgt name Hn. apply dict_get_update_other. exact Hn. }
  destruct (negb (String.eqb err "")).
  { bind_inv H. inversion H; subst. right. exists v1, (dict_update v1 (unknown_fields e)).
    split; [apply subscript_ok; exact Hv1|]. split; [reflexivity|]. apply Hunknown. }
  destruct (contains (u "PING") v); [|inversion H; left; reflexivity].
  destruct (findall tokens_re tokens_groups v) as [|m0 ms] eqn:Em.
  { bind_inv H. inversion H; subst. right. exists v1, (dict_update v1 (unknown_fields e)).
    split; [apply subscript_ok; exact Hv1|]. split; [reflexivity|]. apply Hunknown. }
  bind_inv H. apply subscript_ok in Hv1.
  do 6 bind_inv H.
  right. exists v1.
  destruct (String.eqb v7 "0").
  - injection H as H. eexists. split; [exact Hv1|].
    split; [symmetry; exact H|].
    intros name Hn. other_field name Hn.
  - do 8 bind_inv H. injection H as H. eexists. split; [exact Hv1|].
    split; [symmetry; exact H|].
    intros name Hn. other_field name Hn.
Qed.

(** X5.  parse_ping changes the entry of the target it is given and nothing
    else: the targets stay the same and in the same order, the entries
    of the other targets are untouched, and of the entry itself only
    the nine fields of a poll result can differ. *)
Theorem parse_ping_touches_one_entry
    (e : env) (poldic poldic' : targets) (key out err : string) :
  parse_ping e poldic key out err = Ok poldic' ->
  map fst poldic' = map fst poldic
  /\ (forall k, k <> key -> dict_get k poldic' = dict_get k poldic)
  /\ (forall name, ~ In name parsed_fields ->
        field poldic' key name = field poldic key name).
Proof.
  intros H. destruct (parse_ping_writes _ _ _ _ _ _ H) as [->|(tgt & tgt' & Hk & -> & Hf)].
  - repeat split.
  - split; [eapply keys_touch; exact Hk|]. split.
    + intros k Hne. rewrite dict_get_set.
      destruct (String.eqb_spec key k) as [->|_]; [contradiction Hne; reflexivity | reflexivity].
    + intros name Hn. rewrite field_set, (field_get _ _ _ _ Hk). apply Hf. exact Hn.
Qed.

Lemma match_here_length (r : regex) (n : nat) (s : list codepoint)
    (len : nat) (tuple : list (list codepoint)) :
  match_here r n s = Some (len, tuple) -> List.length tuple = n.
Proof.
  unfold match_here. intros H.
  destruct (rmatch_sound r _ _ _ _ H) as (w & s' & cs' & _ & _ & _ & Hk).
  inversion Hk. rewrite length_map, length_seq. reflexivity.
Qed.

Lemma findall_from_length (r : regex) (n : nat) (s : list codepoint) :
  forall skip tuple,
    In tuple (findall_from r n s skip) -> List.length tuple = n.
Proof.
  induction s as [|c s IH]; intros skip tuple Hin; simpl in Hin; [contradiction|].
  destruct skip as [|k]; [|eapply IH; exact Hin].
  destruct (match_here r n (c :: s)) as [[len t]|] eqn:E; [|eapply IH; exact Hin].
  destruct Hin as [<-|Hin]; [eapply match_here_length; exact E | eapply IH; exact Hin].
Qed.

Lemma item2_inside (m : list (list (list codepoint))) (n i j : nat) :
  (forall tuple, In tuple m -> List.length tuple = n) ->
  (i < List.length m)%nat -> (j < n)%nat ->
  exists t, item2 m i j = Ok t.
Proof.
  intros Hlen Hi Hj. unfold item2, item.
  destruct (nth_error m i) as [tuple|] eqn:Ei;
    [|apply nth_error_None in Ei; lia].
  cbn [bind].
  destruct (nth_error tuple j) as [t|] eqn:Ej; [eauto|].
  apply nth_error_None in Ej. apply nth_error_In in Ei.
  rewrite (Hlen _ Ei) in Ej. lia.
Qed.

Lemma item2_outside (m : list (list (list codepoint))) (i j : nat) :
  (List.length m <= i)%nat -> item2 m i j = Raise IndexError.
Proof.
  intros Hi. unfold item2, item.
  apply nth_error_None in Hi. rewrite Hi. reflexivity.
Qed.

(** X6.  A reply in which the pattern finds some tokens, but fewer than the
    five that lines 349-351 index, ends the parse with IndexError. *)
Theorem reply_with_few_tokens_raises
    (e : env) (poldic : targets) (key out : string) (tgt : sample) :
  has_header out = true ->
  dict_get key poldic = Some tgt ->
  (0 < List.length (matches out) < 5)%nat ->
  parse_ping e poldic key out "" = Raise IndexError.
Proof.
  intros Hh Hk Hlen.
  destruct (has_header_decode _ Hh) as (outs & Hd & Hc).
  assert (Hm : matches out = findall tokens_re tokens_groups outs).
  { unfold matches. unfold decode in Hd.
    destruct (utf8_decode out); inversion Hd; reflexivity. }
  rewrite Hm in Hlen.
  assert (Htup : forall tuple, In tuple (findall tokens_re tokens_groups outs) ->
                   List.length tuple = 10%nat).
  { intros tuple Hin. eapply findall_from_length. exact Hin. }
  unfold parse_ping. rewrite Hd. cbn [bind decode utf8_decode String.eqb negb].
  change (decode "") with (@Ok (list codepoint) []). cbn [bind].
  rewrite Hc.
  set (m := findall tokens_re tokens_groups outs) in *.
  cbv zeta.
  destruct m as [|m0 ms] eqn:Em; [simpl in Hlen; lia|].
  rewrite <- Em in *. clear Em.
  unfold subscript at 1. rewrite Hk. cbn [bind].
  destruct (Nat.le_gt_cases (List.length m) 1) as [L1|L1];
    [rewrite (item2_outside m 1 2 L1); reflexivity|].
  destruct (item2_inside m 10 1 2 Htup L1 ltac:(lia)) as (ip & ->). cbn [bind].
  destruct (Nat.le_gt_cases (List.length m) 2) as [L2|L2];
    [rewrite (item2_outside m 2 3 L2); reflexivity|].
  destruct (item2_inside m 10 2 3 Htup L2 ltac:(lia)) as (tx & ->). cbn [bind].
  destruct (Nat.le_gt_cases (List.length m) 3) as [L3|L3];
    [rewrite (item2_outside m 3 4 L3); reflexivity|].
  destruct (item2_inside m 10 3 4 Htup L3 ltac:(lia)) as (rx & ->). cbn [bind].
  rewrite (item2_outside m 4 5) by lia. reflexivity.
Qed.

End ParserMore.

(** ** Texts read from their end *)

Lemma string_rev_acc_app (s acc : string) :
  string_rev_acc s acc = string_rev s ++ acc.
Proof.
  unfold string_rev. revert acc.
  induction s as [|c s IH]; intros acc; simpl; [reflexivity|].
  rewrite IH, (IH (String c "")), append_assoc. reflexivity.
Qed.

Lemma string_rev_cons (c : ascii) (s : string) :
  string_rev (String c s) = string_rev s ++ String c "".
Proof. unfold string_rev at 1. simpl. apply string_rev_acc_app. Qed.

Lemma append_nil_r (s : string) : s ++ "" = s.
Proof. induction s as [|c s IH]; simpl; [reflexivity | rewrite IH; reflexivity]. Qed.

Lemma string_rev_app (s t : string) :
  string_rev (s ++ t) = string_rev t ++ string_rev s.
Proof.
  induction s as [|c s IH]; simpl.
  - change (string_rev "") with "". rewrite append_nil_r. reflexivity.
  - rewrite !string_rev_cons, IH, append_assoc. reflexivity.
Qed.

Lemma string_rev_involutive (s : string) : string_rev (string_rev s) = s.
Proof.
  induction s as [|c s IH]; [reflexivity|].
  rewrite string_rev_cons, string_rev_app, IH. reflexivity.
Qed.

(** A text whose reversal is known. *)
Lemma string_rev_eq (s r : string) : string_rev s = r -> s = string_rev r.
Proof. intros <-. symmetry. apply string_rev_involutive. Qed.

(** ** The directories and the file names of the command line *)

(** The test of lines 95 and 97 holds of the texts that end in a slash,
    or in a slash and a newline. *)
Lemma search_slash_spec (s : string) :
  search_at_end 0 "/" s = true <->
  exists p, s = p ++ "/" \/ s = p ++ "/" ++ nl.
Proof.
  unfold search_at_end. change (string_rev "/") with "/".
  split.
  - intros H. destruct (string_rev s) as [|c r] eqn:E; [discriminate H|].
    apply string_rev_eq in E. subst s.
    cbn [drop_prefix] in H.
    destruct (Ascii.eqb_spec "/" c) as [<-|Hc].
    + exists (string_rev r). left. apply string_rev_cons.
    + cbn [orb] in H. apply andb_true_iff in H. destruct H as [Hn H].
      apply Ascii.eqb_eq in Hn. subst c.
      destruct r as [|c' r']; [discriminate H|].
      cbn [drop_prefix] in H.
      destruct (Ascii.eqb_spec "/" c') as [<-|]; [|discriminate H].
      exists (string_rev r'). right.
      rewrite !string_rev_cons, append_assoc. reflexivity.
  - intros [p [-> | ->]].
    + rewrite string_rev_app. reflexivity.
    + rewrite !string_rev_app. reflexivity.
Qed.

Lemma with_slash_accepted (dir : string) :
  search_at_end 0 "/" (with_slash dir) = true.
Proof.
  unfold with_slash. destruct (search_at_end 0 "/" dir) eqn:E; [exact E|].
  apply search_slash_spec. exists dir. left. reflexivity.
Qed.

(** X9.  Lines 95-98.  A directory as [main] leaves it ends in a slash, or
    in a slash and a newline when that is how it was given; leaving it
    a second time would change nothing. *)
Theorem with_slash_ends_in_a_slash (dir : string) :
  (exists p, with_slash dir = p ++ "/" \/ with_slash dir = p ++ "/" ++ nl)
  /\ with_slash (with_slash dir) = with_slash dir.
Proof.
  split; [apply search_slash_spec; apply with_slash_accepted|].
  unfold with_slash at 1. rewrite with_slash_accepted. reflexivity.
Qed.

(** X10.  Lines 100-102.  The dot of the pattern [.json$] is any character: a
    name that ends in "json" after any character but a newline is taken
    to have its extension, and is kept as it is. *)
Theorem config_name_takes_any_character_for_the_dot
    (a : args) (stem : string) (c : ascii) :
  c <> ascii_of_nat 10 ->
  cfgfile a = stem ++ String c "json" ->
  config_name a = cfgfile a.
Proof.
  intros Hc Hf. unfold config_name, search_at_end. rewrite Hf.
  rewrite string_rev_app, string_rev_cons.
  change (string_rev "json") with "nosj". cbn [append drop_prefix Ascii.eqb].
  simpl.
  destruct (Ascii.eqb_spec c (ascii_of_nat 10)) as [->|_]; [contradiction Hc; reflexivity|].
  reflexivity.
Qed.

(** ** Replacement in a path *)

Lemma prefix_app_sep (old s t : string) (c : ascii) :
  ~ In c (list_ascii_of_string old) ->
  prefix old (s ++ String c t) = true -> prefix old s = true.
Proof.
  revert s. induction old as [|a old IH]; intros s Hc H; [destruct s; reflexivity|].
  destruct s as [|b s]; simpl in H |- *.
  - destruct (ascii_dec a c) as [->|]; [contradiction Hc; left; reflexivity | discriminate H].
  - destruct (ascii_dec a b); [|discriminate H].
    apply IH; [intros Hin; apply Hc; right; exact Hin | exact H].
Qed.

Lemma replace_from_sep (old new d name : string) (c : ascii) :
  ~ In c (list_ascii_of_string old) ->
  occurs old d = false ->
  replace_from old new (d ++ String c name) 0
  = d ++ String c (replace_from old new name 0).
Proof.
  intros Hc. induction d as [|x d IH]; intros Ho.
  - cbn [append replace_from].
    destruct (prefix old (String c name)) eqn:E; [|reflexivity].
    apply (prefix_app_sep old "" name c Hc) in E.
    simpl in Ho. destruct old; [discriminate Ho | discriminate E].
  - cbn [occurs] in Ho. apply orb_false_iff in Ho. destruct Ho as [Hp Ho].
    cbn [append replace_from].
    destruct (prefix old (String x (d ++ String c name))) eqn:E.
    + apply (prefix_app_sep old (String x d) name c Hc) in E. congruence.
    + rewrite (IH Ho). reflexivity.
Qed.

Lemma occurs_app_l (old p q : string) :
  occurs old (p ++ q) = false -> occurs old p = false.
Proof.
  induction p as [|x p IH]; intros H.
  - simpl. destruct old as [|a old]; [|reflexivity].
    destruct q; discriminate H.
  - cbn [append occurs] in H |- *. apply orb_false_iff in H. destruct H as [Hp Ho].
    rewrite (IH Ho), orb_false_r.
    destruct (prefix old (String x p)) eqn:E; [|reflexivity].
    assert (Hpre : forall o s t, prefix o s = true -> prefix o (s ++ t) = true).
    { clear. induction o as [|a o IHo]; intros s t H; [destruct (s ++ t); reflexivity|].
      destruct s as [|b s]; [discriminate H|]. simpl in H |- *.
      destruct (ascii_dec a b); [apply IHo; exact H | discriminate H]. }
    pose proof (Hpre _ _ q E) as E'. cbn [append] in E'. congruence.
Qed.

Lemma with_slash_without (old dir : string) :
  occurs old dir = false ->
  exists p, occurs old p = false
            /\ (with_slash dir = p ++ "/" \/ with_slash dir = p ++ "/" ++ nl).
Proof.
  intros Ho. unfold with_slash.
  destruct (search_at_end 0 "/" dir) eqn:E.
  - apply search_slash_spec in E. destruct E as [p [E | E]]; exists p;
      (split; [rewrite E in Ho; eapply occurs_app_l; exact Ho|]); [left | right]; exact E.
  - exists dir. split; [exact Ho | left; reflexivity].
Qed.

(** X11.  Lines 105-110 and 375.  When the name of the data directory does
    not contain "json", the database that [update_database] writes to
    is the one that [verify_rrd] has checked. *)
Theorem database_paths_agree (a : args) :
  occurs "json" (datadir a) = false ->
  update_path a = database_path a.
Proof.
  intros Ho.
  unfold update_path, database_path, config_path, replace.
  destruct (with_slash_without "json" (datadir a) Ho) as (p & Hop & Hd).
  assert (Hslash : ~ In "/"%char (list_ascii_of_string "json"))
    by (simpl; intuition discriminate).
  destruct Hd as [-> | ->].
  - replace (String.eqb (p ++ "/") "") with false
      by (destruct p; reflexivity).
    rewrite !append_assoc. cbn [append].
    apply replace_from_sep; assumption.
  - replace (String.eqb (p ++ "/" ++ nl) "") with false
      by (destruct p; reflexivity).
    rewrite !append_assoc. cbn [append nl].
    rewrite replace_from_sep by assumption.
    cbn [replace_from prefix]. reflexivity.
Qed.

(** ** The update command *)

Lemma sub_colon_at_end_colon (repl s : string) :
  sub_colon_at_end repl (s ++ ":") = s ++ repl.
Proof.
  unfold sub_colon_at_end. rewrite string_rev_app.
  change (string_rev ":") with ":". cbn [append Ascii.eqb].
  simpl. rewrite string_rev_involutive. reflexivity.
Qed.

Lemma concat_empty_cons (x : string) (l : list string) :
  String.concat "" (x :: l) = x ++ String.concat "" l.
Proof.
  destruct l as [|y l]; [simpl; rewrite append_nil_r; reflexivity | reflexivity].
Qed.

(** Items each followed by a colon are the items joined by colons, and
    a last colon. *)
Lemma colon_terminated (l : list string) :
  l <> [] ->
  String.concat "" (map (fun x => x ++ ":") l) = String.concat ":" l ++ ":".
Proof.
  induction l as [|x l IH]; intros Hne; [contradiction Hne; reflexivity|].
  cbn [map]. rewrite concat_empty_cons.
  destruct l as [|y l]; [simpl; rewrite append_nil_r; reflexivity|].
  rewrite IH by discriminate.
  change (String.concat ":" (x :: y :: l)) with (x ++ ":" ++ String.concat ":" (y :: l)).
  rewrite !append_assoc. reflexivity.
Qed.

Section UpdateFacts.
Context {U : Unicode} {L : Library}.

Lemma template_names_colons (keys : list string) :
  template_names keys
  = String.concat ""
      (map (fun x => x ++ ":")
           (flat_map (fun t => [t ++ "-AVRTT"; t ++ "-AVAIL"]) keys)).
Proof.
  unfold template_names. induction keys as [|t keys IH]; [reflexivity|].
  cbn [map flat_map app]. rewrite !concat_empty_cons, IH.
  rewrite !append_assoc. reflexivity.
Qed.

Lemma sample_values_colons (poldic : targets) (keys : list string)
    (values : list string) :
  flat_map (fun t => [field poldic t "AVGRTT"; field poldic t "AVAIL"]) keys
  = map Some values ->
  sample_values poldic keys
  = Ok (String.concat "" (map (fun x => x ++ ":") values)).
Proof.
  revert values. induction keys as [|t keys IH]; intros values H.
  - destruct values; [reflexivity | discriminate H].
  - cbn [flat_map app] in H.
    destruct values as [|a [|v values]]; try discriminate H.
    cbn [map] in H. injection H as Ha Hv H.
    cbn [sample_values]. unfold field in Ha, Hv. unfold subscript at 1.
    destruct (dict_get t poldic) as [tgt|]; [|discriminate Ha].
    cbn [bind]. unfold subscript at 1 2. rewrite Ha, Hv. cbn [bind].
    rewrite (IH _ H). cbn [bind map]. rewrite !concat_empty_cons.
    rewrite !append_assoc. reflexivity.
Qed.

(** X8.  Lines 375-384.  With a reading for every target, the command names
    the two data sources of each target in the order of the target
    names, stamps the update with the time the module was loaded, and
    lists the readings in the same order. *)
Theorem update_command_pairs_names_and_readings
    (e : env) (path : string) (poldic : targets) (values : list string) :
  poldic <> [] ->
  update_values poldic = map Some values ->
  update_command e path poldic
  = Ok (RRDTOOL ++ " update " ++ replace "json" "rrd" path ++ " --template "
          ++ String.concat ":" (update_names poldic) ++ " "
          ++ STR_EPOCTIME e ++ ":" ++ String.concat ":" values).
Proof.
  intros Hne Hv. unfold update_command, update_values, update_names in *.
  assert (Hk : sorted_keys poldic <> []).
  { destruct poldic as [|[k v] d]; [contradiction Hne; reflexivity|].
    unfold sorted_keys. cbn [map fold_right].
    destruct (fold_right insert_sorted [] (map fst d)); simpl; [discriminate|].
    destruct (String.leb k s); discriminate. }
  rewrite (sample_values_colons _ _ _ Hv). cbn [bind]. f_equal.
  assert (Hvals : values <> []).
  { destruct (sorted_keys poldic); [contradiction Hk; reflexivity|].
    destruct values; [discriminate Hv | discriminate]. }
  rewrite template_names_colons.
  rewrite (colon_terminated (flat_map _ (sorted_keys poldic))).
  2:{ destruct (sorted_keys poldic); [contradiction Hk; reflexivity | discriminate]. }
  rewrite (colon_terminated values Hvals).
  repeat rewrite <- append_assoc.
  rewrite sub_colon_at_end_colon.
  repeat rewrite <- append_assoc.
  rewrite sub_colon_at_end_colon.
  repeat rewrite append_assoc. rewrite append_nil_r. reflexivity.
Qed.

End UpdateFacts.

(** ** The configuration file *)

Lemma dict_update_nonempty {V : Type} (upd d : dict V) :
  d <> [] -> dict_update d upd <> [].
Proof.
  unfold dict_update. revert d.
  induction upd as [|[k v] upd IH]; intros d Hd; simpl; [exact Hd|].
  apply IH. destruct d as [|[k0 v0] d]; [contradiction Hd; reflexivity|].
  simpl. destruct (String.eqb k0 k); discriminate.
Qed.

Section ConfigFacts.
Context {U : Unicode} {L : Library}.



(** X13.  Lines 157-163, 176 and 195.  A configuration file that
    holds graph definitions is only read: nothing is written. *)
Theorem read_config_only_reads_a_complete_file
    (e : env) (path : string) (w : world) (t : text)
    (c : targets) (g : gfxdefs) :
  dict_get path (files w) = Some t ->
  json_load t = Ok (c, g) ->
  g <> [] ->
  read_config e path w = (w, Ok (dict_update [] c, dict_update [] g)).
Proof.
  intros Hf Hl Hg. unfold read_config. rewrite Hf, Hl. cbn [bind].
  destruct (dict_update [] g) as [|x g'] eqn:E; [|reflexivity].
  exfalso. destruct g as [|[k v] g]; [contradiction Hg; reflexivity|].
  unfold dict_update in E. cbn [fold_left dict_set fst snd] in E.
  revert E. apply (dict_update_nonempty g [(k, v)]). discriminate.
Qed.

End ConfigFacts.

(** ** The uptime at its edges *)

(** X14.  Lines 250-263.  What the uptime calls a day is a block of twelve
    hours, and a text that stops at a unit other than the seconds keeps
    the comma of that unit: a last failure exactly [n] half days ago
    reads "n days, .". *)
Theorem half_days_are_counted_as_days (t1 t2 lastfail : datetime) (n : Z) :
  0 < n ->
  abs_delta t2 lastfail = n * 43200 * 1000000 ->
  uptime_text t1 t2 lastfail
  = Ok (strftime_HMS t1 ++ " UP (since last ping fail) for "
          ++ str_of_Z n ++ " days, " ++ ".").
Proof.
  intros Hn Hd.
  destruct (uptime_text_by_units t1 t2 lastfail) as (T & HT & _ & ->).
  pose proof (abs_delta_range t2 lastfail) as Hr. rewrite Hd in HT, Hr.
  unfold total_seconds in HT.
  rewrite (round_float_int (n * 43200) 1000000) in HT.
  2:{ unfold max_us in Hr. lia. }
  2:{ lia. }
  injection HT as <-.
  unfold uptime_spec. f_equal.
  pose proof funit_pos as Hf.
  replace (n * 43200 * funit / funit) with (n * 43200) by (symmetry; apply Z.div_mul; lia).
  replace (n * 43200 / 43200) with n by (symmetry; apply Z.div_mul; lia).
  replace (n * 43200 / 3600) with (n * 12)
    by (replace (n * 43200) with (n * 12 * 3600) by lia; symmetry; apply Z.div_mul; lia).
  replace (n * 43200 / 60) with (n * 720)
    by (replace (n * 43200) with (n * 720 * 60) by lia; symmetry; apply Z.div_mul; lia).
  rewrite Z.mod_mul by lia.
  replace (n * 720) with (n * 12 * 60) by lia. rewrite Z.mod_mul by lia.
  replace (n * 43200 * funit) with (n * 720 * (60 * funit)) by lia.
  rewrite Z.mod_mul by lia.
  unfold unit_spec.
  destruct (Z.eqb_spec n 0) as [->|_]; [lia|].
  cbn [Z.eqb]. cbv iota. rewrite ?append_assoc. cbn [append]. reflexivity.
Qed.

(** ** The last half second of a minute *)

Lemma log2_between (a l : Z) : 0 <= l -> 2 ^ l <= a < 2 ^ (l + 1) -> Z.log2 a = l.
Proof. intros Hl H. apply Z.log2_unique; [exact Hl | exact H]. Qed.

(** The float of a number of seconds between 59.5 and 60. *)
Lemma total_seconds_last_half_second (us : Z) :
  59500000 <= us < 60000000 ->
  exists m, total_seconds us = Fin (m * 2 ^ 1027)
            /\ 119 * 2 ^ 46 <= m < 60 * 2 ^ 47.
Proof.
  intros Hus. unfold total_seconds, round_float.
  destruct (Z.eqb_spec us 0) as [E|_]; [lia|].
  assert (Hl : floor_log2 us 1000000 = 5).
  { unfold floor_log2.
    rewrite (log2_between us 25) by (change (2 ^ 25) with 33554432;
      change (2 ^ (25 + 1)) with 67108864; lia).
    change (Z.log2 1000000) with 19. change (25 - 19) with 6.
    change (0 <=? 6) with true. cbv iota.
    change (1000000 * 2 ^ 6) with 64000000.
    destruct (Z.ltb_spec us 64000000); [reflexivity | lia]. }
  rewrite Hl. change (Z.max (5 - 52) (-1074)) with (-47).
  change (0 <=? -47) with false. cbv iota zeta.
  change (- -47) with 47. change (-47 + 1074) with 1027.
  set (m := round_half_even (us * 2 ^ 47) 1000000).
  assert (Hm : 119 * 2 ^ 46 <= m < 60 * 2 ^ 47).
  { pose proof (round_half_even_bounds (us * 2 ^ 47) 1000000 ltac:(lia)) as Hb.
    fold m in Hb.
    assert (H1 : 119 * 2 ^ 46 <= us * 2 ^ 47 / 1000000).
    { apply Z.div_le_lower_bound; [lia|].
      change (2 ^ 47) with (2 * 2 ^ 46). change (2 ^ 46) with 70368744177664. lia. }
    assert (H2 : us * 2 ^ 47 / 1000000 < 60 * 2 ^ 47 - 1).
    { apply Z.div_lt_upper_bound; [lia|].
      change (2 ^ 47) with 140737488355328. lia. }
    lia. }
  exists m. split; [|exact Hm].
  destruct (Z.ltb_spec (m * 2 ^ 1027) (2 ^ 2098)) as [_|Hbig]; [reflexivity|].
  exfalso.
  assert (m * 2 ^ 1027 < 2 ^ 53 * 2 ^ 1027).
  { apply Z.mul_lt_mono_pos_r; [apply Z.pow_pos_nonneg; lia|].
    change (2 ^ 53) with 9007199254740992. change (2 ^ 47) with 140737488355328 in Hm. lia. }
  rewrite <- Z.pow_add_r in H by lia.
  assert (2 ^ (53 + 1027) <= 2 ^ 2098) by (apply Z.pow_le_mono_r; lia).
  lia.
Qed.

(** X15.  Lines 251 and 261-262.  The seconds are rounded on their own, after
    the minutes were taken out: from half a second before the minute is
    full the uptime reads "60 seconds". *)
Theorem last_half_second_reads_sixty_seconds (t1 t2 lastfail : datetime) :
  59500000 <= abs_delta t2 lastfail < 60000000 ->
  uptime_text t1 t2 lastfail
  = Ok (strftime_HMS t1 ++ " UP (since last ping fail) for " ++ "60 seconds" ++ ".").
Proof.
  intros Hd.
  destruct (uptime_text_by_units t1 t2 lastfail) as (T & HT & _ & ->).
  destruct (total_seconds_last_half_second _ Hd) as (m & Hm & Hlo & Hhi).
  assert (Hf : funit = 2 ^ 47 * 2 ^ 1027)
    by (unfold funit; rewrite <- Z.pow_add_r by lia; reflexivity).
  assert (Hp : 0 < 2 ^ 1027) by (apply Z.pow_pos_nonneg; lia).
  remember (2 ^ 1027) as p eqn:Ep. clear Ep.
  rewrite Hm in HT. injection HT as <-.
  unfold uptime_spec. f_equal.
  assert (Hq : m * p / funit = 59).
  { symmetry. apply Z.div_unique with (r := (m - 59 * 2 ^ 47) * p); [|rewrite Hf; ring].
    left. rewrite Hf. split; [nia|].
    apply Z.mul_lt_mono_pos_r; [exact Hp|].
    change (2 ^ 47) with 140737488355328 in *. lia. }
  assert (Hs : (m * p) mod (60 * funit) = m * p).
  { apply Z.mod_small. rewrite Hf. split; [nia|].
    replace (60 * (2 ^ 47 * p)) with (60 * 2 ^ 47 * p) by ring.
    apply Z.mul_lt_mono_pos_r; [exact Hp | exact Hhi]. }
  rewrite Hq, Hs.
  change (59 / 43200) with 0. change ((59 / 3600) mod 12) with 0.
  change ((59 / 60) mod 60) with 0.
  unfold unit_spec. cbn [Z.eqb]. cbv iota.
  destruct (Z.eqb_spec (m * p) 0) as [E|_]; [nia|].
  assert (Hr : round_half_even (m * p) funit = 60).
  { unfold round_half_even. rewrite Hq.
    assert (Hmod : (m * p) mod funit = (m - 59 * 2 ^ 47) * p).
    { symmetry. apply Z.mod_unique with (q := 59); [|rewrite Hf; ring].
      left. rewrite Hf. split; [nia|].
      apply Z.mul_lt_mono_pos_r; [exact Hp|].
      change (2 ^ 47) with 140737488355328 in *. lia. }
    rewrite Hmod, Hf.
    change (Z.even 59) with false.
    change (2 ^ 47) with 140737488355328 in *.
    change (2 ^ 46) with 70368744177664 in *.
    destruct (Z.ltb_spec (2 * ((m - 59 * 140737488355328) * p)) (140737488355328 * p)) as [H|H];
      [nia|].
    destruct (Z.ltb_spec (140737488355328 * p) (2 * ((m - 59 * 140737488355328) * p)));
      reflexivity. }
  rewrite Hr. reflexivity.
Qed.

(** ** The poll *)

Section PollFacts.
Context {U : Unicode}.

(** The processes started are those of the keys, in their order. *)
Lemma spawn_keys (e : env) (keys : list string) :
  forall (poldic poldic' : targets) pids,
    spawn e keys poldic = Ok (poldic', pids) -> map fst pids = keys.
Proof.
  induction keys as [|t keys IH]; intros poldic poldic' pids H; simpl in H.
  - inversion H. reflexivity.
  - do 5 bind_inv H. destruct v3 as [p ps]. inversion H; subst.
    simpl. f_equal. eapply IH. exact Hv3.
Qed.

Lemma collect_needs_lastfail (e : env) (t : string)
    (pids : list (string * (string * string))) :
  In t (map fst pids) ->
  forall cfgdic poldic : targets,
    field cfgdic t "LASTFAIL" = None ->
    is_ok (collect e pids cfgdic poldic) = false.
Proof.
  induction pids as [|[t0 [output errors]] pids IH]; intros Hin cfgdic poldic Hf;
    [contradiction|].
  cbn [collect].
  destruct (parse_ping e poldic t0 output errors) as [pol1|]; [|reflexivity].
  cbn [bind]. unfold subscript at 1.
  destruct (dict_get t0 cfgdic) as [ctgt|] eqn:Ec; [|reflexivity].
  cbn [bind]. destruct (subscript t0 pol1) as [ptgt|]; [|reflexivity].
  cbn [bind]. unfold subscript at 1. rewrite dict_get_set, String.eqb_refl.
  cbn [bind]. unfold subscript at 1. rewrite dict_get_set.
  change (String.eqb "LASTPOLL" "LASTFAIL") with false. cbv iota.
  destruct (dict_get "LASTFAIL" ctgt) as [lf|] eqn:El; [|reflexivity].
  cbn [bind].
  destruct (String.eqb_spec t0 t) as [->|Hne].
  - unfold field in Hf. rewrite Ec in Hf. congruence.
  - destruct Hin as [E|Hin]; [contradiction Hne; exact E|].
    apply IH; [exact Hin|].
    rewrite (field_touch cfgdic t0 "LASTPOLL" (STR_DATETIME e) t "LASTFAIL" ctgt Ec);
      [exact Hf | discriminate].
Qed.

(** X16.  Lines 286-306.  Every target of the configuration must carry a
    LASTFAIL: ping_hosts reads it for its debugging output, whether
    debugging is on or not, and a target without one ends the run with
    an exception before anything is written. *)
Theorem a_target_without_lastfail_stops_the_poll
    (e : env) (cfgdic poldic : targets) (t : string) :
  In t (map fst poldic) ->
  field cfgdic t "LASTFAIL" = None ->
  is_ok (ping_hosts e cfgdic poldic) = false.
Proof.
  intros Hin Hf. unfold ping_hosts.
  destruct (spawn e (sorted_keys poldic) poldic) as [[pol1 pids]|] eqn:Es; [|reflexivity].
  cbn [bind]. apply collect_needs_lastfail with (t := t); [|exact Hf].
  rewrite (spawn_keys _ _ _ _ _ Es). apply In_sorted_keys. exact Hin.
Qed.

Lemma collect_stamps (e : env) (pids : list (string * (string * string))) :
  forall cfgdic poldic cfgdic' poldic' : targets,
    collect e pids cfgdic poldic = Ok (cfgdic', poldic') ->
    forall t,
      (In t (map fst pids) -> field cfgdic' t "LASTPOLL" = Some (STR_DATETIME e))
      /\ (field cfgdic t "LASTPOLL" = Some (STR_DATETIME e) ->
          field cfgdic' t "LASTPOLL" = Some (STR_DATETIME e)).
Proof.
  induction pids as [|[t0 [output errors]] pids IH];
    intros cfgdic poldic cfgdic' poldic' H t.
  - simpl in H. inversion H; subst. split; [contradiction | tauto].
  - cbn [collect] in H. do 5 bind_inv H.
    apply subscript_ok in Hv0.
    destruct (IH _ _ _ _ H t) as [IH1 IH2].
    assert (Hset : field (dict_set t0 (dict_set "LASTPOLL" (STR_DATETIME e) v0) cfgdic)
                     t0 "LASTPOLL" = Some (STR_DATETIME e)).
    { rewrite field_set, dict_get_set. reflexivity. }
    split.
    + intros [<-|Hin]; [apply IH2; exact Hset | apply IH1; exact Hin].
    + intros Hold. apply IH2.
      destruct (String.eqb_spec t0 t) as [->|Hne]; [exact Hset|].
      unfold field. rewrite dict_get_set.
      destruct (String.eqb_spec t0 t) as [E|_]; [contradiction Hne; exact E|].
      exact Hold.
Qed.

(** X17.  Lines 286-295.  A poll that completes has stamped every target it
    polled with the time of the run. *)
Theorem a_completed_poll_stamps_every_target
    (e : env) (cfgdic poldic cfgdic' poldic' : targets) (t : string) :
  ping_hosts e cfgdic poldic = Ok (cfgdic', poldic') ->
  In t (map fst poldic) ->
  field cfgdic' t "LASTPOLL" = Some (STR_DATETIME e).
Proof.
  unfold ping_hosts. intros H Hin. bind_inv H. destruct v as [pol1 pids].
  destruct (collect_stamps _ _ _ _ _ _ H t) as [Hpolled _]. apply Hpolled.
  rewrite (spawn_keys _ _ _ _ _ Hv). apply In_sorted_keys. exact Hin.
Qed.

End PollFacts.

(** ** A run that stops at the poll *)

Section RunFacts.
Context {U : Unicode} {L : Library}.

(** X22.  Lines 116-136.  A run whose poll does not complete persists
    nothing: it ends with an exception where verify_rrd left it, the
    configuration file as read_config left it, with no update of the
    database. *)
Theorem a_failed_poll_persists_nothing
    (e : env) (w w0 : world) (cfg : targets) (gfx : gfxdefs) :
  comments (ARGS e) = false ->
  read_config e (config_path (ARGS e)) w = (w0, Ok (cfg, gfx)) ->
  is_ok (ping_hosts e cfg cfg) = false ->
  is_ok (snd (main e w)) = false
  /\ fst (main e w) = fst (verify_rrd e (database_path (ARGS e)) cfg w0)
  /\ files (fst (main e w)) = files w0.
Proof.
  intros Hc Hr Hp.
  assert (Hm : exists ex,
             main e w = (fst (verify_rrd e (database_path (ARGS e)) cfg w0),
                         Raise ex)).
  { unfold main. rewrite Hc. unfold mbind at 1. rewrite Hr. unfold mbind at 1.
    destruct (verify_rrd e (database_path (ARGS e)) cfg w0) as [w1 [x|ex]];
      cbn [fst].
    - unfold mbind at 1, lift.
      destruct (ping_hosts e cfg cfg) as [[c p]|ex]; [discriminate Hp|].
      exists ex. reflexivity.
    - exists ex. reflexivity. }
  destruct Hm as (ex & ->). cbn [fst snd is_ok].
  split; [reflexivity|]. split; [reflexivity|].
  destruct (verify_rrd e (database_path (ARGS e)) cfg w0) as [w1 r] eqn:Ev.
  exact (verify_rrd_files _ _ _ _ _ _ Ev).
Qed.

End RunFacts.


(* ================================================================== *)
(** * The report *)

Lemma gbind_done {A B : Type} (m : G A) (f : A -> G B) (s s' : site) (b : B) :
  gbind m f s = (s', Done b) ->
  exists s1 a, m s = (s1, Done a) /\ f a s1 = (s', Done b).
Proof.
  unfold gbind. destruct (m s) as [s1 [a|x]]; intros H; [eauto | discriminate].
Qed.

Lemma of_result_done {A : Type} (r : result A) (s s' : site) (a : A) :
  of_result r s = (s', Done a) -> s' = s /\ r = Ok a.
Proof.
  unfold of_result. destruct r; intros H; inversion H; split; reflexivity.
Qed.

Lemma of_outcome_done {A : Type} (o : outcome A) (s s' : site) (a : A) :
  of_outcome o s = (s', Done a) -> s' = s /\ o = Done a.
Proof. unfold of_outcome. intros H. inversion H. split; reflexivity. Qed.

Lemma pure_done {A : Type} (a b : A) (s s' : site) :
  pure a s = (s', Done b) -> s' = s /\ b = a.
Proof. unfold pure. intros H. inversion H. split; reflexivity. Qed.

(** One step of a computation that completed. *)
Ltac g_step H :=
  let s := fresh "s" in
  let a := fresh "v" in
  let Ha := fresh "Hs" in
  apply gbind_done in H; destruct H as (s & a & Ha & H);
  first [ apply of_result_done in Ha; destruct Ha as [-> Ha]
        | apply of_outcome_done in Ha; destruct Ha as [-> Ha]
        | idtac ].

(** ** Dictionaries, again *)

Lemma Forall_dict_set {V : Type} (Q : V -> Prop) (k : string) (v : V) (d : dict V) :
  Forall (fun kv => Q (snd kv)) d -> Q v ->
  Forall (fun kv => Q (snd kv)) (dict_set k v d).
Proof.
  intros Hd Hv. induction d as [|[k0 v0] d IH]; simpl.
  - constructor; [exact Hv | constructor].
  - inversion Hd; subst. destruct (String.eqb k0 k); constructor; auto.
Qed.

Lemma Forall_dict_get {V : Type} (Q : V -> Prop) (k : string) (v : V) (d : dict V) :
  Forall (fun kv => Q (snd kv)) d -> dict_get k d = Some v -> Q v.
Proof.
  intros Hd. induction d as [|[k0 v0] d IH]; simpl; [discriminate|].
  inversion Hd; subst. destruct (String.eqb k0 k); [|auto].
  intros E. inversion E; subst. assumption.
Qed.

Lemma dict_set_twice {V : Type} (k : string) (v v' : V) (d : dict V) :
  dict_set k v (dict_set k v' d) = dict_set k v d.
Proof.
  induction d as [|[k0 v0] d IH]; simpl.
  - rewrite String.eqb_refl. reflexivity.
  - destruct (String.eqb k0 k) eqn:E; simpl; rewrite E; [reflexivity|].
    rewrite IH. reflexivity.
Qed.

Lemma In_dict_set {V : Type} (x : string * V) (k : string) (v : V) (d : dict V) :
  In x (dict_set k v d) -> x = (k, v) \/ In x d.
Proof.
  induction d as [|[k0 v0] d IH]; simpl.
  - intros [<-|[]]. left. reflexivity.
  - destruct (String.eqb_spec k0 k) as [->|_]; simpl.
    + intros [<-|Hin]; [left; reflexivity | right; right; exact Hin].
    + intros [<-|Hin]; [right; left; reflexivity|].
      destruct (IH Hin) as [E|Hd]; [left; exact E | right; right; exact Hd].
Qed.

Lemma dict_del_incl {V : Type} (k : string) (d : dict V) : incl (dict_del k d) d.
Proof.
  induction d as [|[k0 v0] d IH]; simpl; [apply incl_refl|].
  destruct (String.eqb k0 k); [apply incl_tl, incl_refl|].
  apply incl_cons; [left; reflexivity | apply incl_tl; exact IH].
Qed.

Lemma dict_del_keys {V : Type} (k x : string) (d : dict V) :
  In x (map fst (dict_del k d)) -> In x (map fst d).
Proof.
  intros H. apply in_map_iff in H. destruct H as ([x0 v] & <- & Hin).
  apply in_map_iff. exists (x0, v). split; [reflexivity|].
  apply (dict_del_incl k d). exact Hin.
Qed.

Lemma dict_del_nodup {V : Type} (k : string) (d : dict V) :
  NoDup (map fst d) ->
  NoDup (map fst (dict_del k d)) /\ ~ In k (map fst (dict_del k d)).
Proof.
  induction d as [|[k0 v0] d IH]; simpl; intros Hnd; [split; [constructor | tauto]|].
  inversion Hnd; subst.
  destruct (String.eqb_spec k0 k) as [->|Hne]; [split; assumption|].
  destruct (IH H2) as [Hn Hk]. simpl. split.
  - constructor; [|exact Hn]. intros Hin. apply H1. eapply dict_del_keys. exact Hin.
  - intros [E|Hin]; [contradiction Hne; exact E | contradiction].
Qed.

Lemma dict_get_del_other {V : Type} (k k' : string) (d : dict V) :
  k <> k' -> dict_get k' (dict_del k d) = dict_get k' d.
Proof.
  intros Hne. induction d as [|[k0 v0] d IH]; simpl; [reflexivity|].
  destruct (String.eqb_spec k0 k) as [->|Hk]; simpl.
  - destruct (String.eqb_spec k k') as [E|_]; [contradiction | reflexivity].
  - rewrite IH. reflexivity.
Qed.

Lemma cell_of_set (d : polling) (t key name : string) (tgt : dict cell) :
  cell_of (dict_set t tgt d) key name
  = if String.eqb t key then dict_get name tgt else cell_of d key name.
Proof.
  unfold cell_of. rewrite dict_get_set. destruct (String.eqb t key); reflexivity.
Qed.

Lemma within_here (a b rest : string) : within (a ++ b ++ rest) (a ++ b).
Proof. exists "", rest. cbn [append]. rewrite append_assoc. reflexivity. Qed.

Lemma within_right (s rest part : string) :
  within rest part -> within (s ++ rest) part.
Proof.
  intros (b & a & ->). exists (s ++ b), a. rewrite append_assoc. reflexivity.
Qed.

Lemma within_left (s rest part : string) :
  within s part -> within (s ++ rest) part.
Proof.
  intros (b & a & ->). exists b, (a ++ rest). rewrite !append_assoc. reflexivity.
Qed.

(** Looks for the part among the texts that a page is made of. *)
Ltac find_part :=
  first [ apply within_here | apply within_right; find_part ].

Section ReportFacts.
Context {U : Unicode} {P : Platform}.

(** A loop that completes has established, of the keys it went through,
    what each turn of its body establishes. *)
Lemma for_each_done {S : Type} (Q : list string -> S -> site -> Prop)
    (body : string -> S -> G S) (keys : list string) :
  (forall seen k s st s' st',
     In k keys -> Q seen s st -> body k s st = (st', Done s') ->
     Q (seen ++ [k])%list s' st') ->
  forall seen s st s' st',
    Q seen s st -> for_each keys body s st = (st', Done s') ->
    Q (seen ++ keys)%list s' st'.
Proof.
  induction keys as [|k keys IH]; intros Hbody seen s st s' st' HQ H.
  - apply pure_done in H. destruct H as [-> ->]. rewrite app_nil_r. exact HQ.
  - cbn [for_each] in H. g_step H.
    replace (seen ++ k :: keys)%list with ((seen ++ [k]) ++ keys)%list
      by (rewrite <- app_assoc; reflexivity).
    eapply IH; [|eapply Hbody; [left; reflexivity|eassumption..]|exact H].
    intros seen0 k0 s1 st1 s1' st1' Hin. apply Hbody. right. exact Hin.
Qed.

(** The same of the two nested loops of a pass of gen_graphs. *)
Lemma every_graph_done (Q : list (string * string) -> polling -> site -> Prop)
    (names : list string) (body : string -> string -> polling -> G polling) :
  (forall seen t i pol st pol' st',
     In i names -> Q seen pol st -> body t i pol st = (st', Done pol') ->
     Q (seen ++ [(t, i)])%list pol' st') ->
  forall pol st pol' st',
    Q [] pol st -> every_graph names body pol st = (st', Done pol') ->
    Q (pairs (sorted_keys pol) names) pol' st'.
Proof.
  intros Hbody pol st pol' st' HQ H. unfold every_graph in H.
  apply (for_each_done (fun seen => Q (pairs seen names)) _ _) with (seen := [])
    in H; [exact H | | exact HQ].
  intros seen t pol1 st1 pol1' st1' _ HQ1 H1.
  unfold pairs. rewrite flat_map_app. cbn [flat_map]. rewrite app_nil_r.
  apply (for_each_done (fun seen_i => Q (pairs seen names ++ map (pair t) seen_i)%list)
           _ _) with (seen := []) in H1; [exact H1 | | rewrite app_nil_r; exact HQ1].
  intros seen_i i pol2 st2 pol2' st2' Hin HQ2 H2.
  rewrite map_app, app_assoc. eapply Hbody; eassumption.
Qed.

Lemma concat_empty_app (l1 l2 : list string) :
  String.concat "" (l1 ++ l2) = String.concat "" l1 ++ String.concat "" l2.
Proof.
  induction l1 as [|x l1 IH]; [reflexivity|].
  cbn [app]. rewrite !concat_empty_cons, IH, append_assoc. reflexivity.
Qed.

(** What gen_html_index has done when it completes: a page closed for
    each target, in the order of the target names, then the index with
    a row for each of them. *)
Lemma gen_html_index_written (e : env) (poldic : polling) (gfxdic : gfxdefs)
    (st st' : site) (x : unit) :
  gen_html_index e poldic gfxdic st = (st', Done x) ->
  exists d sorted,
    plus_minute (utcnow (clock st)) = Ok d
    /\ gfxprm_sort gfxdic = Ok sorted
    /\ written st'
       = (html_dir e ++ "/" ++ "mhag.html",
          index_top (expires d)
            ++ String.concat "" (map index_row (sorted_keys poldic))
            ++ index_bottom)
         :: (rev (map (fun t => (page_path e t,
                                 target_page (expires d) t (map fst sorted)))
                      (sorted_keys poldic))
             ++ written st)%list
    /\ spawned st' = spawned st.
Proof.
  unfold gen_html_index. intros H.
  g_step H. injection Hs as <-.
  g_step H. rename v into d, Hs into Hd.
  g_step H. rename v into sorted, Hs into Hsorted.
  g_step H. rename Hs into Hv. unfold close in H. inversion H; subst st'; clear H.
  exists d, sorted. split; [assumption|]. split; [assumption|].
  cbn [written spawned].
  set (st1 := {| clock := S (clock st); spawned := spawned st; written := written st |}) in *.
  pose (Q := fun (seen : list string) (idx : string) (s : site) =>
               idx = index_top (expires d) ++ String.concat "" (map index_row seen)
               /\ written s
                  = (rev (map (fun t => (page_path e t,
                                         target_page (expires d) t (map fst sorted)))
                              seen) ++ written st)%list
               /\ spawned s = spawned st).
  assert (HQ : Q ([] ++ sorted_keys poldic)%list v s).
  { eapply (for_each_done Q); [| |exact Hv].
    - intros seen k idx s1 idx' s1' _ (Hi & Hw & Hs) Hb.
      g_step Hb. clear Hs0.
      apply pure_done in Hb. destruct Hb as [-> ->].
      unfold Q. cbn [written spawned].
      rewrite !map_app, rev_app_distr, concat_empty_app, Hi, Hw, Hs.
      cbn [map rev app String.concat].
      rewrite !append_assoc. repeat split.
    - unfold Q. cbn [map rev app String.concat]. rewrite append_nil_r. repeat split. }
  destruct HQ as (Hi & Hw & Hs). cbn [app] in *.
  rewrite Hi, Hw, Hs, !append_assoc. split; reflexivity.
Qed.

(** One turn of the first pass: the entry of the target gets the path
    of the graph and the process that draws it, and the command of that
    process has been started. *)
Lemma spawn_graph_done (e : env) (gfxdic : gfxdefs) (t i : string)
    (pol pol' : polling) (st st' : site) :
  spawn_graph e gfxdic t i pol st = (st', Done pol') ->
  exists tgt out err cmd,
    dict_get t pol = Some tgt
    /\ pol' = dict_set t
                (dict_set i (Process out err)
                   (dict_set ("graph-" ++ i) (Text (graph_file e t i)) tgt)) pol
    /\ spawned st' = cmd :: spawned st
    /\ drawn cmd = graph_file e t i
    /\ written st' = written st.
Proof.
  unfold spawn_graph, build_graph_command. intros H.
  g_step H. destruct v as [pol1 cmd].
  g_step Hs. injection Hs0 as <-.
  g_step Hs. apply subscript_ok in Hs0. rename v into tgt.
  do 10 g_step Hs.
  apply pure_done in Hs. destruct Hs as [-> Hs]. inversion Hs; subst pol1 cmd; clear Hs.
  g_step H. destruct v9 as [out err].
  unfold start in Hs. destruct (popen e _) as [p|]; [|discriminate Hs].
  injection Hs as Es Ep. subst s p.
  g_step H. apply subscript_ok in Hs.
  rewrite dict_get_set, String.eqb_refl in Hs. injection Hs as <-.
  apply pure_done in H. destruct H as [-> ->].
  exists tgt, out, err. eexists.
  split; [exact Hs0|]. split; [apply dict_set_twice|].
  cbn [spawned written]. repeat split.
Qed.

Lemma quiet_graph_done (body : string -> string -> polling -> G polling)
    (names : list string) :
  (forall t i pol pol' st st',
     body t i pol st = (st', Done pol') -> pol' = pol /\ st' = st) ->
  forall pol st pol' st',
    every_graph names body pol st = (st', Done pol') -> pol' = pol /\ st' = st.
Proof.
  intros Hbody pol st pol' st' H.
  apply (every_graph_done (fun _ p s => p = pol /\ s = st)) in H; [exact H | | tauto].
  intros seen t i p s p' s' _ [-> ->] Hb. eapply Hbody. exact Hb.
Qed.

Lemma wait_graph_done (t i : string) (pol pol' : polling) (st st' : site) :
  wait_graph t i pol st = (st', Done pol') -> pol' = pol /\ st' = st.
Proof.
  unfold wait_graph. intros H. do 3 g_step H.
  apply pure_done in H. destruct H as [-> ->]. tauto.
Qed.

Lemma read_graph_done (t i : string) (pol pol' : polling) (st st' : site) :
  read_graph t i pol st = (st', Done pol') -> pol' = pol /\ st' = st.
Proof.
  unfold read_graph. intros H. do 3 g_step H. destruct v1 as [out err].
  do 2 g_step H. apply pure_done in H. destruct H as [-> ->]. tauto.
Qed.

Lemma clear_graph_done (t i : string) (pol pol' : polling) (st st' : site) :
  clear_graph t i pol st = (st', Done pol') ->
  st' = st
  /\ exists tgt, dict_get t pol = Some tgt /\ pol' = dict_set t (dict_del i tgt) pol.
Proof.
  unfold clear_graph. intros H. do 2 g_step H.
  apply pure_done in H. destruct H as [-> ->].
  split; [reflexivity|]. exists v. split; [apply subscript_ok; exact Hs | reflexivity].
Qed.

Lemma tidy_set (names : list string) (tgt : dict cell) (k : string) (c : cell) :
  tidy names tgt -> is_text c \/ In k names -> tidy names (dict_set k c tgt).
Proof.
  intros [Hn Hc] Hk. split; [apply dict_set_nodup; exact Hn|].
  apply Forall_forall. intros x Hin. apply In_dict_set in Hin.
  destruct Hin as [->|Hin]; [exact Hk|].
  revert x Hin. apply Forall_forall. exact Hc.
Qed.

Lemma tidy_del (names : list string) (tgt : dict cell) (k : string) :
  tidy names tgt -> tidy names (dict_del k tgt).
Proof.
  intros [Hn Hc]. split; [apply dict_del_nodup; exact Hn|].
  apply Forall_forall. intros x Hin. apply (dict_del_incl k tgt) in Hin.
  revert x Hin. apply Forall_forall. exact Hc.
Qed.

(** The first pass: the targets stay, the entries stay tidy, no file is
    written, and a graph is started for each turn, in the order of the
    turns. *)
Lemma spawn_pass_done (e : env) (gfxdic : gfxdefs) (names : list string)
    (pol pol' : polling) (st st' : site) :
  every_graph names (spawn_graph e gfxdic) pol st = (st', Done pol') ->
  map fst pol' = map fst pol
  /\ (all_tidy names pol -> all_tidy names pol')
  /\ written st' = written st
  /\ map drawn (rev (spawned st'))
     = (map drawn (rev (spawned st))
        ++ map (fun ti => graph_file e (fst ti) (snd ti))
               (pairs (sorted_keys pol) names))%list.
Proof.
  intros H.
  apply (every_graph_done
           (fun seen p s =>
              map fst p = map fst pol
              /\ (all_tidy names pol -> all_tidy names p)
              /\ written s = written st
              /\ map drawn (rev (spawned s))
                 = (map drawn (rev (spawned st))
                    ++ map (fun ti => graph_file e (fst ti) (snd ti)) seen)%list))
    in H; [exact H | |].
  - intros seen t i p s p' s' Hi (Hk & Ht & Hw & Hd) Hb.
    destruct (spawn_graph_done _ _ _ _ _ _ _ _ Hb)
      as (tgt & out & err & cmd & Hg & -> & Hs & Hc & Hw').
    split; [rewrite <- Hk; eapply dict_set_keys_present; exact Hg|].
    split.
    + intros Hp. specialize (Ht Hp). unfold all_tidy.
      apply Forall_dict_set; [exact Ht|].
      apply tidy_set; [|right; exact Hi].
      apply tidy_set; [|left; exact I].
      eapply (Forall_dict_get (tidy names)); [exact Ht | exact Hg].
    + split; [congruence|].
      rewrite Hs. cbn [rev]. rewrite !map_app, Hd, <- app_assoc. cbn [map fst snd].
      rewrite Hc. reflexivity.
  - cbn [map]. rewrite app_nil_r. tauto.
Qed.

(** The last pass: the targets stay, and every entry has lost the cells
    that stood under the names of the intervals. *)
Lemma clear_pass_done (names : list string) (pol pol' : polling) (st st' : site) :
  every_graph names clear_graph pol st = (st', Done pol') ->
  all_tidy names pol ->
  st' = st
  /\ map fst pol' = map fst pol
  /\ all_tidy names pol'
  /\ forall t i tgt,
       In (t, i) (pairs (sorted_keys pol) names) ->
       dict_get t pol' = Some tgt -> ~ In i (map fst tgt).
Proof.
  intros H Htidy.
  apply (every_graph_done
           (fun seen p s =>
              s = st
              /\ map fst p = map fst pol
              /\ all_tidy names p
              /\ forall t i tgt,
                   In (t, i) seen -> dict_get t p = Some tgt -> ~ In i (map fst tgt)))
    in H; [exact H | |].
  - intros seen t i p s p' s' Hi (-> & Hk & Ht & Hseen) Hb.
    destruct (clear_graph_done _ _ _ _ _ _ Hb) as (-> & tgt & Hg & ->).
    pose proof (Forall_dict_get (tidy names) _ _ _ Ht Hg) as Htgt.
    split; [reflexivity|].
    split; [rewrite <- Hk; eapply dict_set_keys_present; exact Hg|].
    split; [apply Forall_dict_set; [exact Ht | apply tidy_del; exact Htgt]|].
    intros t' i' tgt' Hin Hg'. rewrite dict_get_set in Hg'.
    destruct (String.eqb_spec t t') as [<-|Hne].
    + injection Hg' as <-. apply in_app_or in Hin. destruct Hin as [Hin|[E|[]]].
      * intros Hd. apply (Hseen _ _ _ Hin Hg). eapply dict_del_keys. exact Hd.
      * injection E as <-. apply dict_del_nodup. apply Htgt.
    + apply in_app_or in Hin. destruct Hin as [Hin|[E|[]]].
      * eapply Hseen; eassumption.
      * injection E as E _. contradiction Hne.
  - split; [reflexivity|]. split; [reflexivity|]. split; [exact Htidy|].
    intros t i tgt [].
Qed.

Lemma in_pairs (ts names : list string) (t i : string) :
  In (t, i) (pairs ts names) <-> In t ts /\ In i names.
Proof.
  unfold pairs. rewrite in_flat_map. split.
  - intros (t0 & Ht & Hin). apply in_map_iff in Hin.
    destruct Hin as (i0 & E & Hi). injection E as -> ->. tauto.
  - intros [Ht Hi]. exists t. split; [exact Ht|]. apply in_map. exact Hi.
Qed.

Lemma texts_keys (d : targets) : map fst (texts d) = map fst d.
Proof. unfold texts. rewrite map_map. reflexivity. Qed.

Lemma texts_tidy (names : list string) (d : targets) :
  Forall (fun kv => NoDup (map fst (snd kv))) d -> all_tidy names (texts d).
Proof.
  intros H. unfold all_tidy, texts. apply Forall_map.
  eapply Forall_impl; [|exact H]. intros [k tgt] Hn. cbn [snd] in *.
  split; [rewrite map_map; exact Hn|].
  apply Forall_map. apply Forall_forall. intros x _. left. exact I.
Qed.

Lemma texts_untext (pol : polling) :
  Forall (fun kv => Forall (fun nc => is_text (snd nc)) (snd kv)) pol ->
  texts (untext pol) = pol.
Proof.
  intros H. induction H as [|[k tgt] pol Ht _ IH]; [reflexivity|].
  unfold texts, untext in *. cbn [map fst snd] in *. rewrite IH. f_equal. f_equal.
  clear IH. induction Ht as [|[n c] tgt Hc _ IHt]; [reflexivity|].
  cbn [map fst snd] in *. rewrite IHt.
  destruct c; [reflexivity | contradiction].
Qed.

(** What gen_graphs has done when it completes. *)
Lemma gen_graphs_done (e : env) (poldic pol' : polling) (gfxdic : gfxdefs)
    (st st' : site) :
  gen_graphs e poldic gfxdic st = (st', Done pol') ->
  exists sorted,
    gfxprm_sort gfxdic = Ok sorted
    /\ map fst pol' = map fst poldic
    /\ written st' = written st
    /\ map drawn (rev (spawned st'))
       = (map drawn (rev (spawned st))
          ++ map (fun ti => graph_file e (fst ti) (snd ti))
                 (pairs (sorted_keys poldic) (map fst sorted)))%list
    /\ (all_tidy (map fst sorted) poldic ->
        all_tidy (map fst sorted) pol'
        /\ forall t i tgt,
             In t (map fst poldic) -> In i (map fst sorted) ->
             dict_get t pol' = Some tgt -> ~ In i (map fst tgt)).
Proof.
  unfold gen_graphs. intros H.
  g_step H. rename v into sorted. exists sorted. split; [exact Hs|].
  g_step H. rename v into pol1.
  destruct (spawn_pass_done _ _ _ _ _ _ _ Hs0) as (Hk1 & Ht1 & Hw1 & Hd1).
  g_step H. destruct (quiet_graph_done _ _ wait_graph_done _ _ _ _ Hs1) as [-> ->].
  g_step H. destruct (quiet_graph_done _ _ read_graph_done _ _ _ _ Hs2) as [-> ->].
  assert (Hkeep : map fst pol' = map fst pol1 /\ st' = s).
  { apply (every_graph_done (fun _ p s1 => map fst p = map fst pol1 /\ s1 = s)) in H;
      [exact H | | split; reflexivity].
    intros seen t i p s1 p' s1' _ [Hk ->] Hb.
    destruct (clear_graph_done _ _ _ _ _ _ Hb) as (-> & tgt & Hg & ->).
    split; [|reflexivity].
    rewrite <- Hk. eapply dict_set_keys_present. exact Hg. }
  destruct Hkeep as [Hk4 ->].
  split; [rewrite Hk4; exact Hk1|].
  split; [exact Hw1|]. split; [exact Hd1|].
  intros Htidy. specialize (Ht1 Htidy).
  destruct (clear_pass_done _ _ _ _ _ H Ht1) as (_ & Hk & Ht & Hgone).
  split; [exact Ht|].
  intros t i tgt Hin Hi Hg. eapply Hgone; [|exact Hg].
  apply in_pairs. split; [|exact Hi].
  apply In_sorted_keys. rewrite Hk1. exact Hin.
Qed.

(** X18.  Lines 459-495.  gen_graphs stores the child processes in the poll
    data, under the names of the intervals, and takes them out again:
    from poll data that hold texts only, with one entry for each key, it
    comes back with texts only, for the same targets. *)
Theorem gen_graphs_leaves_no_process_behind
    (e : env) (poldic : targets) (gfxdic : gfxdefs) (pol' : polling)
    (st st' : site) :
  NoDup (map fst poldic) ->
  Forall (fun kv => NoDup (map fst (snd kv))) poldic ->
  gen_graphs e (texts poldic) gfxdic st = (st', Done pol') ->
  exists poldic', pol' = texts poldic' /\ map fst poldic' = map fst poldic.
Proof.
  intros Hnd Hent H.
  destruct (gen_graphs_done _ _ _ _ _ _ H) as (sorted & _ & Hk & _ & _ & Htidy).
  destruct (Htidy (texts_tidy _ _ Hent)) as (Ht & Hgone).
  rewrite texts_keys in Hk.
  exists (untext pol'). split.
  - symmetry. apply texts_untext.
    apply Forall_forall. intros [k tgt] Hin. cbn [snd].
    assert (Hg : dict_get k pol' = Some tgt).
    { apply dict_get_In; [rewrite Hk; exact Hnd | exact Hin]. }
    pose proof (Forall_dict_get (tidy (map fst sorted)) _ _ _ Ht Hg) as [_ Hcells].
    apply Forall_forall. intros [n c] Hc.
    pose proof (proj1 (Forall_forall _ _) Hcells _ Hc) as [Htext|Hname];
      [exact Htext|].
    cbn [fst snd] in *. exfalso.
    apply (Hgone k n tgt); [|exact Hname|exact Hg|].
    + rewrite texts_keys, <- Hk. apply in_map_iff. exists (k, tgt). tauto.
    + apply in_map_iff. exists (n, c). tauto.
  - unfold untext. rewrite map_map. cbn [fst]. rewrite <- Hk. reflexivity.
Qed.

(** X19.  Lines 465-473.  gen_graphs starts one graph command for each target
    and each interval, the targets in the order of their names and the
    intervals in the order of their steps, and each command draws the
    file named after its target and its interval. *)
Theorem gen_graphs_draws_a_graph_for_each_target_and_interval
    (e : env) (poldic pol' : polling) (gfxdic : gfxdefs) (st st' : site) :
  gen_graphs e poldic gfxdic st = (st', Done pol') ->
  exists sorted,
    gfxprm_sort gfxdic = Ok sorted
    /\ map drawn (rev (spawned st'))
       = (map drawn (rev (spawned st))
          ++ flat_map (fun t => map (graph_file e t) (map fst sorted))
                      (sorted_keys poldic))%list.
Proof.
  intros H.
  destruct (gen_graphs_done _ _ _ _ _ _ H) as (sorted & Hs & _ & _ & Hd & _).
  exists sorted. split; [exact Hs|]. rewrite Hd. f_equal.
  unfold pairs. rewrite !flat_map_concat_map, concat_map, map_map.
  f_equal. apply map_ext. intros t. rewrite map_map. reflexivity.
Qed.

(** An item of a list of texts stands in their concatenation. *)
Lemma within_concat (x : string) (l : list string) :
  In x l -> within (String.concat "" l) x.
Proof.
  intros Hin. apply in_split in Hin. destruct Hin as (l1 & l2 & ->).
  exists (String.concat "" l1), (String.concat "" l2).
  rewrite concat_empty_app, concat_empty_cons. reflexivity.
Qed.

Lemma index_row_graph (t : string) :
  within (index_row t) ("src=" ++ quoted (t ++ "1mx12h.png")).
Proof. unfold index_row. find_part. Qed.

Lemma graph_div_graph (t i : string) :
  within (graph_div t i) ("<img src=" ++ quoted (t ++ i ++ ".png")).
Proof. unfold graph_div. find_part. Qed.

Lemma target_page_graph (stamp t i : string) (names : list string) :
  In i names ->
  within (target_page stamp t names) ("<img src=" ++ quoted (t ++ i ++ ".png")).
Proof.
  intros Hi. unfold target_page.
  pose proof (within_concat (graph_div t i) (map (graph_div t) names)
                ltac:(apply in_map; exact Hi)) as (b & a & Hc).
  rewrite Hc.
  repeat match goal with
         | |- within (String.concat _ _ ++ _) _ => fail 1
         | |- within ((b ++ _) ++ _) _ => fail 1
         | |- _ => apply within_right
         end.
  apply within_left, within_right, within_left, graph_div_graph.
Qed.

(** X20.  Lines 498-580.  The index page is the file closed last.  It has a
    row for each target, in the order of the target names, and the
    graph of a row is that of the interval named 1mx12h, whatever
    intervals the configuration defines. *)
Theorem index_shows_the_first_default_interval
    (e : env) (poldic : polling) (gfxdic : gfxdefs) (st st' : site) (x : unit) :
  gen_html_index e poldic gfxdic st = (st', Done x) ->
  (exists d,
     plus_minute (utcnow (clock st)) = Ok d
     /\ hd_error (written st')
        = Some (html_dir e ++ "/" ++ "mhag.html",
                index_top (expires d)
                  ++ String.concat "" (map index_row (sorted_keys poldic))
                  ++ index_bottom))
  /\ forall t, within (index_row t) ("src=" ++ quoted (t ++ "1mx12h.png")).
Proof.
  intros H. split; [|exact index_row_graph].
  destruct (gen_html_index_written _ _ _ _ _ _ H) as (d & sorted & Hd & _ & Hw & _).
  exists d. split; [exact Hd|]. rewrite Hw. reflexivity.
Qed.

(** X21.  Lines 141-143, 401-405 and 557-563.  In a report that completes,
    every graph that the page of a target shows has been drawn: for each
    target and each interval a command was started that draws the file
    named after them in the directory of the pages, and the page of the
    target, closed under its name in that directory, shows the file of
    that name. *)
Theorem every_graph_of_a_page_is_drawn
    (e : env) (pol_dict : targets) (gfx_dict : gfxdefs) (pol' : polling)
    (st st' : site) :
  report e pol_dict gfx_dict st = (st', Done pol') ->
  exists sorted,
    gfxprm_sort gfx_dict = Ok sorted
    /\ forall t i,
         In t (map fst pol_dict) -> In i (map fst sorted) ->
         In (html_dir e ++ t ++ i ++ ".png") (map drawn (spawned st'))
         /\ exists page,
              In (html_dir e ++ "/" ++ t ++ ".html", page) (written st')
              /\ within page ("<img src=" ++ quoted (t ++ i ++ ".png")).
Proof.
  unfold report. intros H. g_step H. rename v into pol1.
  g_step H. apply pure_done in H. destruct H as [-> ->].
  destruct (gen_graphs_done _ _ _ _ _ _ Hs) as (sorted & Hsorted & Hk & _ & Hd & _).
  destruct (gen_html_index_written _ _ _ _ _ _ Hs0)
    as (d & sorted' & _ & Hsorted' & Hw & Hsp).
  rewrite Hsorted in Hsorted'. injection Hsorted' as <-.
  exists sorted. split; [exact Hsorted|].
  intros t i Ht Hi.
  assert (Hkey : In t (sorted_keys pol1)).
  { apply In_sorted_keys. rewrite Hk, texts_keys. exact Ht. }
  split.
  - rewrite Hsp. apply (in_rev (map drawn (spawned s))).
    rewrite <- map_rev, Hd. apply in_or_app. right.
    apply in_map_iff. exists (t, i). split; [reflexivity|].
    apply in_pairs. split; [|exact Hi].
    apply In_sorted_keys. rewrite texts_keys. exact Ht.
  - exists (target_page (expires d) t (map fst sorted)). split.
    + rewrite Hw. right. apply in_or_app. left. apply -> in_rev.
      apply in_map_iff. exists t. split; [reflexivity | exact Hkey].
    + apply target_page_graph. exact Hi.
Qed.

(** The first pass leaves the path of each graph under its key, and the
    cells that are not graph keys as they were. *)
Lemma spawn_pass_paths (e : env) (gfxdic : gfxdefs) (names : list string)
    (pol pol' : polling) (st st' : site) :
  every_graph names (spawn_graph e gfxdic) pol st = (st', Done pol') ->
  (forall t i,
     In (t, i) (pairs (sorted_keys pol) names) -> ~ In ("graph-" ++ i) names ->
     cell_of pol' t ("graph-" ++ i) = Some (Text (graph_file e t i)))
  /\ (forall t name, ~ graph_key names name -> cell_of pol' t name = cell_of pol t name).
Proof.
  intros H.
  apply (every_graph_done
           (fun seen p _ =>
              (forall t i,
                 In (t, i) seen -> ~ In ("graph-" ++ i) names ->
                 cell_of p t ("graph-" ++ i) = Some (Text (graph_file e t i)))
              /\ (forall t name, ~ graph_key names name ->
                    cell_of p t name = cell_of pol t name)))
    in H; [exact H | |].
  - intros seen t i p s p' s' Hi (Hseen & Hkeep) Hb.
    destruct (spawn_graph_done _ _ _ _ _ _ _ _ Hb)
      as (tgt & out & err & cmd & Hg & -> & _).
    split.
    + intros t' i' Hin Hfree. rewrite cell_of_set.
      destruct (String.eqb_spec t t') as [<-|Hne].
      * rewrite dict_get_set.
        destruct (String.eqb_spec i ("graph-" ++ i')) as [E|_];
          [contradiction Hfree; rewrite <- E; exact Hi|].
        rewrite dict_get_set.
        destruct (String.eqb_spec ("graph-" ++ i) ("graph-" ++ i')) as [E|Hd].
        -- assert (i = i') as <-; [|reflexivity].
           clear - E. simpl in E. congruence.
        -- apply in_app_or in Hin. destruct Hin as [Hin|[E|[]]].
           ++ specialize (Hseen _ _ Hin Hfree). unfold cell_of in Hseen.
              rewrite Hg in Hseen. exact Hseen.
           ++ injection E as <-. contradiction Hd. reflexivity.
      * apply in_app_or in Hin. destruct Hin as [Hin|[E|[]]].
        -- apply Hseen; assumption.
        -- injection E as E _. contradiction.
    + intros t' name Hn. rewrite cell_of_set.
      destruct (String.eqb_spec t t') as [<-|Hne]; [|apply Hkeep; exact Hn].
      rewrite !dict_get_set.
      destruct (String.eqb_spec i name) as [<-|_];
        [contradiction Hn; left; exact Hi|].
      destruct (String.eqb_spec ("graph-" ++ i) name) as [<-|_];
        [contradiction Hn; right; exists i; split; [exact Hi | reflexivity]|].
      rewrite <- (Hkeep t name Hn). unfold cell_of. rewrite Hg. reflexivity.
  - split; [intros t i []|]. intros t name _. reflexivity.
Qed.

(** The last pass deletes cells under the names of the intervals only. *)
Lemma clear_pass_keeps (names : list string) (pol pol' : polling) (st st' : site) :
  every_graph names clear_graph pol st = (st', Done pol') ->
  forall t name, ~ In name names -> cell_of pol' t name = cell_of pol t name.
Proof.
  intros H.
  refine (every_graph_done
            (fun _ p _ => forall t name, ~ In name names ->
                            cell_of p t name = cell_of pol t name)
            names clear_graph _ pol st pol' st' _ H).
  - intros seen t i p s p' s' Hi Hkeep Hb.
    destruct (clear_graph_done _ _ _ _ _ _ Hb) as (_ & tgt & Hg & ->).
    intros t' name Hn. rewrite cell_of_set.
    destruct (String.eqb_spec t t') as [<-|Hne]; [|apply Hkeep; exact Hn].
    rewrite dict_get_del_other by (intros ->; contradiction).
    rewrite <- (Hkeep t name Hn). unfold cell_of. rewrite Hg. reflexivity.
  - intros t name _. reflexivity.
Qed.

(** X23.  Lines 401-402 and 459-495.  What gen_graphs leaves in the poll data
    when it completes: for each target and each interval the path of
    the graph, under the key "graph-" and the name of the interval
    (when that key is not itself the name of an interval), and every
    cell that is not under such a key or under the name of an interval
    as it was. *)
Theorem gen_graphs_records_the_path_of_each_graph
    (e : env) (poldic pol' : polling) (gfxdic : gfxdefs) (st st' : site) :
  gen_graphs e poldic gfxdic st = (st', Done pol') ->
  exists sorted,
    gfxprm_sort gfxdic = Ok sorted
    /\ (forall t i,
          In t (map fst poldic) -> In i (map fst sorted) ->
          ~ In ("graph-" ++ i) (map fst sorted) ->
          cell_of pol' t ("graph-" ++ i) = Some (Text (graph_file e t i)))
    /\ (forall t name,
          ~ graph_key (map fst sorted) name ->
          cell_of pol' t name = cell_of poldic t name).
Proof.
  unfold gen_graphs. intros H.
  g_step H. rename v into sorted. exists sorted. split; [exact Hs|].
  g_step H. rename v into pol1.
  destruct (spawn_pass_paths _ _ _ _ _ _ _ Hs0) as (Hpaths & Hkeep).
  g_step H. destruct (quiet_graph_done _ _ wait_graph_done _ _ _ _ Hs1) as [-> ->].
  g_step H. destruct (quiet_graph_done _ _ read_graph_done _ _ _ _ Hs2) as [-> ->].
  pose proof (clear_pass_keeps _ _ _ _ _ H) as Hclear.
  split.
  - intros t i Ht Hi Hfree. rewrite Hclear by exact Hfree.
    apply Hpaths; [|exact Hfree]. apply in_pairs. split; [|exact Hi].
    apply In_sorted_keys. exact Ht.
  - intros t name Hn. rewrite Hclear by (intros Hin; apply Hn; left; exact Hin).
    apply Hkeep. exact Hn.
Qed.

End ReportFacts.


(* ================================================================== *)
(** * Examples of the run and of the report *)

(** Keys that differ from one another, by evaluation. *)
Ltac distinct_keys :=
  cbn [map fst snd];
  repeat (constructor; [cbn [In]; intuition discriminate|]);
  constructor.

Section MoreExamples.
#[local] Existing Instance ascii_tables.
#[local] Existing Instance value_codec.
#[local] Existing Instance c_locale.

Lemma partial_loss_witness :
  exists p,
    has_header ping_partial = true
    /\ loss_percent ping_partial = Ok 40
    /\ parse_ping probe_env known_targets "Cloudflare" ping_partial "" = Ok p
    /\ field p "Cloudflare" "AVAIL" = Some "60".
Proof.
  assert (Hp : is_ok (parse_ping probe_env known_targets "Cloudflare" ping_partial "")
               = true) by (vm_compute; reflexivity).
  destruct (parse_ping probe_env known_targets "Cloudflare" ping_partial "")
    as [p|] eqn:E; [|discriminate Hp].
  exists p.
  split; [vm_compute; reflexivity|].
  split; [vm_compute; reflexivity|].
  split; [reflexivity|].
  apply (availability_is_hundred_minus_loss probe_env known_targets p
           "Cloudflare" ping_partial 40);
    [vm_compute; reflexivity | vm_compute; reflexivity | exact E].
Defined.

Lemma total_loss_witness :
  exists p,
    has_header ping_all_lost = true
    /\ loss_percent ping_all_lost = Ok 100
    /\ parse_ping probe_env known_targets "Cloudflare" ping_all_lost "" = Ok p
    /\ field p "Cloudflare" "AVAIL" = Some "0"
    /\ field p "Cloudflare" "AVGRTT" = Some "UNKNOWN"
    /\ field p "Cloudflare" "LASTFAIL" = Some "2019-01-21 10:00:00.000001".
Proof.
  assert (Hp : is_ok (parse_ping probe_env known_targets "Cloudflare" ping_all_lost "")
               = true) by (vm_compute; reflexivity).
  destruct (parse_ping probe_env known_targets "Cloudflare" ping_all_lost "")
    as [p|] eqn:E; [|discriminate Hp].
  exists p.
  split; [vm_compute; reflexivity|].
  split; [vm_compute; reflexivity|].
  split; [reflexivity|].
  destruct (total_loss_marks_failure probe_env known_targets p
              "Cloudflare" ping_all_lost
              ltac:(vm_compute; reflexivity) ltac:(vm_compute; reflexivity) E)
    as (Ha & _ & Hg & _ & _ & Hl).
  split; [exact Ha|]. split; [exact Hg | exact Hl].
Defined.

Lemma header_alone_witness :
  exists p,
    has_header "PING" = true
    /\ matches "PING" = []
    /\ parse_ping probe_env known_targets "Cloudflare" "PING" "" = Ok p
    /\ field p "Cloudflare" "AVAIL" = Some "0"
    /\ field p "Cloudflare" "AVGRTT" = Some "UNKNOWN"
    /\ field p "Cloudflare" "LASTFAIL" = Some "2019-01-21 10:00:00.000001".
Proof.
  assert (Hp : is_ok (parse_ping probe_env known_targets "Cloudflare" "PING" "")
               = true) by (vm_compute; reflexivity).
  destruct (parse_ping probe_env known_targets "Cloudflare" "PING" "")
    as [p|] eqn:E; [|discriminate Hp].
  exists p.
  split; [vm_compute; reflexivity|].
  split; [vm_compute; reflexivity|].
  split; [reflexivity|].
  apply (header_without_match_marks_failure probe_env known_targets p
           "Cloudflare" "PING");
    [vm_compute; reflexivity | vm_compute; reflexivity | exact E].
Defined.

Lemma rtt_groups_witness :
  exists tuple t,
    nth_error (matches ping_success) 5 = Some tuple
    /\ nth_error tuple 7 = Some t
    /\ t = u "12.3"
    /\ (t = [] \/ exists f, py_float t = Ok f).
Proof.
  destruct (nth_error (matches ping_success) 5) as [tuple|] eqn:Em;
    [|exfalso; revert Em; vm_compute; discriminate].
  destruct (nth_error tuple 7) as [t|] eqn:Et;
    [|exfalso; revert Et; revert Em; vm_compute; intros Em; injection Em as <-;
      discriminate].
  exists tuple, t. split; [reflexivity|]. split; [exact Et|].
  split.
  - revert Et. revert Em. vm_compute. intros Em. injection Em as <-.
    intros Et. injection Et as <-. reflexivity.
  - apply (rtt_groups_read_as_floats
             (byte_values ping_success) tuple 7 t);
      [ apply nth_error_In with (n := 5%nat); revert Em; vm_compute;
        intros Em; injection Em as <-; reflexivity
      | lia | exact Et ].
Defined.

Lemma missing_reading_witness :
  In "Cloudflare" (map fst known_targets)
  /\ field known_targets "Cloudflare" "AVGRTT" = None
  /\ is_ok (update_command probe_env "/var/mhag/mhag.json" known_targets) = false.
Proof.
  split; [left; reflexivity|]. split; [reflexivity|].
  apply (update_command_needs_every_sample probe_env "/var/mhag/mhag.json"
           known_targets "Cloudflare"); [left; reflexivity | reflexivity].
Defined.

Lemma one_entry_witness :
  exists p,
    parse_ping probe_env two_targets "Cloudflare" ping_success "" = Ok p
    /\ map fst p = ["Cloudflare"; "Google"]
    /\ dict_get "Google" p = dict_get "Google" two_targets
    /\ field p "Cloudflare" "FQDN" = Some "one.one.one.one"
    /\ field p "Cloudflare" "AVGRTT" = Some "12".
Proof.
  assert (Hp : is_ok (parse_ping probe_env two_targets "Cloudflare" ping_success "")
               = true) by (vm_compute; reflexivity).
  assert (Ha : field_of (parse_ping probe_env two_targets "Cloudflare" ping_success "")
                 "Cloudflare" "AVGRTT" = Some "12") by (vm_compute; reflexivity).
  destruct (parse_ping probe_env two_targets "Cloudflare" ping_success "")
    as [p|] eqn:E; [|discriminate Hp].
  exists p. split; [reflexivity|].
  destruct (parse_ping_touches_one_entry probe_env two_targets p "Cloudflare"
              ping_success "" E) as (Hk & Ho & Hf).
  split; [exact Hk|].
  split; [apply Ho; discriminate|].
  split; [|exact Ha].
  rewrite Hf; [reflexivity|]. cbn [parsed_fields In]. intuition discriminate.
Defined.

Lemma few_tokens_witness :
  has_header ping_first_line = true
  /\ List.length (matches ping_first_line) = 2%nat
  /\ parse_ping probe_env known_targets "Cloudflare" ping_first_line ""
     = Raise IndexError.
Proof.
  assert (Hl : List.length (matches ping_first_line) = 2%nat)
    by (vm_compute; reflexivity).
  split; [vm_compute; reflexivity|]. split; [exact Hl|].
  apply (reply_with_few_tokens_raises probe_env known_targets "Cloudflare"
           ping_first_line
           [("FQDN", "one.one.one.one"); ("COUNT", "5");
            ("LASTFAIL", "2019-01-20 08:00:00.000001")]);
    [vm_compute; reflexivity | reflexivity | rewrite Hl; lia].
Defined.

Lemma any_character_witness :
  cfgfile args_named_myjson_only = "myjson"
  /\ config_name args_named_myjson_only = "myjson".
Proof.
  split; [reflexivity|].
  apply (config_name_takes_any_character_for_the_dot args_named_myjson_only
           "m" "y"); [discriminate | reflexivity].
Defined.

Lemma paths_agree_witness :
  occurs "json" (datadir (ARGS probe_env)) = false
  /\ update_path (ARGS probe_env) = database_path (ARGS probe_env)
  /\ database_path (ARGS probe_env) = "/var/mhag/mhag.rrd".
Proof.
  split; [reflexivity|].
  split; [apply (database_paths_agree (ARGS probe_env)); reflexivity|].
  vm_compute. reflexivity.
Defined.

Lemma update_command_witness :
  update_values polled = map Some ["12"; "100"; "UNKNOWN"; "0"]
  /\ update_command probe_env "/var/mhag/mhag.json" polled
     = Ok ("/usr/bin/rrdtool update /var/mhag/mhag.rrd --template "
             ++ "Cloudflare-AVRTT:Cloudflare-AVAIL:Google-AVRTT:Google-AVAIL "
             ++ "1548064800:12:100:UNKNOWN:0").
Proof.
  split; [reflexivity|].
  rewrite (update_command_pairs_names_and_readings probe_env "/var/mhag/mhag.json"
             polled ["12"; "100"; "UNKNOWN"; "0"]);
    [vm_compute; reflexivity | discriminate | reflexivity].
Defined.


Lemma complete_file_witness :
  read_config probe_env "/var/mhag/mhag.json" stored_world
  = (stored_world, Ok (two_targets, default_gfx)).
Proof.
  assert (Hg : default_gfx <> []) by discriminate.
  exact (read_config_only_reads_a_complete_file probe_env "/var/mhag/mhag.json"
           stored_world (two_targets, default_gfx) two_targets default_gfx
           eq_refl eq_refl Hg).
Defined.

Lemma half_day_witness :
  abs_delta half_a_day_later started = 1 * 43200 * 1000000
  /\ uptime_text half_a_day_later half_a_day_later started
     = Ok "22:00:00 UP (since last ping fail) for 1 days, .".
Proof.
  split; [reflexivity|].
  rewrite (half_days_are_counted_as_days half_a_day_later half_a_day_later started 1);
    [vm_compute; reflexivity | lia | reflexivity].
Defined.

Lemma sixty_seconds_witness :
  abs_delta almost_a_minute_later started = 59700000
  /\ uptime_text almost_a_minute_later almost_a_minute_later started
     = Ok "10:00:59 UP (since last ping fail) for 60 seconds.".
Proof.
  split; [reflexivity|].
  rewrite (last_half_second_reads_sixty_seconds
             almost_a_minute_later almost_a_minute_later started);
    [vm_compute; reflexivity|].
  change (abs_delta almost_a_minute_later started) with 59700000. lia.
Defined.

Lemma no_lastfail_witness :
  In "Quad9" (map fst targets_with_a_new_one)
  /\ field targets_with_a_new_one "Quad9" "LASTFAIL" = None
  /\ is_ok (ping_hosts (run_env started ping_success "")
              targets_with_a_new_one targets_with_a_new_one) = false.
Proof.
  split; [right; left; reflexivity|]. split; [reflexivity|].
  apply (a_target_without_lastfail_stops_the_poll
           (run_env started ping_success "")
           targets_with_a_new_one targets_with_a_new_one "Quad9");
    [right; left; reflexivity | reflexivity].
Defined.

Lemma stamped_witness :
  exists c p,
    ping_hosts (run_env started ping_success "") two_targets two_targets = Ok (c, p)
    /\ field c "Google" "LASTPOLL" = Some "2019-01-21 10:00:00.000001".
Proof.
  assert (Hp : is_ok (ping_hosts (run_env started ping_success "")
                        two_targets two_targets) = true)
    by (vm_compute; reflexivity).
  destruct (ping_hosts (run_env started ping_success "") two_targets two_targets)
    as [[c p]|] eqn:E; [|discriminate Hp].
  exists c, p. split; [reflexivity|].
  apply (a_completed_poll_stamps_every_target (run_env started ping_success "")
           two_targets two_targets c p "Google" E).
  right. left. reflexivity.
Defined.

Lemma no_process_witness :
  exists st' pol' poldic',
    gen_graphs probe_env (texts polled) default_gfx fresh_site = (st', Done pol')
    /\ pol' = texts poldic'
    /\ map fst poldic' = ["Cloudflare"; "Google"].
Proof.
  assert (Hd : is_done (snd (gen_graphs probe_env (texts polled) default_gfx
                                        fresh_site)) = true)
    by (vm_compute; reflexivity).
  destruct (gen_graphs probe_env (texts polled) default_gfx fresh_site)
    as [st' [pol'|f]] eqn:E; [|discriminate Hd].
  assert (Hk : NoDup (map fst polled)) by (unfold polled; distinct_keys).
  assert (He : Forall (fun kv => NoDup (map fst (snd kv))) polled).
  { unfold polled. repeat (constructor; [distinct_keys|]). constructor. }
  destruct (gen_graphs_leaves_no_process_behind probe_env polled default_gfx
              pol' fresh_site st' Hk He E) as (poldic' & Hp & Hkeys).
  exists st', pol', poldic'. split; [reflexivity|]. split; [exact Hp | exact Hkeys].
Defined.

Lemma graphs_witness :
  exists st' pol',
    gen_graphs probe_env (texts polled) default_gfx fresh_site = (st', Done pol')
    /\ map drawn (rev (spawned st'))
       = ["/var/www/Cloudflare1mx12h.png"; "/var/www/Cloudflare5mx24h.png";
          "/var/www/Cloudflare30mx7d.png"; "/var/www/Cloudflare2hx28d.png";
          "/var/www/Cloudflare1dx365d.png"; "/var/www/Google1mx12h.png";
          "/var/www/Google5mx24h.png"; "/var/www/Google30mx7d.png";
          "/var/www/Google2hx28d.png"; "/var/www/Google1dx365d.png"].
Proof.
  assert (Hd : is_done (snd (gen_graphs probe_env (texts polled) default_gfx
                                        fresh_site)) = true)
    by (vm_compute; reflexivity).
  destruct (gen_graphs probe_env (texts polled) default_gfx fresh_site)
    as [st' [pol'|f]] eqn:E; [|discriminate Hd].
  exists st', pol'. split; [reflexivity|].
  destruct (gen_graphs_draws_a_graph_for_each_target_and_interval probe_env
              (texts polled) pol' default_gfx fresh_site st' E)
    as (sorted & Hs & Hdrawn).
  rewrite Hdrawn.
  change (gfxprm_sort default_gfx) with (Ok default_gfx) in Hs.
  injection Hs as <-. vm_compute. reflexivity.
Defined.

Lemma index_witness :
  exists st' x row,
    gen_html_index probe_env (texts polled) default_gfx fresh_site = (st', Done x)
    /\ option_map fst (hd_error (written st')) = Some "/var/www//mhag.html"
    /\ index_row "Google" = row
    /\ within row ("src=" ++ quoted "Google1mx12h.png").
Proof.
  assert (Hd : is_done (snd (gen_html_index probe_env (texts polled) default_gfx
                                            fresh_site)) = true)
    by (vm_compute; reflexivity).
  destruct (gen_html_index probe_env (texts polled) default_gfx fresh_site)
    as [st' [x|f]] eqn:E; [|discriminate Hd].
  destruct (index_shows_the_first_default_interval probe_env (texts polled)
              default_gfx fresh_site st' x E) as ((d & _ & Hw) & Hrow).
  exists st', x, (index_row "Google"). split; [reflexivity|].
  split; [rewrite Hw; vm_compute; reflexivity|].
  split; [reflexivity | exact (Hrow "Google")].
Defined.

Lemma report_witness :
  exists st' pol' page,
    report probe_env polled default_gfx fresh_site = (st', Done pol')
    /\ In "/var/www/Google30mx7d.png" (map drawn (spawned st'))
    /\ In ("/var/www//Google.html", page) (written st')
    /\ within page ("<img src=" ++ quoted "Google30mx7d.png").
Proof.
  assert (Hd : is_done (snd (report probe_env polled default_gfx fresh_site)) = true)
    by (vm_compute; reflexivity).
  destruct (report probe_env polled default_gfx fresh_site)
    as [st' [pol'|f]] eqn:E; [|discriminate Hd].
  destruct (every_graph_of_a_page_is_drawn probe_env polled default_gfx pol'
              fresh_site st' E) as (sorted & Hs & Hall).
  change (gfxprm_sort default_gfx) with (Ok default_gfx) in Hs.
  injection Hs as <-.
  destruct (Hall "Google" "30mx7d") as (Hdrawn & page & Hpage & Hshows);
    [right; left; reflexivity | right; right; left; reflexivity|].
  exists st', pol', page. split; [reflexivity|].
  split; [exact Hdrawn|]. split; [exact Hpage | exact Hshows].
Defined.

Lemma failed_poll_witness :
  read_config (run_env started ping_success "") "/var/mhag/mhag.json"
    world_with_a_new_target
  = (world_with_a_new_target, Ok (targets_with_a_new_one, default_gfx))
  /\ is_ok (ping_hosts (run_env started ping_success "")
              targets_with_a_new_one targets_with_a_new_one) = false
  /\ is_ok (snd (main (run_env started ping_success "") world_with_a_new_target))
     = false
  /\ files (fst (main (run_env started ping_success "") world_with_a_new_target))
     = files world_with_a_new_target.
Proof.
  assert (Hr : read_config (run_env started ping_success "")
                 (config_path (ARGS (run_env started ping_success "")))
                 world_with_a_new_target
               = (world_with_a_new_target, Ok (targets_with_a_new_one, default_gfx)))
    by reflexivity.
  assert (Hp : is_ok (ping_hosts (run_env started ping_success "")
                        targets_with_a_new_one targets_with_a_new_one) = false)
    by (vm_compute; reflexivity).
  destruct (a_failed_poll_persists_nothing (run_env started ping_success "")
              world_with_a_new_target world_with_a_new_target
              targets_with_a_new_one default_gfx eq_refl Hr Hp) as (Hok & _ & Hf).
  split; [exact Hr|]. split; [exact Hp|]. split; [exact Hok | exact Hf].
Defined.

Lemma graph_paths_witness :
  exists st' pol',
    gen_graphs probe_env (texts polled) default_gfx fresh_site = (st', Done pol')
    /\ cell_of pol' "Google" "graph-30mx7d" = Some (Text "/var/www/Google30mx7d.png")
    /\ cell_of pol' "Google" "FQDN" = Some (Text "google-public-dns-a.google.com").
Proof.
  assert (Hd : is_done (snd (gen_graphs probe_env (texts polled) default_gfx
                                        fresh_site)) = true)
    by (vm_compute; reflexivity).
  destruct (gen_graphs probe_env (texts polled) default_gfx fresh_site)
    as [st' [pol'|f]] eqn:E; [|discriminate Hd].
  destruct (gen_graphs_records_the_path_of_each_graph probe_env (texts polled)
              pol' default_gfx fresh_site st' E) as (sorted & Hs & Hpath & Hkeep).
  change (gfxprm_sort default_gfx) with (Ok default_gfx) in Hs.
  injection Hs as <-.
  exists st', pol'. split; [reflexivity|]. split.
  - apply (Hpath "Google" "30mx7d");
      [right; left; reflexivity | right; right; left; reflexivity|].
    cbn [default_gfx map fst In]. intuition discriminate.
  - rewrite (Hkeep "Google" "FQDN"); [reflexivity|].
    intros [Hin | (i & Hi & E')].
    + cbn [default_gfx map fst In] in Hin. intuition discriminate.
    + cbn [default_gfx map fst In] in Hi.
      destruct Hi as [<-|[<-|[<-|[<-|[<-|[]]]]]]; discriminate E'.
Defined.

(** The key of a graph must not be the name of an interval, nor the
    name of an interval that of a field: the report then stops. *)
Example an_interval_named_after_a_field_stops_the_graphs :
  snd (gen_graphs probe_env (texts polled) gfx_named_after_a_field fresh_site)
  = Fault TypeError.
Proof. vm_compute. reflexivity. Qed.

Example an_interval_named_after_a_graph_key_stops_the_graphs :
  snd (gen_graphs probe_env (texts polled) gfx_named_after_a_graph_key fresh_site)
  = Fault AttributeError.
Proof. vm_compute. reflexivity. Qed.

End MoreExamples.
